(** * Milvus -> TiDB chunk migration: a shallow embedding of
      [migrate_milvus_to_tidb.py] and the properties of its engine.

    Definitions
    - [Py]         the fragment of Python values and builtins the script
                   uses ([int()], [float()], [list()], truthiness,
                   [str(int)], [dict.get]);
    - [Store]      the two external stores as the script sees them: the
                   Milvus query endpoint and the TiDB table, the text of
                   the filters they are sent, and the trace of the calls
                   that reach them;
    - [Engine]     the functions of the script, in source order;
    - the vocabulary of the properties, and [Scan], the rows a run fetches;
    - [Instances]  concrete runtimes, sources and destinations to run the
                   script on;
    - [Startup]    what [migrate_range] does before its loop: the
                   environment, the two clients, the width of the
                   embedding, the destination table;
    - [Mock]       [insert_milvus.py]: the generator of mock rows and
                   their insertion in batches;
    - [Inspect]    [inspect_milvus.py]: the sample of rows.

    Theorems
    - [Text]       filters read back as the ranges and id lists they were
                   written from;
    - rows, staging, the probe, one page, the loop;
    - termination over a finite source, the scenarios of the
      specification;
    - the properties of the leaves and of the driver, with the runs that
      bound them;
    - what a run leaves in the destination and asks of the stores, the
      start-up ([StartupFacts]), the mock rows ([MockFacts]) and the
      sample ([InspectFacts]). *)

From Stdlib Require Import ZArith String Ascii List Bool Lia.
From Stdlib Require Import Decimal DecimalString DecimalZ.
From Stdlib Require Import Floats.SpecFloat.
From stdpp Require Import base option list strings gmap.

Set Warnings "-register-all".

Local Open Scope Z_scope.
Local Open Scope string_scope.
Local Open Scope list_scope.

(* ===================================================================== *)
(** * Python values, exceptions and builtins                              *)
(* ===================================================================== *)

Module Py.

(** Exceptions the script raises itself or lets escape from a builtin or a
    store client. *)
Inductive exn :=
| ClickException (msg : string)
| TypeError
| ValueError
| OverflowError
| KeyError (key : string)
| StoreError (msg : string).

(** The result of evaluating an expression: a value or a raised exception. *)
Inductive outcome (A : Type) :=
| Ret (a : A)
| Raise (e : exn).
Arguments Ret {A} a.
Arguments Raise {A} e.

#[export] Instance outcome_ret : MRet outcome := @Ret.
#[export] Instance outcome_bind : MBind outcome := λ A B f m,
  match m with Ret a => f a | Raise e => Raise e end.
#[export] Instance outcome_fmap : FMap outcome := λ A B f m,
  match m with Ret a => Ret (f a) | Raise e => Raise e end.

(** A list comprehension [[f(x) for x in l]]: elements are converted left to
    right and the first exception aborts the whole comprehension. *)
Fixpoint comprehension {A B} (f : A → outcome B) (l : list A) : outcome (list B) :=
  match l with
  | [] => Ret []
  | x :: l' => y ← f x; ys ← comprehension f l'; Ret (y :: ys)
  end.

(** The values that can sit in a row dictionary. Floats are IEEE-754
    binary64 numbers in their [spec_float] form. [PTuple] stands for the
    iterables other than [list] (tuples, arrays). *)
Inductive pyval :=
| PNone
| PBool (b : bool)
| PInt (z : Z)
| PFloat (f : spec_float)
| PStr (s : string)
| PList (l : list pyval)
| PTuple (l : list pyval).

(** A row is a [Dict[str, Any]]. *)
Abbreviation row := (gmap string pyval).

(** [d.get(k, dflt)] *)
Definition dict_get (d : row) (k : string) (dflt : pyval) : pyval :=
  default dflt (d !! k).

(** [v is None] *)
Definition is_None (v : pyval) : bool :=
  match v with PNone => true | _ => false end.

(** [k in d and d[k] is not None] *)
Definition has_value (d : row) (k : string) : bool :=
  match d !! k with
  | Some v => negb (is_None v)
  | None => false
  end.

(** [d[k]] *)
Definition dict_item (d : row) (k : string) : outcome pyval :=
  match d !! k with
  | Some v => Ret v
  | None => Raise (KeyError k)
  end.

(** Parsing of numerals out of strings by [int(str)] and [float(str)] is
    Python's own and is left abstract. *)
Class StrParsers := {
  int_of_str : string → outcome Z;
  float_of_str : string → outcome spec_float;
}.

(** [float(int)]: round to nearest even on binary64, [OverflowError] when the
    integer is out of range. *)
Definition float_of_Z (z : Z) : outcome spec_float :=
  match binary_normalize 53 1024 z 0 false with
  | S754_infinity _ => Raise OverflowError
  | f => Ret f
  end.

(** [int(float)]: truncation towards zero. *)
Definition Z_of_float (f : spec_float) : outcome Z :=
  match f with
  | S754_zero _ => Ret 0
  | S754_infinity _ => Raise OverflowError
  | S754_nan => Raise ValueError
  | S754_finite s m e => Ret (cond_Zopp s (Z.shiftl (Z.pos m) e))
  end.

Section Builtins.
Context `{StrParsers}.

(** [float(v)] *)
Definition py_float (v : pyval) : outcome spec_float :=
  match v with
  | PFloat f => Ret f
  | PInt z => float_of_Z z
  | PBool b => float_of_Z (if b then 1 else 0)
  | PStr s => float_of_str s
  | PNone | PList _ | PTuple _ => Raise TypeError
  end.

(** [int(v)] *)
Definition py_int (v : pyval) : outcome Z :=
  match v with
  | PInt z => Ret z
  | PBool b => Ret (if b then 1 else 0)
  | PFloat f => Z_of_float f
  | PStr s => int_of_str s
  | PNone | PList _ | PTuple _ => Raise TypeError
  end.
End Builtins.

(** [list(v)] *)
Definition py_list (v : pyval) : outcome (list pyval) :=
  match v with
  | PList l | PTuple l => Ret l
  | PStr s => Ret ((λ c, PStr (String c EmptyString)) <$> list_ascii_of_string s)
  | PNone | PBool _ | PInt _ | PFloat _ => Raise TypeError
  end.

(** Truth value of [v], as [or] and [not] test it. *)
Definition truthy (v : pyval) : bool :=
  match v with
  | PNone => false
  | PBool b => b
  | PInt z => negb (Z.eqb z 0)
  | PFloat (S754_zero _) => false
  | PFloat _ => true
  | PStr s => negb (String.eqb s "")
  | PList l | PTuple l => match l with [] => false | _ => true end
  end.

(** [a or b] *)
Definition py_or (a b : pyval) : pyval := if truthy a then a else b.

(** [str(z)] for an [int], also what an f-string writes for [{z}]. *)
Definition str_of_Z (z : Z) : string := NilZero.string_of_int (Z.to_int z).

(** [sep.join(l)] *)
Fixpoint join (sep : string) (l : list string) : string :=
  match l with
  | [] => ""
  | [s] => s
  | s :: l' => s +:+ sep +:+ join sep l'
  end.

End Py.
Export Py.

(* ===================================================================== *)
(** * The two stores                                                      *)
(* ===================================================================== *)

Module Store.

(** The record the driver stages for insertion and the destination table
    stores: the seven columns of the [Chunk] table model, keyed by [id]. *)
Record chunk := Chunk {
  c_id : Z;
  c_chunk_text : pyval;
  c_doc_id : pyval;
  c_chunk_index : Z;
  c_source : pyval;
  c_created_at : pyval;
  c_embedding : list spec_float;
}.

(** A stored chunk as the dictionary [table.query(...).to_list()] hands
    back. *)
Definition row_of_chunk (c : chunk) : row :=
  {[ "id" := PInt (c_id c);
     "chunk_text" := c_chunk_text c;
     "doc_id" := c_doc_id c;
     "chunk_index" := PInt (c_chunk_index c);
     "source" := c_source c;
     "created_at" := c_created_at c;
     "embedding" := PList (PFloat <$> c_embedding c) ]}.

(** Calls that reach a store, in the order they are issued. *)
Inductive call :=
| MilvusQuery (collection filter : string) (output_fields : list string)
              (limit : Z) (offset : nat)
| TidbQuery (filters : string)
| TidbBulkInsert (batch : list chunk).

(** What a run can observe and change: the rows of the destination table and
    the calls issued so far. The source collection is a fixed snapshot and
    lives in the client below. *)
Record world := World {
  tidb_rows : list chunk;
  trace : list call;
}.

Definition log (c : call) (w : world) : world :=
  World (tidb_rows w) (trace w ++ [c]).

(** Computations of the script: they read and write the [world] and either
    return or raise; the world reached when an exception leaves is kept. *)
Definition M (A : Type) : Type := world → outcome A * world.

#[export] Instance M_ret : MRet M := λ A a w, (Ret a, w).
#[export] Instance M_bind : MBind M := λ A B f m w,
  match m w with
  | (Ret a, w') => f a w'
  | (Raise e, w') => (Raise e, w')
  end.

(** A pure expression (which may raise) as a computation. *)
Definition lift {A} (o : outcome A) : M A := λ w, (o, w).

(** ** Reading a string up to a separator

    Both stores take their filter as text. [split_on c s] cuts [s] at every
    occurrence of [c]; [strip_prefix p s] removes a leading [p]. *)
Fixpoint split_on (c : ascii) (s : string) : list string :=
  match s with
  | EmptyString => [""]
  | String a s' =>
      if Ascii.eqb a c then "" :: split_on c s'
      else match split_on c s' with
           | t :: ts => String a t :: ts
           | [] => [String a ""]
           end
  end.

Fixpoint strip_prefix (p s : string) : option string :=
  match p, s with
  | EmptyString, _ => Some s
  | String a p', String b s' => if Ascii.eqb a b then strip_prefix p' s' else None
  | String _ _, EmptyString => None
  end.

(** [occurs c s]: the character [c] appears in [s]. *)
Fixpoint occurs (c : ascii) (s : string) : bool :=
  match s with
  | EmptyString => false
  | String a s' => Ascii.eqb a c || occurs c s'
  end.

(** The characters of a decimal literal. *)
Definition numeral_char (c : ascii) : bool :=
  existsb (Ascii.eqb c) ["-"; "0"; "1"; "2"; "3"; "4"; "5"; "6"; "7"; "8"; "9"]%char.

(** A signed decimal literal. *)
Definition int_literal (s : string) : option Z :=
  Z.of_int <$> NilZero.int_of_string s.

(** ** Milvus *)

(** Modelled from the spec: the filter syntax of the source store, which is
    outside the repository, "conjunction of [id >= N] and optionally
    [id < M], rendered as a store-specific boolean expression string".
    [range_expr] is the abstract syntax of such a filter,
    [parse_range_expr] reads one from its text and [admits] is the
    comparison it denotes on a row's primary key. *)
Record range_expr := RangeExpr { lower : Z; upper : option Z }.

Definition parse_range_expr (filter : string) : option range_expr :=
  rest ← strip_prefix "id >= " filter;
  match split_on " " rest with
  | [n] => lo ← int_literal n; Some (RangeExpr lo None)
  | [n; "&&"; "id"; "<"; m] =>
      lo ← int_literal n; hi ← int_literal m; Some (RangeExpr lo (Some hi))
  | _ => None
  end.

Definition admits (e : range_expr) (id : Z) : bool :=
  (lower e <=? id)%Z && match upper e with Some hi => (id <? hi)%Z | None => true end.

(** Does the filter text select a row whose primary key is [id]? [None] when
    the text is not an expression of the fragment. *)
Definition filter_admits (filter : string) (id : Z) : option bool :=
  e ← parse_range_expr filter; Some (admits e id).

(** The client handle: [query(collection_name, filter, output_fields, limit,
    offset)] over a fixed snapshot of the source. Nothing is assumed about
    its answers. *)
Record MilvusClient := {
  milvus_query :
    string → string → list string → Z → nat → outcome (list row);
}.

(** ** TiDB *)

(** Modelled from the spec: the filter of the existence probe on the
    destination store, which is outside the repository,
    "[id IN (comma-separated literal ids)]". *)
Definition parse_in_list (filters : string) : option (list Z) :=
  rest ← strip_prefix "id IN (" filters;
  match split_on ")" rest with
  | [body; ""] => mapM int_literal (split_on "," body)
  | _ => None
  end.

(** The table handle. How the destination takes a batch (which batches it
    rejects, in particular) is the store's business: [bulk_insert_sem batch
    rows] is the table content after the call, or the exception it raises. *)
Record TidbTable := {
  bulk_insert_sem : list chunk → list chunk → outcome (list chunk);
}.

(** Modelled from the spec: [table.query(filters=...).to_list()], the rows
    of the table whose id is one of the listed ids, as dictionaries. *)
Definition table_query (table : TidbTable) (filters : string) : M (list row) :=
  λ w,
    let w' := log (TidbQuery filters) w in
    match parse_in_list filters with
    | Some ids =>
        (Ret (row_of_chunk <$> filter (λ c, c_id c ∈ ids) (tidb_rows w)), w')
    | None => (Raise (StoreError "syntax error in filter"), w')
    end.

(** [table.bulk_insert(batch)]: one call, which stores what the handle
    says or raises and stores nothing. *)
Definition table_bulk_insert (table : TidbTable) (batch : list chunk) : M unit :=
  λ w,
    let w' := log (TidbBulkInsert batch) w in
    match bulk_insert_sem table batch (tidb_rows w) with
    | Ret rows' => (Ret (), World rows' (trace w'))
    | Raise e => (Raise e, w')
    end.

(** The primary keys present in the table. *)
Definition stored_ids (rows : list chunk) : list Z := c_id <$> rows.

End Store.
Export Store.

(* ===================================================================== *)
(** * The script                                                          *)
(* ===================================================================== *)

Local Close Scope Z_scope.

Module Engine.
Section Script.
Context `{StrParsers}.

(** [_milvus_filter(start, end)] *)
Definition _milvus_filter (start : Z) (end_ : option Z) : string :=
  match end_ with
  | None => "id >= " +:+ str_of_Z start
  | Some e => "id >= " +:+ str_of_Z start +:+ " && id < " +:+ str_of_Z e
  end.

(** [_coerce_embedding(vec)]: [None], then [isinstance(vec, list)], then
    any other value through [list(vec)]. *)
Definition _coerce_embedding (vec : pyval) : outcome (list spec_float) :=
  match vec with
  | PNone => Ret []
  | PList l => comprehension py_float l
  | _ => l ← py_list vec; comprehension py_float l
  end.

Definition output_fields : list string :=
  ["id"; "chunk_text"; "doc_id"; "chunk_index"; "source"; "created_at";
   "embedding"].

(** [_fetch_milvus_page(client, collection, start, end, limit, offset)] *)
Definition _fetch_milvus_page (client : MilvusClient) (collection : string)
    (start : Z) (end_ : option Z) (limit : Z) (offset : nat) : M (list row) :=
  λ w,
    let filter := _milvus_filter start end_ in
    (milvus_query client collection filter output_fields limit offset,
     log (MilvusQuery collection filter output_fields limit offset) w).

(** [int(r["id"]) for r in rows if "id" in r and r["id"] is not None], the
    comprehension shared by the prober and the driver. *)
Definition ids_of_rows (rows : list row) : outcome (list Z) :=
  comprehension (λ r, v ← dict_item r "id"; py_int v)
                (filter (λ r, has_value r "id") rows).

(** [_existing_ids_in_tidb(table, ids)] *)
Definition _existing_ids_in_tidb (table : TidbTable) (ids : list Z) : M (gset Z) :=
  match ids with
  | [] => mret ∅
  | _ =>
      let ids_sql := join "," (str_of_Z <$> ids) in
      rows ← table_query table ("id IN (" +:+ ids_sql +:+ ")");
      lift (list_to_set <$> ids_of_rows rows)
  end.

(** The dictionary literal appended to [to_insert] (lines 168-178). *)
Definition staged_record (r : row) (rid_int : Z) : outcome chunk :=
  chunk_index ← py_int (py_or (dict_get r "chunk_index" (PInt 0)) (PInt 0));
  embedding ← _coerce_embedding (dict_get r "embedding" PNone);
  Ret {| c_id := rid_int;
         c_chunk_text := dict_get r "chunk_text" (PStr "");
         c_doc_id := dict_get r "doc_id" (PStr "");
         c_chunk_index := chunk_index;
         c_source := dict_get r "source" (PStr "");
         c_created_at := dict_get r "created_at" (PStr "");
         c_embedding := embedding |}.

(** The [for r in page] loop (lines 159-178), threading [to_insert] and
    [skipped]. *)
Fixpoint stage (existing : gset Z) (page : list row)
    (to_insert : list chunk) (skipped : nat) : outcome (list chunk * nat) :=
  match page with
  | [] => Ret (to_insert, skipped)
  | r :: page' =>
      let rid := dict_get r "id" PNone in
      if is_None rid then stage existing page' to_insert skipped
      else
        rid_int ← py_int rid;
        if decide (rid_int ∈ existing)
        then stage existing page' to_insert (S skipped)
        else
          c ← staged_record r rid_int;
          stage existing page' (to_insert ++ [c]) skipped
  end.

(** How one pass through the body of [while True] ends. *)
Inductive loop_ctl :=
| Break
| Continue (offset scanned skipped inserted : nat).

Section Driver.
(** The handles of lines 111-130 ([milvus], and [table] once the schema
    is resolved and the table opened or created) and the arguments of
    [migrate_range] that the loop reads. *)
Variables (milvus : MilvusClient) (table : TidbTable).
Variables (milvus_collection : string) (start : Z) (end_ : option Z).
Variables (page_size : Z) (dry_run : bool).

(** The body of the [while True] loop (lines 140-188). *)
Definition page_step (offset scanned skipped inserted : nat) : M loop_ctl :=
  page ← _fetch_milvus_page milvus milvus_collection start end_ page_size offset;
  match page with
  | [] => mret Break
  | _ =>
      let offset := offset + length page in
      let scanned := scanned + length page in
      page_ids ← lift (ids_of_rows page);
      existing ← _existing_ids_in_tidb table page_ids;
      '(to_insert, skipped) ← lift (stage existing page [] skipped);
      match to_insert with
      | [] => mret (Continue offset scanned skipped inserted)
      | _ =>
          if dry_run
          then mret (Continue offset scanned skipped (inserted + length to_insert))
          else
            _ ← table_bulk_insert table to_insert;
            mret (Continue offset scanned skipped (inserted + length to_insert))
      end
  end.

(** [while True], unrolled at most [fuel] times. [None]: the loop is
    still running after [fuel] pages. *)
Fixpoint migrate_loop (fuel : nat) (offset scanned skipped inserted : nat)
    (w : world) : option (outcome (nat * nat * nat) * world) :=
  match fuel with
  | O => None
  | S fuel' =>
      match page_step offset scanned skipped inserted w with
      | (Ret Break, w') => Some (Ret (scanned, skipped, inserted), w')
      | (Ret (Continue offset' scanned' skipped' inserted'), w') =>
          migrate_loop fuel' offset' scanned' skipped' inserted' w'
      | (Raise e, w') => Some (Raise e, w')
      end
  end.

(** [migrate_range], from line 132 on. *)
Definition migrate_range (fuel : nat) (w : world)
    : option (outcome (nat * nat * nat) * world) :=
  migrate_loop fuel 0 0 0 0 w.
End Driver.

(** [main]: the range check, then the driver, then the summary line that
    [click.echo] prints. *)
Definition main (milvus : MilvusClient) (table : TidbTable)
    (milvus_collection tidb_table : string) (start : Z) (end_ : option Z)
    (page_size : Z) (dry_run : bool) (fuel : nat) (w : world)
    : option (outcome string * world) :=
  if match end_ with Some e => (e <? start)%Z | None => false end
  then Some (Raise (ClickException "--end must be >= --start"), w)
  else
    match migrate_range milvus table milvus_collection start end_ page_size
                        dry_run fuel w with
    | None => None
    | Some (Raise e, w') => Some (Raise e, w')
    | Some (Ret (scanned, skipped, inserted), w') =>
        Some (Ret ("Done. scanned=" +:+ str_of_Z (Z.of_nat scanned)
                   +:+ " skipped_existing=" +:+ str_of_Z (Z.of_nat skipped)
                   +:+ " inserted=" +:+ str_of_Z (Z.of_nat inserted)
                   +:+ " (milvus_collection=" +:+ milvus_collection
                   +:+ ", tidb_table=" +:+ tidb_table
                   +:+ ", range=[" +:+ str_of_Z start +:+ ","
                   +:+ match end_ with Some e => str_of_Z e | None => "end" end
                   +:+ "))"), w')
    end.
End Script.
End Engine.
Export Engine.

(* ===================================================================== *)
(** * Vocabulary of the properties                                        *)
(* ===================================================================== *)

(** A row carries a usable id when the key is there and is not [None]. *)
Definition usable (r : row) : bool := has_value r "id".

(** What the probe answers for [ids] on a table holding [rows]. *)
Definition probe_set (rows : list chunk) (ids : list Z) : gset Z :=
  list_to_set (c_id <$> filter (λ c, c_id c ∈ ids) rows).

(** The calls the probe issues for [ids]. *)
Definition probe_calls (ids : list Z) : list call :=
  match ids with
  | [] => []
  | _ => [TidbQuery ("id IN (" +:+ join "," (str_of_Z <$> ids) +:+ ")")]
  end.

(** A call that does not write to the destination. *)
Definition read_only (c : call) : Prop :=
  match c with TidbBulkInsert _ => False | _ => True end.


(** ** The destination as a ledger *)

(** The destination keeps what it has and what it is given... *)
Definition durable (table : TidbTable) : Prop :=
  ∀ batch rows rows', bulk_insert_sem table batch rows = Ret rows' →
    ∀ z, z ∈ stored_ids rows ∨ z ∈ stored_ids batch → z ∈ stored_ids rows'.

(** ... and gains no id but those it is given. *)
Definition adds_only (table : TidbTable) : Prop :=
  ∀ batch rows rows', bulk_insert_sem table batch rows = Ret rows' →
    ∀ z, z ∈ stored_ids rows' → z ∈ stored_ids rows ∨ z ∈ stored_ids batch.

(** [v] is a list or another iterable, with elements [l]. *)
Definition list_like (v : pyval) (l : list pyval) : Prop :=
  v = PList l ∨ v = PTuple l.

(** How many of [l] are [z]. *)
Definition occurrences (z : Z) (l : list Z) : nat :=
  length (filter (λ x, x = z) l).

(** ** The scan of the source

    A run reads the source through the fetches alone, so what it fetches is
    a function of the client and of the arguments of [migrate_range]. *)
Module Scan.
Section Scan.
Variables (milvus : MilvusClient).
Variables (milvus_collection : string) (start : Z) (end_ : option Z).
Variable page_size : Z.

(** The answer of the source to the fetch at [offset], and the call that
    asks for it. *)
Definition fetch (offset : nat) : outcome (list row) :=
  milvus_query milvus milvus_collection (_milvus_filter start end_)
               output_fields page_size offset.

Definition fetch_call (offset : nat) : call :=
  MilvusQuery milvus_collection (_milvus_filter start end_) output_fields
              page_size offset.

(** The rows a run fetches from [offset] on, page after page, within
    [fuel] fetches. *)
Fixpoint fetched_rows (fuel offset : nat) : list row :=
  match fuel with
  | O => []
  | S fuel' =>
      match fetch offset with
      | Ret (r :: page) =>
          (r :: page) ++ fetched_rows fuel' (offset + length (r :: page))
      | _ => []
      end
  end.

(** The scan from [offset] meets its empty page within [fuel] fetches. *)
Fixpoint scan_done (fuel offset : nat) : bool :=
  match fuel with
  | O => false
  | S fuel' =>
      match fetch offset with
      | Ret [] => true
      | Ret page => scan_done fuel' (offset + length page)
      | Raise _ => false
      end
  end.
End Scan.
End Scan.

(* ===================================================================== *)
(** * Concrete stores and runtimes, to run the script on                  *)
(* ===================================================================== *)

Module Instances.

(** A runtime whose [int(str)] and [float(str)] read plain signed decimal
    integers and reject everything else. *)
Definition decimal_parsers : StrParsers := {|
  int_of_str s :=
    match int_literal s with Some z => Ret z | None => Raise ValueError end;
  float_of_str s :=
    match int_literal s with Some z => float_of_Z z | None => Raise ValueError end;
|}.

(** The primary key of a source row, when it is an integer. *)
Definition row_key (r : row) : option Z :=
  match r !! "id" with Some (PInt z) => Some z | _ => None end.

(** The rows of a collection that a range expression admits. *)
Definition admitted_rows (e : range_expr) (rows : list row) : list row :=
  filter (λ r, from_option (admits e) false (row_key r)) rows.

(** A source collection holding [rows] in its own order, after the page
    fetcher contract of the specification: a query answers with the rows
    the filter admits, skipping [offset] of them and returning at most
    [limit]. *)
Definition snapshot_client (rows : list row) : MilvusClient := {|
  milvus_query _ expr _ limit offset :=
    match parse_range_expr expr with
    | None => Raise (StoreError "cannot parse expression")
    | Some e =>
        if (limit <? 0)%Z then Raise (StoreError "invalid limit")
        else Ret (take (Z.to_nat limit) (drop offset (admitted_rows e rows)))
    end
|}.

(** The rows of a snapshot that the range [[start, end)] admits. *)
Definition snapshot_in_range (rows : list row) (start : Z) (end_ : option Z)
    : list row :=
  admitted_rows (RangeExpr start end_) rows.

(** A client that answers with consecutive slices of [rows] whatever the
    filter says; it can hand back rows without a primary key. *)
Definition raw_client (rows : list row) : MilvusClient := {|
  milvus_query _ _ _ limit offset :=
    Ret (take (Z.to_nat limit) (drop offset rows))
|}.

(** A destination that takes every batch. *)
Definition append_table : TidbTable := {|
  bulk_insert_sem batch rows := Ret (rows ++ batch)
|}.

(** A destination that enforces the primary key: a batch that repeats an id,
    or brings one the table already has, is rejected as a whole. *)
Definition pk_table : TidbTable := {|
  bulk_insert_sem batch rows :=
    if decide (NoDup (stored_ids (rows ++ batch)))
    then Ret (rows ++ batch)
    else Raise (StoreError "Duplicate entry for key PRIMARY")
|}.

(** A source row with the given id and nothing else, and one without id. *)
Definition row_with_id (z : Z) : row := {[ "id" := PInt z ]}.
Definition row_without_id : row := {[ "chunk_text" := PStr "orphan" ]}.

(** The chunk staged from [row_with_id z]. *)
Definition bare_chunk (z : Z) : chunk :=
  Chunk z (PStr "") (PStr "") 0 (PStr "") (PStr "") [].

Definition empty_world : world := World [] [].

(** An embedding with an integer, a float and a boolean, and its
    conversion: 3.0, 0.0 and 1.0. *)
Definition mixed_embedding : list pyval :=
  [PInt 3; PFloat (S754_zero false); PBool true].
Definition mixed_embedding_floats : list spec_float :=
  [S754_finite false 6755399441055744 (-51); S754_zero false;
   S754_finite false 4503599627370496 (-52)].

End Instances.
Import Instances.

(** The source and destination of the scenarios of the specification. *)
Module Scenarios.
Definition ten : list row := row_with_id <$> [0; 1; 2; 3; 4; 5; 6; 7; 8; 9]%Z.
Definition half_migrated : world := World (bare_chunk <$> [0; 1; 2; 3; 4]%Z) [].

Definition run (start : Z) (end_ : option Z) (w : world) :=
  migrate_range (H := decimal_parsers) (snapshot_client ten) append_table
                "chunk" start end_ 4 false 10 w.

Definition is_fetch (c : call) : bool :=
  match c with MilvusQuery _ _ _ _ _ => true | _ => false end.
End Scenarios.

Module Runs.
(** A source that hands back one row without id. *)
Definition orphan_source : MilvusClient := raw_client [row_without_id].

(** A source with a row with an id and a row without. *)
Definition mixed_source : MilvusClient :=
  raw_client [row_with_id 1; row_without_id].

(** A source where id 1 comes twice. *)
Definition twin_source : MilvusClient :=
  raw_client [row_with_id 1; row_with_id 1].

Definition migrate (milvus : MilvusClient) (page_size : Z) (dry_run : bool)
    (w : world) :=
  migrate_range (H := decimal_parsers) milvus append_table "chunk" 0 None
                page_size dry_run 5 w.

(** The table and trace after a first writing run over [Scenarios.ten]. *)
Definition after_first_run : world :=
  Eval vm_compute in
    match Scenarios.run 0 None empty_world with
    | Some (_, w) => w
    | None => empty_world
    end.
End Runs.
Import Runs.

(* ===================================================================== *)
(** * More vocabulary: what a run asks of the stores                      *)
(* ===================================================================== *)

(** A destination that, when it accepts a batch, puts it after the rows it
    holds. *)
Definition appending (table : TidbTable) : Prop :=
  ∀ batch rows rows', bulk_insert_sem table batch rows = Ret rows' →
    rows' = rows ++ batch.

(** The calls a run with the given arguments may issue: a fetch on its own
    collection, range and page size; a probe about at least one id; a bulk
    insert of at least one record, outside dry-run mode. *)
Definition expected_call (milvus_collection : string) (start : Z)
    (end_ : option Z) (page_size : Z) (dry_run : bool) (c : call) : Prop :=
  match c with
  | MilvusQuery collection expr fields limit _ =>
      collection = milvus_collection ∧ expr = _milvus_filter start end_
      ∧ fields = output_fields ∧ limit = page_size
  | TidbQuery filters =>
      ∃ ids, ids ≠ []
             ∧ filters = "id IN (" +:+ join "," (str_of_Z <$> ids) +:+ ")"
  | TidbBulkInsert batch => batch ≠ [] ∧ dry_run = false
  end.

(** A row of which only the id is sure to be usable: [chunk_index] and
    [embedding] are missing, or there with a value that Python holds for
    false. *)
Definition plain_row (r : row) : Prop :=
  (∀ v, r !! "chunk_index" = Some v → truthy v = false)
  ∧ (r !! "embedding" = None ∨ r !! "embedding" = Some PNone).

(** A source row whose embedding holds something that is not a number, and
    a source that answers with it after a good row. *)
Definition bad_embedding_row : row :=
  {[ "id" := PInt 2; "embedding" := PList [PFloat (S754_zero false); PNone] ]}.
Definition bad_embedding_source : MilvusClient :=
  raw_client [row_with_id 1; bad_embedding_row].

(** The table and trace after a writing run over [Scenarios.ten] on the
    half-migrated destination. *)
Definition after_top_up : world :=
  Eval vm_compute in
    match Scenarios.run 0 None Scenarios.half_migrated with
    | Some (_, w) => w
    | None => empty_world
    end.

(** The same in dry-run mode. *)
Definition after_top_up_dry : world :=
  Eval vm_compute in
    match migrate_range (H := decimal_parsers) (snapshot_client Scenarios.ten)
            append_table "chunk" 0 None 4 true 10 Scenarios.half_migrated with
    | Some (_, w) => w
    | None => empty_world
    end.

(* ===================================================================== *)
(** * Start-up: environment, clients, schema (lines 12-130)               *)
(* ===================================================================== *)

Module Startup.

(** ** Failures and calls of the start-up code *)

(** What the start-up code can raise: the exceptions of [Py], and the
    [AttributeError] of a method looked up on a value that has none. *)
Inductive failure :=
| Builtin (e : exn)
| AttributeError (attr : string).

Inductive attempt (A : Type) :=
| Done (a : A)
| Failed (e : failure).
Arguments Done {A} a.
Arguments Failed {A} e.

#[export] Instance attempt_ret : MRet attempt := @Done.
#[export] Instance attempt_bind : MBind attempt := λ A B f m,
  match m with Done a => f a | Failed e => Failed e end.

Definition of_outcome {A} (o : outcome A) : attempt A :=
  match o with Ret a => Done a | Raise e => Failed (Builtin e) end.

(** ** Values of [describe_collection]

    A JSON-like value. A dictionary is kept as the list of its items, in
    order; a key is looked up from the front. *)
Inductive jval :=
| JNone
| JBool (b : bool)
| JInt (z : Z)
| JFloat (f : spec_float)
| JStr (s : string)
| JList (l : list jval)
| JDict (items : list (string * jval)).

Fixpoint assoc (k : string) (items : list (string * jval)) : option jval :=
  match items with
  | [] => None
  | (k', v) :: items' => if String.eqb k k' then Some v else assoc k items'
  end.

(** [v.get(k, dflt)]: only a dictionary has the method. *)
Definition jget (v : jval) (k : string) (dflt : jval) : attempt jval :=
  match v with
  | JDict items => Done (default dflt (assoc k items))
  | _ => Failed (AttributeError "get")
  end.

(** Truth value of [v]. *)
Definition jtruthy (v : jval) : bool :=
  match v with
  | JNone => false
  | JBool b => b
  | JInt z => negb (Z.eqb z 0)
  | JFloat (S754_zero _) => false
  | JFloat _ => true
  | JStr s => negb (String.eqb s "")
  | JList l => match l with [] => false | _ => true end
  | JDict items => match items with [] => false | _ => true end
  end.

(** [a or b] *)
Definition jor (a b : jval) : jval := if jtruthy a then a else b.

(** The elements a [for] loop draws from [v]. *)
Definition jiter (v : jval) : attempt (list jval) :=
  match v with
  | JList l => Done l
  | JDict items => Done (JStr ∘ fst <$> items)
  | JStr s => Done ((λ c, JStr (String c EmptyString)) <$> list_ascii_of_string s)
  | JNone | JBool _ | JInt _ | JFloat _ => Failed (Builtin TypeError)
  end.

(** [v == "name"] *)
Definition is_str (name : string) (v : jval) : bool :=
  match v with JStr s => String.eqb s name | _ => false end.

(** [next((f for f in fields if f.get("name") == name), None)]: the fields
    are looked at in order, up to the first that has the name. *)
Fixpoint first_named (name : string) (fields : list jval) : attempt jval :=
  match fields with
  | [] => Done JNone
  | f :: fields' =>
      n ← jget f "name" JNone;
      if is_str name n then Done f else first_named name fields'
  end.

(** The table model [_make_chunk_model(table_name, embedding_dim)] builds:
    the [Chunk] columns are fixed, the name of the table and the width of
    the indexed vector column are the arguments. *)
Record chunk_model := ChunkModel {
  tablename : string;
  dimensions : Z;
}.

Definition _make_chunk_model (table_name : string) (embedding_dim : Z)
    : chunk_model :=
  ChunkModel table_name embedding_dim.

(** ** Connections and services *)

Record milvus_conn := MilvusConn { mc_uri : string; mc_token : string }.

Record tidb_conn := TidbConn {
  tc_host : string;
  tc_port : Z;
  tc_username : string;
  tc_password : string;
  tc_database : string;
  tc_enable_ssl : bool;
  tc_ensure_db : bool;
}.

(** What a connected Milvus client answers before the loop, and the query
    endpoint the loop reads. *)
Record MilvusService := {
  has_collection : string → outcome bool;
  load_collection : string → outcome unit;
  describe_collection : string → outcome jval;
  query_client : MilvusClient;
}.

(** What a connected TiDB client answers about tables. *)
Record TidbService := {
  has_table : string → outcome bool;
  open_table : string → outcome (option TidbTable);
  create_table : chunk_model → outcome TidbTable;
}.

(** What is behind an address: [MilvusClient(uri=..., token=...)] and
    [TiDBClient.connect(...)]. *)
Record Deployment := {
  milvus_at : milvus_conn → outcome MilvusService;
  tidb_at : tidb_conn → outcome TidbService;
}.

(** Calls of the start-up code that leave the process. *)
Inductive api_call :=
| MilvusConnect (conn : milvus_conn)
| TidbConnect (conn : tidb_conn)
| HasCollection (name : string)
| LoadCollection (name : string)
| DescribeCollection (name : string)
| HasTable (name : string)
| OpenTable (name : string)
| CreateTable (model : chunk_model).

(** Start-up computations: they add to the list of calls issued and either
    return or fail. *)
Definition T (A : Type) : Type := list api_call → attempt A * list api_call.

#[export] Instance T_ret : MRet T := λ A a tr, (Done a, tr).
#[export] Instance T_bind : MBind T := λ A B f m tr,
  match m tr with
  | (Done a, tr') => f a tr'
  | (Failed e, tr') => (Failed e, tr')
  end.

(** A call and its answer. *)
Definition call {A} (c : api_call) (answer : outcome A) : T A :=
  λ tr, (of_outcome answer, tr ++ [c]).

(** A computation that calls nobody. *)
Definition quiet {A} (a : attempt A) : T A := λ tr, (a, tr).

(** ** The environment *)

(** [_load_env()]: [load_dotenv] adds the variables of the [.env] file
    beside the script to the environment of the process, which keeps the
    ones it has. *)
Definition _load_env (environ dotenv : gmap string string) : gmap string string :=
  environ ∪ dotenv.

(** [not v], for what [os.getenv] returns. *)
Definition blank (v : option string) : bool :=
  match v with
  | None => true
  | Some s => String.eqb s ""
  end.

Section Script.
Context `{StrParsers}.
Variable dep : Deployment.
Variables environ dotenv : gmap string string.

(** [_milvus_client()] *)
Definition _milvus_client : T MilvusService :=
  let env := _load_env environ dotenv in
  let host := env !! "MILVUS_HOST" in
  let grpc_port := env !! "MILVUS_GRPC_PORT" in
  if blank host || blank grpc_port
  then quiet (Failed (Builtin (ClickException
                "Missing MILVUS_HOST / MILVUS_GRPC_PORT in env or .env")))
  else
    let conn := MilvusConn ("http://" +:+ default "" host +:+ ":"
                            +:+ default "" grpc_port) "root:Milvus" in
    call (MilvusConnect conn) (milvus_at dep conn).

(** [_tidb_client(enable_ssl)] *)
Definition _tidb_client (enable_ssl : bool) : T TidbService :=
  let env := _load_env environ dotenv in
  let host := env !! "DB_HOST" in
  let port := env !! "DB_PORT" in
  let username := env !! "DB_USERNAME" in
  let password := default "" (env !! "DB_PASSWORD") in
  let database := env !! "DB_DATABASE" in
  if blank host || blank port || blank username || blank database
  then quiet (Failed (Builtin (ClickException
                "Missing one of DB_HOST / DB_PORT / DB_USERNAME / DB_DATABASE in env or .env")))
  else
    port_int ← quiet (of_outcome (int_of_str (default "" port)));
    let conn := {| tc_host := default "" host;
                   tc_port := port_int;
                   tc_username := default "" username;
                   tc_password := password;
                   tc_database := default "" database;
                   tc_enable_ssl := enable_ssl;
                   tc_ensure_db := true |} in
    call (TidbConnect conn) (tidb_at dep conn).

(** [int(v)] on a value of the description. *)
Definition jint (v : jval) : attempt Z :=
  match v with
  | JInt z => Done z
  | JBool b => Done (if b then 1 else 0)%Z
  | JFloat f => of_outcome (Z_of_float f)
  | JStr s => of_outcome (int_of_str s)
  | JNone | JList _ | JDict _ => Failed (Builtin TypeError)
  end.

(** Lines 120-121: the declared width of the [embedding] field of the
    source collection, 1536 when the description gives none. *)
Definition embedding_dim (desc : jval) : attempt Z :=
  fields ← jget desc "fields" JNone;
  fields ← jiter (jor fields (JList []));
  embedding_field ← first_named "embedding" fields;
  params ← jget (jor embedding_field (JDict [])) "params" (JDict []);
  dim ← jget params "dim" (JInt 1536);
  jint dim.

(** Lines 111-130 of [migrate_range]: the two clients, the check of the
    source collection, the table model and the destination table. *)
Definition resolve (milvus_collection tidb_table : string) (enable_ssl : bool)
    : T (MilvusClient * TidbTable) :=
  milvus ← _milvus_client;
  tidb ← _tidb_client enable_ssl;
  found ← call (HasCollection milvus_collection)
               (has_collection milvus milvus_collection);
  if negb found
  then quiet (Failed (Builtin (ClickException
                ("Milvus collection not found: " +:+ milvus_collection))))
  else
    _ ← call (LoadCollection milvus_collection)
             (load_collection milvus milvus_collection);
    desc ← call (DescribeCollection milvus_collection)
                (describe_collection milvus milvus_collection);
    dim ← quiet (embedding_dim desc);
    let model := _make_chunk_model tidb_table dim in
    there ← call (HasTable tidb_table) (has_table tidb tidb_table);
    table ← (if negb there
             then call (CreateTable model) (create_table tidb model)
             else
               opened ← call (OpenTable tidb_table) (open_table tidb tidb_table);
               match opened with
               | Some table => mret table
               | None => call (CreateTable model) (create_table tidb model)
               end);
    mret (query_client milvus, table).

(** [migrate_range] from its first line: the start-up, then the loop of
    [Engine.migrate_range] on the handles it returns. The [world] is the
    content of the table behind the handle and the calls of the loop. *)
Definition migrate_range (milvus_collection tidb_table : string) (start : Z)
    (end_ : option Z) (page_size : Z) (enable_ssl dry_run : bool) (fuel : nat)
    (calls : list api_call) (w : world)
    : option (attempt (nat * nat * nat) * list api_call * world) :=
  match resolve milvus_collection tidb_table enable_ssl calls with
  | (Failed e, calls') => Some (Failed e, calls', w)
  | (Done (milvus, table), calls') =>
      match Engine.migrate_range milvus table milvus_collection start end_
                                 page_size dry_run fuel w with
      | None => None
      | Some (res, w') => Some (of_outcome res, calls', w')
      end
  end.

End Script.

(** The value a variable has once the [.env] file is loaded. *)
Definition env_value (environ dotenv : gmap string string) (k : string)
    : option string :=
  match environ !! k with
  | Some v => Some v
  | None => dotenv !! k
  end.

(** A field description that is a dictionary and is not named [name]. *)
Definition other_field (name : string) (f : jval) : Prop :=
  ∃ items, f = JDict items ∧ assoc "name" items ≠ Some (JStr name).

(** ** A deployment to run the start-up on *)

(** The description of a collection with an [id] field and an [embedding]
    field of width 8. *)
Definition id_field : jval :=
  JDict [("name", JStr "id"); ("is_primary", JBool true)].
Definition embedding_params : list (string * jval) := [("dim", JInt 8)].
Definition embedding_field : list (string * jval) :=
  [("name", JStr "embedding"); ("params", JDict embedding_params)].
Definition sample_items : list (string * jval) :=
  [("collection_name", JStr "chunk");
   ("fields", JList ([id_field] ++ JDict embedding_field :: [JStr "not a field"]))].
Definition sample_description : jval := JDict sample_items.

(** A Milvus that knows the collection [chunk] only, holding [rows]. *)
Definition sample_milvus (rows : list row) : MilvusService := {|
  has_collection name := Ret (String.eqb name "chunk");
  load_collection _ := Ret ();
  describe_collection _ := Ret sample_description;
  query_client := snapshot_client rows;
|}.

(** A TiDB where the tables named in [tables] exist and open. *)
Definition sample_tidb (tables : list string) : TidbService := {|
  has_table name := Ret (bool_decide (name ∈ tables));
  open_table name :=
    Ret (if bool_decide (name ∈ tables) then Some append_table else None);
  create_table _ := Ret append_table;
|}.

Definition sample_deployment (rows : list row) (tables : list string)
    : Deployment := {|
  milvus_at _ := Ret (sample_milvus rows);
  tidb_at _ := Ret (sample_tidb tables);
|}.

(** A complete environment. *)
Definition full_environ : gmap string string :=
  {[ "MILVUS_HOST" := "milvus.local"; "MILVUS_GRPC_PORT" := "19530";
     "DB_HOST" := "tidb.local"; "DB_PORT" := "4000";
     "DB_USERNAME" := "root"; "DB_PASSWORD" := "secret";
     "DB_DATABASE" := "test" ]}.

(** The same without password, and with the Milvus port left to the
    [.env] file. *)
Definition bare_environ : gmap string string :=
  {[ "MILVUS_HOST" := "milvus.local";
     "DB_HOST" := "tidb.local"; "DB_PORT" := "4000";
     "DB_USERNAME" := "root"; "DB_DATABASE" := "test" ]}.
Definition port_dotenv : gmap string string :=
  {[ "MILVUS_GRPC_PORT" := "19530"; "MILVUS_HOST" := "ignored.local" ]}.

(** An environment with the Milvus variables only. *)
Definition milvus_only_environ : gmap string string :=
  {[ "MILVUS_HOST" := "milvus.local"; "MILVUS_GRPC_PORT" := "19530" ]}.

Definition sample_milvus_conn : milvus_conn :=
  MilvusConn "http://milvus.local:19530" "root:Milvus".
Definition sample_tidb_conn : tidb_conn :=
  TidbConn "tidb.local" 4000 "root" "" "test" true true.

End Startup.

(* ===================================================================== *)
(** * [insert_milvus.py]: mock chunks for the source collection           *)
(* ===================================================================== *)

Module Mock.
Import Startup.

Definition embedding_dimensions : Z := 1536.
Definition milvus_collection_name : string := "chunk".

(** The schema the script declares for the collection (lines 56-66) and the
    index it asks for (lines 68-72). *)
Inductive datatype :=
| INT64
| VARCHAR (max_length : Z)
| FLOAT_VECTOR (dim : Z).

Record field_schema := FieldSchema {
  field_name : string;
  field_type : datatype;
  is_primary : bool;
}.

Record collection_schema := {
  auto_id : bool;
  enable_dynamic_field : bool;
  fields : list field_schema;
}.

Definition schema : collection_schema := {|
  auto_id := false;
  enable_dynamic_field := true;
  fields :=
    [FieldSchema "id" INT64 true;
     FieldSchema "chunk_text" (VARCHAR 65535) false;
     FieldSchema "embedding" (FLOAT_VECTOR embedding_dimensions) false;
     FieldSchema "doc_id" (VARCHAR 512) false;
     FieldSchema "chunk_index" INT64 false;
     FieldSchema "source" (VARCHAR 2048) false;
     FieldSchema "created_at" (VARCHAR 64) false];
|}.

Definition index_params : list (string * string) := [("embedding", "AUTOINDEX")].

(** The client of the module (lines 17-20) is built from the environment
    as it is: a variable that is not set is written [None]. *)
Definition client_conn (env : gmap string string) : milvus_conn :=
  MilvusConn ("http://" +:+ default "None" (env !! "MILVUS_HOST") +:+ ":"
              +:+ default "None" (env !! "MILVUS_GRPC_PORT")) "root:Milvus".

(** What the client answers to the calls of the script. *)
Record MilvusAdmin := {
  adm_has_collection : string → outcome bool;
  adm_drop_collection : string → outcome unit;
  adm_create_collection :
    string → collection_schema → list (string * string) → outcome unit;
  adm_insert : string → list row → outcome jval;
}.

Inductive admin_call :=
| AdmHasCollection (name : string)
| AdmDropCollection (name : string)
| AdmCreateCollection (name : string) (schema : collection_schema)
                      (index_params : list (string * string))
| AdmInsert (name : string) (data : list row).

(** Computations of the script over the calls issued. *)
Definition A (X : Type) : Type := list admin_call → attempt X * list admin_call.

#[export] Instance A_ret : MRet A := λ X x tr, (Done x, tr).
#[export] Instance A_bind : MBind A := λ X Y f m tr,
  match m tr with
  | (Done x, tr') => f x tr'
  | (Failed e, tr') => (Failed e, tr')
  end.

Definition ask {X} (c : admin_call) (answer : outcome X) : A X :=
  λ tr, (of_outcome answer, tr ++ [c]).

Definition still {X} (x : attempt X) : A X := λ tr, (x, tr).

(** [f"{n:04d}"] for a number that is not negative: its decimal digits,
    with zeros in front up to four characters. *)
Fixpoint zeros (n : nat) : string :=
  match n with
  | O => ""
  | S n' => String "0" (zeros n')
  end.

Definition format_04d (n : nat) : string :=
  let digits := str_of_Z (Z.of_nat n) in
  zeros (4 - String.length digits) +:+ digits.

Section Script.
Context `{StrParsers}.

(** The clock, the hash and the generator of [fake_embedding] are the
    libraries': [now_iso] is [datetime.now(timezone.utc).isoformat()],
    [seed_of text] the integer read from the first sixteen hexadecimal
    digits of the SHA-256 of [text], [uniform seed k] the [k]-th number
    that [random.Random(seed).uniform(-1.0, 1.0)] draws. *)
Variable now_iso : string.
Variable seed_of : string → Z.
Variable uniform : Z → nat → spec_float.
Variable adm : MilvusAdmin.

(** [fake_embedding(text, dim)] *)
Definition fake_embedding (text : string) (dim : Z) : list pyval :=
  (λ k, PFloat (uniform (seed_of text) k)) <$> seq 0 (Z.to_nat dim).

(** The dictionary that [iter_mock_chunks] yields for one chunk. *)
Definition mock_chunk (next_id : Z) (doc_i chunk_i : nat) : row :=
  let doc_id := "doc_" +:+ format_04d doc_i in
  let source := "mock://" +:+ doc_id in
  let chunk_text :=
    "[" +:+ doc_id +:+ "] chunk=" +:+ str_of_Z (Z.of_nat chunk_i) +:+ " "
    +:+ "This is a demo text to insert into Milvus."
    +:+ "source=" +:+ source +:+ " created_at=" +:+ now_iso in
  {[ "id" := PInt next_id;
     "chunk_text" := PStr chunk_text;
     "embedding" := PList (fake_embedding chunk_text embedding_dimensions);
     "doc_id" := PStr doc_id;
     "chunk_index" := PInt (Z.of_nat chunk_i);
     "source" := PStr source;
     "created_at" := PStr now_iso ]}.

(** The inner loop of [iter_mock_chunks], over the chunks of one document:
    the rows it yields and the next free id. *)
Fixpoint doc_chunks (doc_i : nat) (chunk_is : list nat) (next_id : Z)
    : list row * Z :=
  match chunk_is with
  | [] => ([], next_id)
  | chunk_i :: chunk_is' =>
      let '(rows, next_id') := doc_chunks doc_i chunk_is' (next_id + 1)%Z in
      (mock_chunk next_id doc_i chunk_i :: rows, next_id')
  end.

(** The outer loop, over the documents. *)
Fixpoint docs_chunks (doc_is : list nat) (chunks_per_doc : Z) (next_id : Z)
    : list row :=
  match doc_is with
  | [] => []
  | doc_i :: doc_is' =>
      let '(rows, next_id') :=
        doc_chunks doc_i (seq 0 (Z.to_nat chunks_per_doc)) next_id in
      rows ++ docs_chunks doc_is' chunks_per_doc next_id'
  end.

(** [iter_mock_chunks(start_id, num_docs, chunks_per_doc)], as the list of
    what it yields. *)
Definition iter_mock_chunks (start_id num_docs chunks_per_doc : Z) : list row :=
  docs_chunks (seq 0 (Z.to_nat num_docs)) chunks_per_doc start_id.

(** [ensure_collection(collection_name, recreate)] *)
Definition ensure_collection (collection_name : string) (recreate : bool)
    : A unit :=
  there ← ask (AdmHasCollection collection_name)
              (adm_has_collection adm collection_name);
  let create :=
    ask (AdmCreateCollection collection_name schema index_params)
        (adm_create_collection adm collection_name schema index_params) in
  if there : bool
  then
    if recreate
    then _ ← ask (AdmDropCollection collection_name)
                 (adm_drop_collection adm collection_name);
         create
    else mret ()
  else create.

(** [int(result.get("insert_count", len(batch))) if isinstance(result, dict)
    else len(batch)] *)
Definition insert_count (result : jval) (batch : list row) : attempt Z :=
  match result with
  | JDict items =>
      jint (default (JInt (Z.of_nat (length batch))) (assoc "insert_count" items))
  | _ => Done (Z.of_nat (length batch))
  end.

(** One call of [milvus_client.insert] and the count it adds. *)
Definition insert_batch (collection_name : string) (batch : list row) : A Z :=
  result ← ask (AdmInsert collection_name batch)
               (adm_insert adm collection_name batch);
  still (insert_count result batch).

(** The [for row in ...] loop of [insert_mock_chunks] (lines 101-115),
    threading [batch] and [inserted_total]. *)
Fixpoint send_rows (collection_name : string) (batch_size : Z)
    (rows batch : list row) (inserted_total : Z) : A (list row * Z) :=
  match rows with
  | [] => mret (batch, inserted_total)
  | row :: rows' =>
      let batch := batch ++ [row] in
      if (Z.of_nat (length batch) <? batch_size)%Z
      then send_rows collection_name batch_size rows' batch inserted_total
      else
        n ← insert_batch collection_name batch;
        send_rows collection_name batch_size rows' [] (inserted_total + n)%Z
  end.

(** [insert_mock_chunks(collection_name, start_id, num_docs, chunks_per_doc,
    batch_size, recreate)] *)
Definition insert_mock_chunks (collection_name : string)
    (start_id num_docs chunks_per_doc batch_size : Z) (recreate : bool) : A Z :=
  _ ← ensure_collection collection_name recreate;
  '(batch, inserted_total) ←
    send_rows collection_name batch_size
              (iter_mock_chunks start_id num_docs chunks_per_doc) [] 0%Z;
  match batch with
  | [] => mret inserted_total
  | _ =>
      n ← insert_batch collection_name batch;
      mret (inserted_total + n)%Z
  end.

(** The server confirms what it is sent: an answer to [insert] that is a
    dictionary without [insert_count], or with the number of rows of the
    batch, or no dictionary at all. *)
Definition confirms_in_full (collection_name : string) : Prop :=
  ∀ data result, adm_insert adm collection_name data = Ret result →
    insert_count result data = Done (Z.of_nat (length data)).

(** [main]: the insertion and the line that [click.echo] prints. *)
Definition main (collection : string)
    (start_id docs chunks_per_doc batch_size : Z) (recreate : bool) : A string :=
  inserted ← insert_mock_chunks collection start_id docs chunks_per_doc
                                batch_size recreate;
  mret ("Inserted " +:+ str_of_Z inserted +:+ " mock chunks into collection '"
        +:+ collection +:+ "'.").
End Script.

(** The batches handed to [insert], in the order of the calls. *)
Definition inserted_batches (calls : list admin_call) : list (list row) :=
  omap (λ c, match c with AdmInsert _ data => Some data | _ => None end) calls.

(** A call that changes no collection as a whole. *)
Definition keeps_collections (c : admin_call) : Prop :=
  match c with
  | AdmDropCollection _ | AdmCreateCollection _ _ _ => False
  | _ => True
  end.

(** The size the loop gives a batch: [batch_size], and one when
    [batch_size] is below one. *)
Definition full_batch (batch_size : Z) : nat := Z.to_nat (Z.max 1 batch_size).

(** The kind of value a field of the schema takes: an integer, a string,
    a list of floats of the declared dimension. The range of [INT64] and
    the [max_length] of [VARCHAR] are left to the server. *)
Definition kind_fits (t : datatype) (v : pyval) : Prop :=
  match t, v with
  | INT64, PInt _ => True
  | VARCHAR _, PStr _ => True
  | FLOAT_VECTOR dim, PList l =>
      Z.of_nat (length l) = dim ∧ Forall (λ x, ∃ f, x = PFloat f) l
  | _, _ => False
  end.

(** The calls a run that returns has issued before its first [insert]:
    the test for the collection, then what [ensure_collection] does about
    the answer. *)
Definition setup_calls (collection_name : string) (there recreate : bool)
    : list admin_call :=
  AdmHasCollection collection_name ::
  (if there
   then if recreate
        then [AdmDropCollection collection_name;
              AdmCreateCollection collection_name schema index_params]
        else []
   else [AdmCreateCollection collection_name schema index_params]).

(** A client that accepts everything and reports what it inserted. *)
Definition counting_admin (existing : list string) : MilvusAdmin := {|
  adm_has_collection name := Ret (bool_decide (name ∈ existing));
  adm_drop_collection _ := Ret ();
  adm_create_collection _ _ _ := Ret ();
  adm_insert _ data := Ret (JDict [("insert_count", JInt (Z.of_nat (length data)))]);
|}.

(** A clock, a hash and a generator to run the script with. *)
Definition sample_now : string := "2026-01-01T00:00:00+00:00".
Definition sample_seed (text : string) : Z := Z.of_nat (String.length text).
Definition sample_uniform (seed : Z) (k : nat) : spec_float := S754_zero false.

(** A run to look at: two documents of three chunks, from id 1, sent four
    rows at a time to a server that does not have the collection yet. *)
Definition sample_run : attempt Z * list admin_call :=
  insert_mock_chunks (H := decimal_parsers) sample_now sample_seed
    sample_uniform (counting_admin []) "chunk" 1 2 3 4 false [].

(** The same run against a server that has the collection already. *)
Definition sample_rerun : attempt Z * list admin_call :=
  insert_mock_chunks (H := decimal_parsers) sample_now sample_seed
    sample_uniform (counting_admin ["chunk"]) "chunk" 1 2 3 4 false [].

End Mock.

(* ===================================================================== *)
(** * [inspect_milvus.py]: the sample of rows                             *)
(* ===================================================================== *)

Module Inspect.

(** What [client.query] may hand back for a row: a dictionary; an object
    that [dict()] turns into a dictionary; an object that [dict()]
    refuses, of which [str()] gives the text. *)
Inductive answer_row :=
| Plain (r : row)
| Mapping (r : row)
| Foreign (text : string).

(** What the client answers to the two calls of [_query_sample]. *)
Record SampleClient := {
  sample_load_collection : string → outcome unit;
  sample_query : string → string → list string → Z → outcome (list answer_row);
}.

Inductive sample_call :=
| SampleLoad (collection : string)
| SampleQuery (collection filter : string) (output_fields : list string)
              (limit : Z).

(** Computations of the script over the calls issued. *)
Definition Q (X : Type) : Type := list sample_call → outcome X * list sample_call.

#[export] Instance Q_ret : MRet Q := λ X x tr, (Ret x, tr).
#[export] Instance Q_bind : MBind Q := λ X Y f m tr,
  match m tr with
  | (Ret x, tr') => f x tr'
  | (Raise e, tr') => (Raise e, tr')
  end.

Definition request {X} (c : sample_call) (answer : outcome X) : Q X :=
  λ tr, (answer, tr ++ [c]).

(** Lines 62-69: a row of the answer as a plain dictionary. *)
Definition normalize (a : answer_row) : row :=
  match a with
  | Plain r => r
  | Mapping r => r
  | Foreign text => {[ "_raw" := PStr text ]}
  end.

(** Lines 73-77: a list under [embedding] gives way to its length and its
    first five components. *)
Definition summarize (r : row) : row :=
  match r !! "embedding" with
  | Some (PList emb) =>
      delete "embedding"
        (<["embedding_preview" := PList (take 5 emb)]>
           (<["embedding_dim" := PInt (Z.of_nat (length emb))]> r))
  | _ => r
  end.

(** [_query_sample(client, collection, limit, include_embedding)] *)
Definition _query_sample (client : SampleClient) (collection : string)
    (limit : Z) (include_embedding : bool) : Q (list row) :=
  _ ← request (SampleLoad collection) (sample_load_collection client collection);
  let output_fields :=
    ["id"; "chunk_text"; "doc_id"; "chunk_index"; "source"; "created_at"]
    ++ (if include_embedding then ["embedding"] else []) in
  rows ← request (SampleQuery collection "id >= 0" output_fields limit)
                 (sample_query client collection "id >= 0" output_fields limit);
  let normalized := normalize <$> rows in
  if include_embedding then mret (summarize <$> normalized)
  else mret normalized.

(** The keys that the summary of an embedding touches. *)
Definition summary_keys : list string :=
  ["embedding"; "embedding_dim"; "embedding_preview"].

(** A client that answers every query with the same rows. *)
Definition fixed_client (rows : list answer_row) : SampleClient := {|
  sample_load_collection _ := Ret ();
  sample_query _ _ _ _ := Ret rows;
|}.

(** An answer of three rows: a dictionary with an embedding of six
    components, a mapping without an embedding, an object that is neither. *)
Definition sample_answer : list answer_row :=
  [Plain {[ "id" := PInt 1;
            "embedding" := PList [PInt 1; PInt 2; PInt 3; PInt 4; PInt 5;
                                 PInt 6] ]};
   Mapping {[ "id" := PInt 2; "embedding" := PNone ]};
   Foreign "<row 3>"].

End Inspect.

(* ===================================================================== *)
(** * Filters as text: what is written is what is read                    *)
(* ===================================================================== *)

Module Text.


Lemma occurs_app c s t : occurs c (s +:+ t) = occurs c s || occurs c t.
Proof.
  induction s as [|a s IH]; simpl; [done|].
  by rewrite IH, orb_assoc.
Qed.

Lemma split_on_absent c s : occurs c s = false → split_on c s = [s].
Proof.
  induction s as [|a s IH]; simpl; [done|].
  intros [Ha Hs]%orb_false_iff. rewrite Ha, (IH Hs). done.
Qed.

Lemma split_on_cut c s t :
  occurs c s = false → split_on c (s +:+ String c t) = s :: split_on c t.
Proof.
  induction s as [|a s IH]; simpl.
  - intros _. by rewrite Ascii.eqb_refl.
  - intros [Ha Hs]%orb_false_iff. rewrite Ha, (IH Hs). done.
Qed.

Lemma strip_prefix_app p s : strip_prefix p (p +:+ s) = Some s.
Proof.
  induction p as [|a p IH]; simpl; [by destruct s|].
  by rewrite Ascii.eqb_refl.
Qed.

Lemma string_app_assoc (s t u : string) : (s +:+ t) +:+ u = s +:+ (t +:+ u).
Proof.
  induction s as [|a s IH]; [done|].
  change (String a ((s +:+ t) +:+ u) = String a (s +:+ (t +:+ u))).
  by rewrite IH.
Qed.

(** A rendered integer is made of numeral characters only. *)
Lemma occurs_string_of_uint c d :
  numeral_char c = false → occurs c (NilEmpty.string_of_uint d) = false.
Proof.
  intros Hc. unfold numeral_char in Hc. cbn [existsb] in Hc.
  repeat (apply orb_false_iff in Hc as [? Hc]).
  induction d; cbn [occurs NilEmpty.string_of_uint]; try done;
    rewrite IHd, orb_false_r; by rewrite Ascii.eqb_sym.
Qed.

Lemma occurs_str_of_Z c z : numeral_char c = false → occurs c (str_of_Z z) = false.
Proof.
  intros Hc.
  pose proof Hc as Hc'. unfold numeral_char in Hc'. cbn [existsb] in Hc'.
  apply orb_false_iff in Hc' as [Hminus Hc'].
  apply orb_false_iff in Hc' as [Hzero _].
  rewrite Ascii.eqb_sym in Hminus. rewrite Ascii.eqb_sym in Hzero.
  assert (Hu : ∀ d, occurs c (NilZero.string_of_uint d) = false).
  { intros d. destruct d; try apply (occurs_string_of_uint c _ Hc).
    cbn [NilZero.string_of_uint occurs]. by rewrite Hzero. }
  unfold str_of_Z. destruct (Z.to_int z) as [d|d];
    cbn [NilZero.string_of_int occurs].
  - apply Hu.
  - by rewrite Hminus, Hu.
Qed.

(** Reading back a rendered integer gives the integer. *)
Lemma int_literal_str_of_Z z : int_literal (str_of_Z z) = Some z.
Proof.
  unfold int_literal, str_of_Z.
  rewrite NilZero.isi.
  - simpl. by rewrite DecimalZ.of_to.
  - destruct z; simpl; try discriminate.
    intros [= Hp]. by apply DecimalPos.Unsigned.to_uint_nonnil in Hp.
  - destruct z; simpl; try discriminate.
    intros [= Hp]. by apply DecimalPos.Unsigned.to_uint_nonnil in Hp.
Qed.

Lemma occurs_join c sep l :
  occurs c sep = false → Forall (λ s, occurs c s = false) l →
  occurs c (join sep l) = false.
Proof.
  intros Hsep. induction 1 as [|s l Hs Hl IH]; [done|].
  destruct l as [|s' l']; [done|].
  change (occurs c (s +:+ sep +:+ join sep (s' :: l')) = false).
  by rewrite !occurs_app, Hs, Hsep, IH.
Qed.

Lemma split_on_join c l :
  l ≠ [] → Forall (λ s, occurs c s = false) l →
  split_on c (join (String c "") l) = l.
Proof.
  intros Hne Hl. induction Hl as [|s l Hs Hl IH]; [done|].
  destruct l as [|s' l'].
  - by apply split_on_absent.
  - change (split_on c (s +:+ String c (join (String c "") (s' :: l'))) = s :: s' :: l').
    rewrite split_on_cut by done. by rewrite IH.
Qed.

(** The Milvus expression built by [_milvus_filter] reads back as the
    range it was built from. *)
Lemma parse_milvus_filter start end_ :
  parse_range_expr (_milvus_filter start end_) = Some (RangeExpr start end_).
Proof.
  unfold parse_range_expr, _milvus_filter. destruct end_ as [e|].
  - rewrite strip_prefix_app. cbn [mbind option_bind].
    change (str_of_Z start +:+ " && id < " +:+ str_of_Z e)
      with (str_of_Z start +:+ String " " ("&&" +:+ String " " ("id" +:+
              String " " ("<" +:+ String " " (str_of_Z e))))).
    rewrite split_on_cut by (by apply occurs_str_of_Z).
    rewrite !split_on_cut by done.
    rewrite split_on_absent by (by apply occurs_str_of_Z).
    cbn. by rewrite !int_literal_str_of_Z.
  - rewrite strip_prefix_app. cbn [mbind option_bind].
    rewrite split_on_absent by (by apply occurs_str_of_Z).
    by rewrite int_literal_str_of_Z.
Qed.

(** The SQL filter of the existence probe reads back as the list of ids it
    was built from, as soon as there is one. *)
Lemma parse_in_list_join ids :
  ids ≠ [] →
  parse_in_list ("id IN (" +:+ join "," (str_of_Z <$> ids) +:+ ")") = Some ids.
Proof.
  intros Hne. unfold parse_in_list.
  rewrite strip_prefix_app. cbn [mbind option_bind].
  assert (Hchars : ∀ c, numeral_char c = false →
            Forall (λ s, occurs c s = false) (str_of_Z <$> ids)).
  { intros c Hc. apply Forall_fmap, Forall_forall. intros z _.
    by apply occurs_str_of_Z. }
  rewrite split_on_cut by (apply occurs_join; [done | by apply Hchars]).
  cbn [split_on].
  rewrite split_on_join; [| by destruct ids | by apply Hchars].
  apply mapM_fmap_Some. intros z. apply int_literal_str_of_Z.
Qed.

End Text.

(* ===================================================================== *)
(** * Rows, ids and the staging loop                                      *)
(* ===================================================================== *)

(** [filter] with a boolean test, one element at a time. *)
Lemma filter_cons_bool {A} (p : A → bool) (x : A) (l : list A) :
  filter (λ a, p a) (x :: l)
  = if p x then x :: filter (λ a, p a) l else filter (λ a, p a) l.
Proof. rewrite filter_cons. destruct (p x); by case_decide. Qed.

Lemma filter_bool_all {A} (p : A → bool) (l : list A) :
  Forall (λ a, p a = true) l → filter (λ a, p a) l = l.
Proof.
  induction 1 as [|x l Hx Hl IH]; [done|].
  by rewrite filter_cons_bool, Hx, IH.
Qed.

Lemma filter_bool_short {A} (p : A → bool) (l : list A) :
  (length (filter (λ a, p a) l) < length l)%nat → Exists (λ a, p a = false) l.
Proof.
  induction l as [|x l IH]; [cbn; lia|].
  rewrite filter_cons_bool. destruct (p x) eqn:Hx.
  - intros Hlt. right. apply IH. cbn in Hlt. lia.
  - by left.
Qed.

Section Rows.
Context `{StrParsers}.


Lemma rid_is_None r : is_None (dict_get r "id" PNone) = negb (usable r).
Proof.
  unfold dict_get, usable, has_value.
  destruct (r !! "id") as [v|]; simpl; [by rewrite negb_involutive | done].
Qed.

Lemma dict_item_usable r :
  usable r = true → dict_item r "id" = Ret (dict_get r "id" PNone).
Proof.
  unfold dict_item, dict_get, usable, has_value.
  by destruct (r !! "id").
Qed.

Lemma ids_of_rows_nil : ids_of_rows [] = Ret [].
Proof. done. Qed.

Lemma ids_of_rows_cons r rows :
  ids_of_rows (r :: rows) =
    if usable r
    then z ← py_int (dict_get r "id" PNone);
         zs ← ids_of_rows rows; Ret (z :: zs)
    else ids_of_rows rows.
Proof.
  unfold ids_of_rows. rewrite filter_cons_bool.
  fold (usable r). destruct (usable r) eqn:Hr; [|done].
  cbn [comprehension]. by rewrite dict_item_usable.
Qed.

Lemma ids_of_rows_app p q :
  ids_of_rows (p ++ q) =
    ip ← ids_of_rows p; iq ← ids_of_rows q; Ret (ip ++ iq).
Proof.
  induction p as [|r p IH]; cbn [app].
  - rewrite ids_of_rows_nil. cbn. by destruct (ids_of_rows q).
  - rewrite !ids_of_rows_cons. destruct (usable r); [|done].
    destruct (py_int _); [|done]. cbn. rewrite IH.
    destruct (ids_of_rows p); [|done]. cbn.
    by destruct (ids_of_rows q).
Qed.

(** Exactly the rows with a usable id contribute an id. *)
Lemma ids_of_rows_length rows ids :
  ids_of_rows rows = Ret ids →
  length ids = length (filter (λ r, usable r) rows).
Proof.
  revert ids. induction rows as [|r rows IH]; intros ids.
  - rewrite ids_of_rows_nil. by intros [= <-].
  - rewrite ids_of_rows_cons, filter_cons_bool. destruct (usable r) eqn:Hr.
    + destruct (py_int _); [|done]. cbn.
      destruct (ids_of_rows rows) as [zs|]; [|done]. cbn.
      intros [= <-]. cbn. f_equal. by apply IH.
    + apply IH.
Qed.

Lemma staged_record_id r z c : staged_record r z = Ret c → c_id c = z.
Proof.
  unfold staged_record.
  destruct (py_int _); [|done]. cbn.
  destruct (_coerce_embedding _); [|done]. cbn.
  by intros [= <-].
Qed.

(** The staging loop keeps the rows whose id the probe did not return,
    one staged record per row and in page order, and counts the others
    as skipped. *)
Lemma stage_ids existing page to_insert skipped to_insert' skipped' :
  stage existing page to_insert skipped = Ret (to_insert', skipped') →
  ∃ ids, ids_of_rows page = Ret ids
    ∧ c_id <$> to_insert'
      = ((c_id <$> to_insert) ++ filter (λ z, z ∉ existing) ids)
    ∧ skipped' = skipped + length (filter (λ z, z ∈ existing) ids).
Proof.
  revert to_insert skipped.
  induction page as [|r page IH]; intros to_insert skipped; cbn [stage].
  - intros [= <- <-]. exists []. rewrite app_nil_r.
    split_and!; [done..|cbn; lia].
  - rewrite rid_is_None, ids_of_rows_cons.
    destruct (usable r); cbn [negb]; [| by apply IH].
    destruct (py_int _) as [z|]; [|done]. cbn.
    destruct (decide (z ∈ existing)) as [Hz|Hz].
    + intros (ids & -> & Hti & Hsk)%IH. exists (z :: ids).
      split_and!; [done| |].
      * rewrite filter_cons, decide_False by (intros ?; done). done.
      * rewrite filter_cons, decide_True by done. cbn. lia.
    + destruct (staged_record r z) as [c|] eqn:Hc; [|done]. cbn.
      intros (ids & -> & Hti & Hsk)%IH. exists (z :: ids).
      split_and!; [done| |].
      * rewrite filter_cons, decide_True by done.
        rewrite Hti, fmap_app, <- app_assoc. cbn.
        by rewrite (staged_record_id _ _ _ Hc).
      * rewrite filter_cons, decide_False by done. done.
Qed.

(** When the probe returned every id of the page, nothing is staged and
    no row is converted. *)
Lemma stage_all_existing existing page ids to_insert skipped :
  ids_of_rows page = Ret ids →
  (∀ z, z ∈ ids → z ∈ existing) →
  stage existing page to_insert skipped = Ret (to_insert, skipped + length ids).
Proof.
  revert ids skipped.
  induction page as [|r page IH]; intros ids skipped; cbn [stage].
  - rewrite ids_of_rows_nil. intros [= <-] _. cbn. do 2 f_equal. lia.
  - rewrite rid_is_None, ids_of_rows_cons.
    destruct (usable r); cbn [negb]; [| by apply IH].
    destruct (py_int _) as [z|]; [|done]. cbn.
    destruct (ids_of_rows page) as [zs|]; [|done]. cbn.
    intros [= <-] Hall.
    rewrite decide_True by (apply Hall; left).
    rewrite (IH zs) by (done || (intros; apply Hall; by right)).
    cbn. do 2 f_equal. lia.
Qed.

(** Staging only looks at the probe's answer on the ids of the page. *)
Lemma stage_ext e1 e2 page ids to_insert skipped :
  ids_of_rows page = Ret ids →
  (∀ z, z ∈ ids → z ∈ e1 ↔ z ∈ e2) →
  stage e1 page to_insert skipped = stage e2 page to_insert skipped.
Proof.
  revert ids to_insert skipped.
  induction page as [|r page IH]; intros ids to_insert skipped; [done|].
  cbn [stage]. rewrite rid_is_None, ids_of_rows_cons.
  destruct (usable r); cbn [negb]; [| by apply IH].
  destruct (py_int _) as [z|]; [|done]. cbn.
  destruct (ids_of_rows page) as [zs|] eqn:Hzs; [|done]. cbn.
  intros [= <-] Hext.
  assert (Hzs' : ∀ z', z' ∈ zs → z' ∈ e1 ↔ z' ∈ e2)
    by (intros; apply Hext; by right).
  destruct (decide (z ∈ e1)) as [H1|H1], (decide (z ∈ e2)) as [H2|H2].
  - by apply (IH zs).
  - destruct H2. apply Hext; [left | done].
  - destruct H1. apply Hext; [left | done].
  - destruct (staged_record r z); [|done]. cbn. by apply (IH zs).
Qed.
End Rows.

(* ===================================================================== *)
(** * The existence probe                                                 *)
(* ===================================================================== *)


Lemma elem_of_probe_set rows ids z :
  z ∈ probe_set rows ids ↔ z ∈ ids ∧ z ∈ stored_ids rows.
Proof.
  unfold probe_set, stored_ids.
  rewrite elem_of_list_to_set, !list_elem_of_fmap. split.
  - intros (c & -> & [Hc Hin]%list_elem_of_filter). eauto.
  - intros (Hz & c & -> & Hc). exists c. split; [done|].
    by apply list_elem_of_filter.
Qed.

Lemma probe_set_nil rows : probe_set rows [] = ∅.
Proof.
  apply set_eq. intros z. rewrite elem_of_probe_set.
  split; [intros [Hz _]; by apply elem_of_nil in Hz | intros Hz; by apply elem_of_empty in Hz].
Qed.

Section Probe.
Context `{StrParsers}.

Lemma usable_row_of_chunk c : usable (row_of_chunk c) = true.
Proof. done. Qed.

Lemma ids_of_stored_rows (l : list chunk) :
  ids_of_rows (row_of_chunk <$> l) = Ret (c_id <$> l).
Proof.
  induction l as [|c l IH]; [done|].
  rewrite fmap_cons, ids_of_rows_cons, usable_row_of_chunk, IH. done.
Qed.

(** The probe never raises, leaves the table as it is, and issues one
    query unless there is no id to ask about. *)
Lemma existing_ids_spec table ids w :
  _existing_ids_in_tidb table ids w
  = (Ret (probe_set (tidb_rows w) ids),
     World (tidb_rows w) (trace w ++ probe_calls ids)).
Proof.
  destruct ids as [|z ids].
  - rewrite probe_set_nil. cbn. rewrite app_nil_r. by destruct w.
  - unfold _existing_ids_in_tidb, table_query.
    rewrite Text.parse_in_list_join by done.
    unfold mbind, M_bind, lift. by rewrite ids_of_stored_rows.
Qed.
End Probe.

(* ===================================================================== *)
(** * One page                                                            *)
(* ===================================================================== *)

Section Run.
Context `{StrParsers}.
Variables (milvus : MilvusClient) (table : TidbTable).
Variables (milvus_collection : string) (start : Z) (end_ : option Z).
Variable page_size : Z.

Abbreviation fetch := (Scan.fetch milvus milvus_collection start end_ page_size).
Abbreviation fetch_call := (Scan.fetch_call milvus_collection start end_ page_size).
Abbreviation fetched_rows :=
  (Scan.fetched_rows milvus milvus_collection start end_ page_size).
Abbreviation scan_done :=
  (Scan.scan_done milvus milvus_collection start end_ page_size).
Abbreviation step := (page_step milvus table milvus_collection start end_ page_size).
Abbreviation loop := (migrate_loop milvus table milvus_collection start end_ page_size).

(** The body of the loop, call by call. *)
Lemma page_step_eq dry_run o sc sk ins w :
  step dry_run o sc sk ins w =
    let t1 := trace w ++ [fetch_call o] in
    match fetch o with
    | Raise e => (Raise e, World (tidb_rows w) t1)
    | Ret [] => (Ret Break, World (tidb_rows w) t1)
    | Ret page =>
        match ids_of_rows page with
        | Raise e => (Raise e, World (tidb_rows w) t1)
        | Ret ids =>
            let t2 := t1 ++ probe_calls ids in
            match stage (probe_set (tidb_rows w) ids) page [] sk with
            | Raise e => (Raise e, World (tidb_rows w) t2)
            | Ret ([], sk') =>
                (Ret (Continue (o + length page) (sc + length page) sk' ins),
                 World (tidb_rows w) t2)
            | Ret (batch, sk') =>
                let next := Continue (o + length page) (sc + length page) sk'
                                     (ins + length batch) in
                if dry_run then (Ret next, World (tidb_rows w) t2)
                else
                  let t3 := t2 ++ [TidbBulkInsert batch] in
                  match bulk_insert_sem table batch (tidb_rows w) with
                  | Ret rows' => (Ret next, World rows' t3)
                  | Raise e => (Raise e, World (tidb_rows w) t3)
                  end
            end
        end
    end.
Proof.
  unfold page_step, _fetch_milvus_page, mbind, M_bind, mret, M_ret, lift, log.
  fold (fetch o). fold (fetch_call o). cbn zeta.
  destruct (fetch o) as [[|r page]|e]; [done| |done].
  destruct (ids_of_rows (r :: page)) as [ids|e]; [|done].
  rewrite existing_ids_spec. cbn [tidb_rows trace].
  destruct (stage _ _ _ _) as [[[|c batch] sk']|e]; [done| |done].
  destruct dry_run; [done|].
  unfold table_bulk_insert, log. cbn [tidb_rows trace].
  by destruct (bulk_insert_sem _ _ _).
Qed.

(** The pass that finds the empty page. *)
Lemma page_step_break dry_run o sc sk ins w w' :
  step dry_run o sc sk ins w = (Ret Break, w') →
  fetch o = Ret [] ∧ w' = World (tidb_rows w) (trace w ++ [fetch_call o]).
Proof.
  rewrite page_step_eq. cbn zeta.
  destruct (fetch o) as [[|r page]|e]; [by intros [= <-]| |done].
  destruct (ids_of_rows _) as [ids|e]; [|done].
  destruct (stage _ _ _ _) as [[[|c batch] sk']|e]; [done| |done].
  destruct dry_run; [done|]. by destruct (bulk_insert_sem _ _ _).
Qed.

(** A pass that goes on to the next page: what was fetched, probed and
    staged, how the counters moved, and what happened to the table. *)
Lemma page_step_continue dry_run o sc sk ins w o' sc' sk' ins' w' :
  step dry_run o sc sk ins w = (Ret (Continue o' sc' sk' ins'), w') →
  ∃ page ids batch,
    fetch o = Ret page ∧ page ≠ []
    ∧ ids_of_rows page = Ret ids
    ∧ stage (probe_set (tidb_rows w) ids) page [] sk = Ret (batch, sk')
    ∧ o' = o + length page ∧ sc' = sc + length page
    ∧ ins' = ins + length batch
    ∧ (if dry_run then w' = World (tidb_rows w)
                               (trace w ++ [fetch_call o] ++ probe_calls ids)
       else match batch with
            | [] => w' = World (tidb_rows w)
                           (trace w ++ [fetch_call o] ++ probe_calls ids)
            | _ => bulk_insert_sem table batch (tidb_rows w) = Ret (tidb_rows w')
                   ∧ trace w' = trace w ++ [fetch_call o] ++ probe_calls ids
                                        ++ [TidbBulkInsert batch]
            end).
Proof.
  rewrite page_step_eq. cbn zeta.
  destruct (fetch o) as [[|r page]|e]; [done| |done].
  destruct (ids_of_rows _) as [ids|e] eqn:Hids; [|done].
  destruct (stage _ _ _ _) as [[[|c batch] sk'']|e] eqn:Hst; [| |done].
  - intros [= <- <- <- <- <-]. exists (r :: page), ids, [].
    rewrite <- app_assoc. split_and!; try done; try (cbn; lia).
    by destruct dry_run.
  - destruct dry_run.
    + intros [= <- <- <- <- <-]. exists (r :: page), ids, (c :: batch).
      rewrite <- app_assoc. by split_and!.
    + destruct (bulk_insert_sem _ _ _) as [rows'|e] eqn:Hsink; [|done].
      intros [= <- <- <- <- <-]. exists (r :: page), ids, (c :: batch).
      cbn [tidb_rows trace]. rewrite <- !app_assoc. by split_and!.
Qed.

(** The rows fetched from [offset], once the first page is known. *)
Lemma fetched_rows_page fuel o page :
  fetch o = Ret page → page ≠ [] →
  fetched_rows (S fuel) o = page ++ fetched_rows fuel (o + length page).
Proof. intros Hf Hne. cbn [Scan.fetched_rows]. rewrite Hf. by destruct page. Qed.

Lemma fetched_rows_end fuel o : fetch o = Ret [] → fetched_rows (S fuel) o = [].
Proof. intros Hf. cbn [Scan.fetched_rows]. by rewrite Hf. Qed.

(** [filter] splits a list in two. *)
Lemma length_filter_split {A} (P : A → Prop) `{∀ x, Decision (P x)} (l : list A) :
  length (filter P l) + length (filter (λ x, ¬ P x) l) = length l.
Proof. rewrite <- length_app. by rewrite filter_app_complement. Qed.

(** ** Counters

    [scanned] grows by the rows fetched, [skipped + inserted] by the ids
    among them. *)
Lemma loop_counters dry_run fuel :
  ∀ o sc sk ins w sc' sk' ins' w',
    loop dry_run fuel o sc sk ins w = Some (Ret (sc', sk', ins'), w') →
    ∃ ids, ids_of_rows (fetched_rows fuel o) = Ret ids
      ∧ sc' = sc + length (fetched_rows fuel o)
      ∧ sk' + ins' = sk + ins + length ids.
Proof.
  induction fuel as [|fuel IH]; intros o sc sk ins w sc' sk' ins' w'; [done|].
  cbn [migrate_loop].
  destruct (step dry_run o sc sk ins w) as [[[|o1 sc1 sk1 ins1]|e] w1] eqn:Hstep;
    [| |by intros [= ?]].
  - intros [= <- <- <- <-].
    apply page_step_break in Hstep as [Hf _].
    rewrite (fetched_rows_end _ _ Hf). exists []. cbn. split_and!; [done|lia..].
  - intros (rest & Hrest & Hsc & Hsum)%IH.
    apply page_step_continue in Hstep
      as (page & ids & batch & Hf & Hne & Hids & Hst & -> & -> & -> & _).
    rewrite (fetched_rows_page _ _ _ Hf Hne).
    apply stage_ids in Hst as (ids' & Hids' & Hbatch & Hsk).
    rewrite Hids in Hids'. injection Hids' as <-.
    exists (ids ++ rest). rewrite ids_of_rows_app, Hids, Hrest. cbn.
    split_and!; [done|rewrite length_app; lia|].
    apply (f_equal length) in Hbatch. rewrite !length_fmap in Hbatch.
    cbn in Hbatch.
    pose proof (length_filter_split (λ z, z ∈ probe_set (tidb_rows w) ids) ids).
    rewrite length_app. lia.
Qed.

Lemma ids_of_rows_app_inv p q ids :
  ids_of_rows (p ++ q) = Ret ids →
  ∃ ip iq, ids_of_rows p = Ret ip ∧ ids_of_rows q = Ret iq ∧ ids = ip ++ iq.
Proof.
  rewrite ids_of_rows_app.
  destruct (ids_of_rows p) as [ip|]; [|done].
  destruct (ids_of_rows q) as [iq|]; [|done].
  intros [= <-]. by exists ip, iq.
Qed.

(** A run that returns has met the empty page. *)
Lemma loop_scan_done dry_run fuel :
  ∀ o sc sk ins w c w',
    loop dry_run fuel o sc sk ins w = Some (Ret c, w') →
    scan_done fuel o = true.
Proof.
  induction fuel as [|fuel IH]; intros o sc sk ins w c w'; [done|].
  cbn [migrate_loop Scan.scan_done].
  destruct (step dry_run o sc sk ins w) as [[[|o1 sc1 sk1 ins1]|e] w1] eqn:Hstep;
    [| |by intros [= ?]].
  - apply page_step_break in Hstep as [-> _]. done.
  - apply page_step_continue in Hstep
      as (page & ids & batch & -> & Hne & _ & _ & -> & _).
    intros Hloop%IH. by destruct page.
Qed.


(** After a writing run that returns, every id it fetched is in the
    table, and so is every id that was there before. *)
Lemma loop_stores fuel :
  durable table →
  ∀ o sc sk ins w c w',
    loop false fuel o sc sk ins w = Some (Ret c, w') →
    (∀ z, z ∈ stored_ids (tidb_rows w) → z ∈ stored_ids (tidb_rows w'))
    ∧ ∀ ids, ids_of_rows (fetched_rows fuel o) = Ret ids →
             ∀ z, z ∈ ids → z ∈ stored_ids (tidb_rows w').
Proof.
  intros Hdur.
  induction fuel as [|fuel IH]; intros o sc sk ins w c w'; [done|].
  cbn [migrate_loop].
  destruct (step false o sc sk ins w) as [[[|o1 sc1 sk1 ins1]|e] w1] eqn:Hstep;
    [| |by intros [= ?]].
  - intros [= <- <-].
    apply page_step_break in Hstep as [Hf ->].
    rewrite (fetched_rows_end _ _ Hf). split; [done|].
    intros ids [= <-] z Hz. by apply elem_of_nil in Hz.
  - intros [Hmono Hrest]%IH.
    apply page_step_continue in Hstep
      as (page & ids & batch & Hf & Hne & Hids & Hst & -> & -> & -> & Hw1).
    apply stage_ids in Hst as (ids' & Hids' & Hbatch & _).
    rewrite Hids in Hids'. injection Hids' as <-. cbn in Hbatch.
    assert (Hkeep : ∀ z, z ∈ stored_ids (tidb_rows w) ∨ z ∈ stored_ids batch →
                         z ∈ stored_ids (tidb_rows w1)).
    { destruct batch as [|c0 batch].
      - subst w1. cbn. intros z [Hz|Hz]; [done|by apply elem_of_nil in Hz].
      - destruct Hw1 as [Hsink _]. by apply (Hdur _ _ _ Hsink). }
    split; [intros z Hz; apply Hmono, Hkeep; by left|].
    rewrite (fetched_rows_page _ _ _ Hf Hne).
    intros all (ip & iq & Hip & Hiq & ->)%ids_of_rows_app_inv z
           [Hz|Hz]%elem_of_app; [|by apply (Hrest iq)].
    rewrite Hids in Hip. injection Hip as <-.
    apply Hmono, Hkeep.
    destruct (decide (z ∈ probe_set (tidb_rows w) ids)) as [Hex|Hex].
    + left. by apply elem_of_probe_set in Hex as [_ ?].
    + right. unfold stored_ids. rewrite Hbatch. by apply list_elem_of_filter.
Qed.

(** A run over a source whose every id is already in the table skips
    every row that has an id and leaves the table alone. *)
Lemma loop_all_present dry_run fuel :
  ∀ o sc sk ins w ids,
    scan_done fuel o = true →
    ids_of_rows (fetched_rows fuel o) = Ret ids →
    (∀ z, z ∈ ids → z ∈ stored_ids (tidb_rows w)) →
    ∃ tr,
      loop dry_run fuel o sc sk ins w
      = Some (Ret (sc + length (fetched_rows fuel o), sk + length ids, ins),
              World (tidb_rows w) (trace w ++ tr))
      ∧ Forall read_only tr.
Proof.
  induction fuel as [|fuel IH]; intros o sc sk ins w ids; [done|].
  cbn [migrate_loop Scan.scan_done Scan.fetched_rows]. rewrite page_step_eq. cbn zeta.
  destruct (fetch o) as [[|r page]|e]; [| |done].
  - intros _ [= <-] _. exists [fetch_call o]. cbn.
    rewrite !Nat.add_0_r. split; [done|]. by repeat constructor.
  - intros Hdone (ip & iq & Hip & Hiq & ->)%ids_of_rows_app_inv Hall.
    rewrite Hip.
    rewrite (stage_all_existing _ _ ip) by
      (done || (intros z Hz; apply elem_of_probe_set; split;
                 [done | apply Hall, elem_of_app; by left])).
    destruct (IH (o + length (r :: page)) (sc + length (r :: page))
                 (sk + length ip) ins
                 (World (tidb_rows w)
                        ((trace w ++ [fetch_call o]) ++ probe_calls ip)) iq)
      as (tr & -> & Htr); [done..| |].
    { intros z Hz. apply Hall, elem_of_app. by right. }
    exists ([fetch_call o] ++ probe_calls ip ++ tr).
    cbn [tidb_rows trace]. rewrite !length_app, <- !app_assoc, !Nat.add_assoc.
    split; [done|].
    apply Forall_app; split; [by repeat constructor|].
    apply Forall_app; split; [|done].
    destruct ip; by repeat constructor.
Qed.

(** ** Dry runs *)

(** A dry run, however it ends, leaves the table alone and issues no
    bulk insert. *)
Lemma dry_step_frame o sc sk ins w res w' :
  step true o sc sk ins w = (res, w') →
  tidb_rows w' = tidb_rows w
  ∧ ∃ tr, trace w' = trace w ++ tr ∧ Forall read_only tr.
Proof.
  rewrite page_step_eq. cbn zeta.
  assert (Hfetch : Forall read_only [fetch_call o]) by (by repeat constructor).
  assert (Hprobe : ∀ ids, Forall read_only ([fetch_call o] ++ probe_calls ids)).
  { intros ids. apply Forall_app; split; [done|].
    destruct ids; by repeat constructor. }
  destruct (fetch o) as [[|r page]|e];
    [intros [= <- <-]; split; [done|]; by exists [fetch_call o]| |
     intros [= <- <-]; split; [done|]; by exists [fetch_call o]].
  destruct (ids_of_rows _) as [ids|e];
    [|intros [= <- <-]; split; [done|]; by exists [fetch_call o]].
  destruct (stage _ _ _ _) as [[[|c batch] sk']|e];
    intros [= <- <-]; (split; [done|]);
    exists ([fetch_call o] ++ probe_calls ids); cbn [trace];
    by rewrite <- app_assoc.
Qed.

Lemma dry_loop_frame fuel :
  ∀ o sc sk ins w res w',
    loop true fuel o sc sk ins w = Some (res, w') →
    tidb_rows w' = tidb_rows w
    ∧ ∃ tr, trace w' = trace w ++ tr ∧ Forall read_only tr.
Proof.
  induction fuel as [|fuel IH]; intros o sc sk ins w res w'; [done|].
  cbn [migrate_loop].
  destruct (step true o sc sk ins w) as [[[|o1 sc1 sk1 ins1]|e] w1] eqn:Hstep.
  - intros [= <- <-]. by apply dry_step_frame in Hstep.
  - intros (Hrows & tr & Htr & Hro)%IH.
    apply dry_step_frame in Hstep as (Hrows1 & tr1 & Htr1 & Hro1).
    split; [congruence|]. exists (tr1 ++ tr).
    rewrite Htr, Htr1, <- app_assoc. split; [done|]. by apply Forall_app.
  - intros [= <- <-]. by apply dry_step_frame in Hstep.
Qed.

(** When no id comes twice, a writing run only ever adds ids that later
    pages do not ask about: the probes of a dry run on the untouched
    table answer alike, and so do the counters. *)
Lemma dry_agrees fuel :
  durable table → adds_only table →
  ∀ o sc sk ins w1 w0 ids c w1',
    ids_of_rows (fetched_rows fuel o) = Ret ids → NoDup ids →
    (∀ z, z ∈ ids →
          z ∈ stored_ids (tidb_rows w1) ↔ z ∈ stored_ids (tidb_rows w0)) →
    loop false fuel o sc sk ins w1 = Some (Ret c, w1') →
    ∃ w0', loop true fuel o sc sk ins w0 = Some (Ret c, w0').
Proof.
  intros Hdur Hadd.
  induction fuel as [|fuel IH]; intros o sc sk ins w1 w0 ids c w1'; [done|].
  intros Hids Hnd Hagree. cbn [migrate_loop].
  destruct (step false o sc sk ins w1) as [[[|o1 sc1 sk1 ins1]|e] w1n] eqn:Hstep;
    [| |by intros [= ?]].
  - intros [= <- <-].
    apply page_step_break in Hstep as [Hf _].
    rewrite page_step_eq, Hf. cbn zeta. eauto.
  - intros Hloop.
    apply page_step_continue in Hstep
      as (page & ip & batch & Hf & Hne & Hip & Hst & -> & -> & -> & Hw1n).
    rewrite (fetched_rows_page _ _ _ Hf Hne) in Hids.
    apply ids_of_rows_app_inv in Hids as (ip' & iq & Hip' & Hiq & ->).
    rewrite Hip in Hip'. injection Hip' as <-.
    apply NoDup_app in Hnd as (Hndp & Hdisj & Hndq).
    assert (Hst0 : stage (probe_set (tidb_rows w0) ip) page [] sk
                   = Ret (batch, sk1)).
    { rewrite <- Hst. apply (stage_ext _ _ _ ip); [done|].
      intros z Hz. rewrite !elem_of_probe_set.
      specialize (Hagree z (proj2 (elem_of_app _ _ _) (or_introl Hz))).
      tauto. }
    apply stage_ids in Hst as (ids' & Hids' & Hbatch & _).
    rewrite Hip in Hids'. injection Hids' as <-. cbn in Hbatch.
    rewrite page_step_eq, Hf. cbn zeta. destruct page as [|r page]; [done|].
    rewrite Hip, Hst0.
    set (w0n := World (tidb_rows w0)
                      ((trace w0 ++ [fetch_call o]) ++ probe_calls ip)).
    assert (Hnext : ∀ z, z ∈ iq →
              z ∈ stored_ids (tidb_rows w1n) ↔ z ∈ stored_ids (tidb_rows w0n)).
    { intros z Hz. cbn [w0n tidb_rows].
      rewrite <- (Hagree z) by (apply elem_of_app; by right).
      destruct batch as [|c0 batch]; [by subst w1n|].
      destruct Hw1n as [Hsink _]. split.
      - intros [?|Hb]%(Hadd _ _ _ Hsink); [done|].
        unfold stored_ids in Hb. rewrite Hbatch in Hb.
        apply list_elem_of_filter in Hb as [_ Hb].
        by destruct (Hdisj z Hb).
      - intros Hz1. apply (Hdur _ _ _ Hsink). by left. }
    destruct batch as [|c0 batch].
    + cbn [length] in Hloop. rewrite Nat.add_0_r in Hloop.
      by apply (IH _ _ _ _ w1n w0n iq c w1').
    + by apply (IH _ _ _ _ w1n w0n iq c w1').
Qed.

(** ** The empty source *)
Lemma loop_empty_source dry_run fuel sc sk ins w :
  fetch 0 = Ret [] →
  loop dry_run (S fuel) 0 sc sk ins w
  = Some (Ret (sc, sk, ins), World (tidb_rows w) (trace w ++ [fetch_call 0])).
Proof. intros Hf. cbn [migrate_loop]. by rewrite page_step_eq, Hf. Qed.

(** ** Fuel

    A run that has ended within [fuel] pages ends the same way with more. *)
Lemma loop_fuel_mono dry_run fuel :
  ∀ k o sc sk ins w res,
    loop dry_run fuel o sc sk ins w = Some res →
    loop dry_run (fuel + k) o sc sk ins w = Some res.
Proof.
  induction fuel as [|fuel IH]; intros k o sc sk ins w res; [done|].
  cbn [migrate_loop Nat.add].
  destruct (step dry_run o sc sk ins w) as [[[|o1 sc1 sk1 ins1]|e] w1];
    [done| |done].
  apply IH.
Qed.
End Run.

(* ===================================================================== *)
(** * The concrete stores obey the ledger laws                            *)
(* ===================================================================== *)

Lemma append_table_durable : durable append_table.
Proof.
  intros batch rows rows' [= <-] z Hz. unfold stored_ids.
  rewrite fmap_app. by apply elem_of_app.
Qed.

Lemma append_table_adds_only : adds_only append_table.
Proof.
  intros batch rows rows' [= <-] z Hz. unfold stored_ids in Hz.
  rewrite fmap_app in Hz. by apply elem_of_app in Hz.
Qed.

Lemma pk_table_durable : durable pk_table.
Proof.
  intros batch rows rows'. cbn. case_decide; [|done].
  intros [= <-] z Hz. unfold stored_ids.
  rewrite fmap_app. by apply elem_of_app.
Qed.

Lemma pk_table_adds_only : adds_only pk_table.
Proof.
  intros batch rows rows'. cbn. case_decide; [|done].
  intros [= <-] z Hz. unfold stored_ids in Hz.
  rewrite fmap_app in Hz. by apply elem_of_app in Hz.
Qed.

(* ===================================================================== *)
(** * Termination over a finite source                                    *)
(* ===================================================================== *)

Section Termination.
Context `{StrParsers}.
Variables (rows : list row) (table : TidbTable).
Variables (milvus_collection : string) (start : Z) (end_ : option Z).
Variables (page_size : Z) (dry_run : bool).

Abbreviation in_range := (snapshot_in_range rows start end_).

Lemma snapshot_fetch o :
  Scan.fetch (snapshot_client rows) milvus_collection start end_ page_size o
  = if (page_size <? 0)%Z then Raise (StoreError "invalid limit")
    else Ret (take (Z.to_nat page_size) (drop o in_range)).
Proof.
  unfold Scan.fetch. cbn [milvus_query snapshot_client].
  by rewrite Text.parse_milvus_filter.
Qed.

(** Over a snapshot every run ends, by the empty page or by an exception,
    within one fetch more than there are rows in the range. *)
Lemma snapshot_loop_terminates fuel :
  ∀ o sc sk ins w,
    (length in_range - o < fuel)%nat →
    is_Some (migrate_loop (snapshot_client rows) table milvus_collection start
                          end_ page_size dry_run fuel o sc sk ins w).
Proof.
  induction fuel as [|fuel IH]; intros o sc sk ins w Hfuel; [lia|].
  cbn [migrate_loop].
  destruct (page_step _ _ _ _ _ _ _ _ _ _ _ _) as [[[|o1 sc1 sk1 ins1]|e] w1]
    eqn:Hstep; [done| |done].
  apply page_step_continue in Hstep
    as (page & ids & batch & Hf & Hne & _ & _ & -> & _).
  rewrite snapshot_fetch in Hf.
  destruct (page_size <? 0)%Z; [done|]. injection Hf as <-.
  apply IH.
  destruct (decide (o < length in_range)%nat) as [Hlt|Hge].
  - destruct (Z.to_nat page_size) as [|n]; [done|].
    destruct (drop o in_range) as [|r rest] eqn:Hdrop; [done|].
    cbn [take length]. lia.
  - rewrite drop_ge in Hne by lia. by destruct (Z.to_nat page_size).
Qed.

Theorem snapshot_run_terminates (w : world) :
  is_Some (migrate_range (snapshot_client rows) table milvus_collection start
                         end_ page_size dry_run (S (length rows)) w).
Proof.
  apply snapshot_loop_terminates.
  pose proof (length_filter
    (λ r, from_option (admits (RangeExpr start end_)) false (row_key r)) rows).
  unfold snapshot_in_range, admitted_rows. lia.
Qed.
End Termination.

(* ===================================================================== *)
(** * Scenarios of the specification                                      *)
(* ===================================================================== *)

Module ScenarioRuns.
Import Scenarios.

(** Ten rows, empty destination, pages of four. *)
Example fresh_destination :
  fst <$> run 0 None empty_world = Some (Ret (10, 0, 10)).
Proof. vm_compute. reflexivity. Qed.

(** Three pages of sizes 4, 4, 2, then the empty one. *)
Example fresh_destination_fetches :
  (λ w, filter (λ c, is_fetch c) (trace w)) ∘ snd <$> run 0 None empty_world
  = Some (MilvusQuery "chunk" "id >= 0" output_fields 4 <$> [0; 4; 8; 10]).
Proof. vm_compute. reflexivity. Qed.

(** Ids 0..4 already there. *)
Example half_migrated_destination :
  fst <$> run 0 None half_migrated = Some (Ret (10, 5, 5)).
Proof. vm_compute. reflexivity. Qed.

(** The range [5, 8). *)
Example sub_range :
  fst <$> run 5 (Some 8%Z) empty_world = Some (Ret (3, 0, 3))
  ∧ stored_ids ∘ tidb_rows ∘ snd <$> run 5 (Some 8%Z) empty_world
    = Some [5; 6; 7]%Z.
Proof. vm_compute. done. Qed.

(** A page that brings id 1 twice, on an empty table: the dry run counts two
    inserts; the writing run hands both records to the destination, which
    takes them or, when it enforces the primary key, rejects the batch. *)
Example twin_page :
  fst <$> migrate_range (H := decimal_parsers) twin_source append_table "chunk"
            0 None 2 true 5 empty_world = Some (Ret (2, 0, 2))
  ∧ fst <$> migrate_range (H := decimal_parsers) twin_source append_table "chunk"
              0 None 2 false 5 empty_world = Some (Ret (2, 0, 2))
  ∧ migrate_range (H := decimal_parsers) twin_source pk_table "chunk"
      0 None 2 false 5 empty_world
    = Some (Raise (StoreError "Duplicate entry for key PRIMARY"),
            World [] [MilvusQuery "chunk" "id >= 0" output_fields 2 0;
                      TidbQuery "id IN (1,1)";
                      TidbBulkInsert [bare_chunk 1; bare_chunk 1]]).
Proof. vm_compute. done. Qed.
End ScenarioRuns.

(* ===================================================================== *)
(** * Properties of the leaves                                            *)
(* ===================================================================== *)


Lemma comprehension_Forall2 {A B} (f : A → outcome B) l ys :
  comprehension f l = Ret ys ↔ Forall2 (λ x y, f x = Ret y) l ys.
Proof.
  revert ys. induction l as [|x l IH]; intros ys; cbn [comprehension].
  - split; [intros [= <-]; constructor | by inversion 1].
  - split.
    + destruct (f x) as [y|] eqn:Hx; [|done]. cbn.
      destruct (comprehension f l) as [ys'|]; [|done]. cbn.
      intros [= <-]. constructor; [done|]. by apply IH.
    + inversion 1 as [|? y ? ys' Hx Hl]; subst.
      rewrite Hx. cbn. apply IH in Hl. by rewrite Hl.
Qed.

(** C5 (as amended). The text [_milvus_filter] builds selects exactly the
    ids with [start <= id] and, when [end] is given, [id < end]. So a row
    whose id is [end] is never selected, and a row whose id is [start] is
    selected when there is no [end] and, when there is one, exactly when
    [start < end]. *)
Theorem range_boundary (start : Z) (end_ : option Z) (id : Z) :
  filter_admits (_milvus_filter start end_) id
  = Some ((start <=? id)%Z
          && match end_ with Some e => (id <? e)%Z | None => true end)
  ∧ (∀ e, filter_admits (_milvus_filter start (Some e)) e = Some false)
  ∧ filter_admits (_milvus_filter start None) start = Some true
  ∧ (∀ e, filter_admits (_milvus_filter start (Some e)) start
          = Some (start <? e)%Z).
Proof.
  assert (Hadm : ∀ en i, filter_admits (_milvus_filter start en) i
            = Some ((start <=? i)%Z
                    && match en with Some e => (i <? e)%Z | None => true end)).
  { intros en i. unfold filter_admits.
    by rewrite Text.parse_milvus_filter. }
  split_and!.
  - apply Hadm.
  - intros e. rewrite Hadm. f_equal.
    rewrite Z.ltb_irrefl. apply andb_false_r.
  - rewrite Hadm. f_equal. rewrite Z.leb_refl. done.
  - intros e. rewrite Hadm. f_equal. by rewrite Z.leb_refl.
Qed.

(** C5, the claim as first stated fails on an empty range: with
    [start = end = 5] the filter is [id >= 5 && id < 5] and the row whose
    id is [start] is not selected. *)
Lemma start_row_outside_empty_range :
  _milvus_filter 5 (Some 5%Z) = "id >= 5 && id < 5"
  ∧ filter_admits (_milvus_filter 5 (Some 5%Z)) 5 = Some false.
Proof. vm_compute. done. Qed.

(** C7. On an empty list of candidate ids the prober returns the empty set
    and the world, trace of calls included, is as before: no query is
    issued. *)
Theorem prober_empty_input `{StrParsers} (table : TidbTable) (w : world) :
  _existing_ids_in_tidb table [] w = (Ret ∅, w).
Proof. reflexivity. Qed.

(** C8. [_coerce_embedding(None)] is the empty list; on a list or another
    iterable whose elements [float()] converts, it returns the converted
    elements, one per element and in the order of the input; a list of
    floats comes back as it is. *)
Theorem coerce_embedding_elementwise `{StrParsers} :
  _coerce_embedding PNone = Ret []
  ∧ (∀ v l fs,
       list_like v l →
       Forall2 (λ x f, py_float x = Ret f) l fs →
       _coerce_embedding v = Ret fs ∧ length fs = length l)
  ∧ (∀ fs, _coerce_embedding (PList (PFloat <$> fs)) = Ret fs).
Proof.
  split_and!; [done| |].
  - intros v l fs Hv Hl. split; [|symmetry; by eapply Forall2_length].
    apply comprehension_Forall2 in Hl. by destruct Hv as [-> | ->].
  - intros fs. cbn. apply comprehension_Forall2.
    induction fs; constructor; done.
Qed.

Lemma coerce_embedding_elementwise_witness :
  (list_like (PTuple mixed_embedding) mixed_embedding
   ∧ Forall2 (λ x f, py_float (H := decimal_parsers) x = Ret f)
             mixed_embedding mixed_embedding_floats)
  ∧ _coerce_embedding (H := decimal_parsers) (PTuple mixed_embedding)
    = Ret mixed_embedding_floats
  ∧ length mixed_embedding_floats = length mixed_embedding.
Proof.
  assert (Hl : list_like (PTuple mixed_embedding) mixed_embedding)
    by (by right).
  assert (Hfs : Forall2 (λ x f, py_float (H := decimal_parsers) x = Ret f)
                        mixed_embedding mixed_embedding_floats)
    by (repeat constructor).
  split; [done|].
  exact (proj1 (proj2 (coerce_embedding_elementwise (H := decimal_parsers)))
               _ _ _ Hl Hfs).
Defined.

(** C9. When [end] is given and is below [start], [main] raises its
    [ClickException] before the driver starts: whatever the fuel, the
    world, trace of calls included, is as before. *)
Theorem main_rejects_reversed_range `{StrParsers}
    (milvus : MilvusClient) (table : TidbTable)
    (milvus_collection tidb_table : string) (start e page_size : Z)
    (dry_run : bool) (fuel : nat) (w : world) :
  (e < start)%Z →
  main milvus table milvus_collection tidb_table start (Some e) page_size
       dry_run fuel w
  = Some (Raise (ClickException "--end must be >= --start"), w).
Proof.
  intros He. unfold main.
  by rewrite (proj2 (Z.ltb_lt e start) He).
Qed.

Lemma main_rejects_reversed_range_witness :
  (3 < 7)%Z
  ∧ main (H := decimal_parsers) (snapshot_client Scenarios.ten) append_table
         "chunk" "chunks" 7 (Some 3%Z) 200 false 5 empty_world
    = Some (Raise (ClickException "--end must be >= --start"), empty_world).
Proof.
  split; [lia|].
  apply (main_rejects_reversed_range (H := decimal_parsers)). lia.
Defined.

(* ===================================================================== *)
(** * Properties of the driver                                            *)
(* ===================================================================== *)


Section Claims.
Context `{StrParsers}.
Variables (milvus : MilvusClient) (table : TidbTable).
Variables (milvus_collection : string) (start : Z) (end_ : option Z).
Variable page_size : Z.

Abbreviation run := (migrate_range milvus table milvus_collection start end_ page_size).
Abbreviation rows_of :=
  (Scan.fetched_rows milvus milvus_collection start end_ page_size).

(** C6. If the first fetch returns an empty page, [migrate_range] returns
    [(0, 0, 0)]; the destination table is as before and the only call
    issued is that fetch: no existence probe, no insert. *)
Theorem empty_source_range (dry_run : bool) (fuel : nat) (w : world) :
  milvus_query milvus milvus_collection (_milvus_filter start end_)
               output_fields page_size 0
    = Ret [] →
  run dry_run (S fuel) w
  = Some (Ret (0, 0, 0),
          World (tidb_rows w)
                (trace w ++ [MilvusQuery milvus_collection
                               (_milvus_filter start end_) output_fields
                               page_size 0])).
Proof. intros Hf. by apply loop_empty_source. Qed.

(** [scanned] is the number of rows the run fetched. *)
Lemma scanned_is_fetched (dry_run : bool) (fuel : nat) (w w' : world)
    (scanned skipped inserted : nat) :
  run dry_run fuel w = Some (Ret (scanned, skipped, inserted), w') →
  scanned = length (rows_of fuel 0).
Proof. by intros (ids & _ & -> & _)%loop_counters. Qed.

(** C3. For every run that returns, [scanned >= skipped + inserted]; the
    two sides are equal when every fetched row carries a usable id, and
    the inequality is strict only when some fetched row has none. *)
Theorem counter_conservation (dry_run : bool) (fuel : nat) (w w' : world)
    (scanned skipped inserted : nat) :
  run dry_run fuel w = Some (Ret (scanned, skipped, inserted), w') →
  (skipped + inserted ≤ scanned)%nat
  ∧ (Forall (λ r, usable r = true) (rows_of fuel 0) →
     scanned = skipped + inserted)
  ∧ ((skipped + inserted < scanned)%nat →
     Exists (λ r, usable r = false) (rows_of fuel 0)).
Proof.
  intros (ids & Hids & Hsc & Hsum)%loop_counters.
  apply ids_of_rows_length in Hids.
  pose proof (length_filter (λ r, usable r) (rows_of fuel 0)) as Hle.
  cbn in Hsc, Hsum. split_and!; [lia| |].
  - intros Hall. rewrite (filter_bool_all _ _ Hall) in Hids. lia.
  - intros Hlt. apply filter_bool_short. lia.
Qed.

(** C2 (as amended). For every run that returns, in dry-run mode as in
    normal mode, [scanned] is [skipped + inserted] plus the number of
    fetched rows that carry no usable id. *)
Theorem counters_account_for_missing_ids (dry_run : bool) (fuel : nat)
    (w w' : world) (scanned skipped inserted : nat) :
  run dry_run fuel w = Some (Ret (scanned, skipped, inserted), w') →
  scanned = skipped + inserted
            + length (filter (λ r, ¬ usable r) (rows_of fuel 0)).
Proof.
  intros (ids & Hids & Hsc & Hsum)%loop_counters.
  apply ids_of_rows_length in Hids.
  pose proof (length_filter_split (λ r, usable r) (rows_of fuel 0)) as Hsplit.
  cbn in Hsc, Hsum. lia.
Qed.

(** The probe answers membership in the table, for the ids it is asked
    about. *)
Lemma filter_not_probed rows ids :
  filter (λ i, i ∉ probe_set rows ids) ids
  = filter (λ i, i ∉ stored_ids rows) ids.
Proof.
  assert (Hgen : ∀ l : list Z, (∀ i, i ∈ l → i ∈ ids) →
            filter (λ i, i ∉ probe_set rows ids) l
            = filter (λ i, i ∉ stored_ids rows) l).
  { induction l as [|i l IH]; intros Hl; [done|].
    assert (Hi : i ∈ ids) by (apply Hl; left).
    rewrite !filter_cons, IH by (intros; apply Hl; by right).
    destruct (decide (i ∈ stored_ids rows)) as [Hs|Hs].
    - rewrite decide_False, decide_False; [done|by intros []|].
      intros Hp. apply Hp, elem_of_probe_set. done.
    - rewrite decide_True, decide_True; [done..|].
      by intros [_ ?]%elem_of_probe_set. }
  by apply Hgen.
Qed.

(** C10. In a pass of the loop that goes on to the next page, the batch
    holds one staged record for every row of the page whose id is not in
    the destination, repetitions included, and [inserted] grows by the
    size of the batch: an id [z] absent from the destination that comes
    twice in the page is staged twice and counted twice. Outside dry-run
    mode the whole batch is what the bulk insert receives. *)
Theorem no_intra_page_dedup (dry_run : bool) (o sc sk ins o' sc' sk' ins' : nat)
    (w w' : world) (page : list row) (ids : list Z) (z : Z) :
  milvus_query milvus milvus_collection (_milvus_filter start end_)
               output_fields page_size o
    = Ret page →
  ids_of_rows page = Ret ids →
  z ∉ stored_ids (tidb_rows w) →
  page_step milvus table milvus_collection start end_ page_size dry_run
            o sc sk ins w
    = (Ret (Continue o' sc' sk' ins'), w') →
  ∃ batch,
    c_id <$> batch = filter (λ i, i ∉ stored_ids (tidb_rows w)) ids
    ∧ occurrences z (c_id <$> batch) = occurrences z ids
    ∧ ins' = ins + length batch
    ∧ (dry_run = false → batch ≠ [] →
       ∃ tr, trace w' = tr ++ [TidbBulkInsert batch]).
Proof.
  intros Hf Hids Hz
    (page' & ids' & batch & Hf' & _ & Hids' & Hst & _ & _ & -> & Hw')%page_step_continue.
  unfold Scan.fetch in Hf'. rewrite Hf in Hf'. injection Hf' as <-.
  rewrite Hids in Hids'. injection Hids' as <-.
  apply stage_ids in Hst as (ids' & Hids' & Hbatch & _).
  rewrite Hids in Hids'. injection Hids' as <-.
  cbn in Hbatch. rewrite filter_not_probed in Hbatch.
  exists batch. split_and!; [done| |done|].
  - unfold occurrences. rewrite Hbatch, list_filter_filter.
    f_equal. apply list_filter_iff. intros i. split; [by intros [? _]|].
    by intros ->.
  - intros -> Hne. destruct batch as [|c batch]; [done|].
    destruct Hw' as [_ ->].
    exists (trace w ++ [Scan.fetch_call milvus_collection start end_ page_size o]
              ++ probe_calls ids).
    by rewrite <- !app_assoc.
Qed.

(** C1 (as amended). If a writing run returns and the destination keeps
    what it is given, a second writing run over the same source returns
    too, with [inserted = 0] and [skipped] the number of fetched rows
    that carry a usable id, and leaves the table as the first run left
    it. [skipped] equals [scanned] when every fetched row carries a
    usable id. *)
Theorem second_run_inserts_nothing (fuel : nat) (w0 w1 : world)
    (c1 : nat * nat * nat) :
  durable table →
  run false fuel w0 = Some (Ret c1, w1) →
  ∃ scanned skipped w2,
    run false fuel w1 = Some (Ret (scanned, skipped, 0), w2)
    ∧ tidb_rows w2 = tidb_rows w1
    ∧ scanned = length (rows_of fuel 0)
    ∧ skipped = length (filter (λ r, usable r) (rows_of fuel 0))
    ∧ (Forall (λ r, usable r = true) (rows_of fuel 0) → skipped = scanned).
Proof.
  intros Hdur Hrun.
  pose proof (loop_scan_done _ _ _ _ _ _ _ _ _ _ _ _ _ _ _ Hrun) as Hdone.
  destruct c1 as [[sc1 sk1] ins1].
  pose proof Hrun as (ids & Hids & _)%loop_counters.
  apply loop_stores in Hrun as [_ Hstored]; [|done].
  destruct (loop_all_present milvus table milvus_collection start end_
              page_size false fuel 0 0 0 0 w1 ids Hdone Hids
              (Hstored ids Hids)) as (tr & Hrun2 & _).
  apply ids_of_rows_length in Hids.
  exists (length (rows_of fuel 0)), (length ids), (World (tidb_rows w1) (trace w1 ++ tr)).
  split_and!; [done..|].
  intros Hall. by rewrite Hids, (filter_bool_all _ _ Hall).
Qed.

(** C4 (as amended). A dry run, however it ends, leaves the destination
    table as it is and issues no bulk insert. When no id comes twice
    among the fetched rows and the destination holds, after an insert,
    what it held before and what it was given, the counters a writing
    run returns on the same destination are the counters the dry run
    returns. *)
Theorem dry_run_non_mutation (fuel : nat) (w : world) :
  (∀ res w', run true fuel w = Some (res, w') →
     tidb_rows w' = tidb_rows w
     ∧ ∃ tr, trace w' = trace w ++ tr ∧ Forall read_only tr)
  ∧ (durable table → adds_only table →
     ∀ ids, ids_of_rows (rows_of fuel 0) = Ret ids → NoDup ids →
     ∀ c w1, run false fuel w = Some (Ret c, w1) →
     ∃ w', run true fuel w = Some (Ret c, w')).
Proof.
  split.
  - intros res w'. apply dry_loop_frame.
  - intros Hdur Hadd ids Hids Hnd c w1 Hrun.
    by apply (dry_agrees milvus table milvus_collection start end_ page_size
                fuel Hdur Hadd 0 0 0 0 w w ids c w1).
Qed.
End Claims.

(* ===================================================================== *)
(** * Runs that show the limits of the claims, and runs in their scope    *)
(* ===================================================================== *)


(** C1, the claim as first stated fails when a fetched row has no id: the
    first run returns [(1, 0, 0)] and so does the second, whose [skipped]
    is 0 and not its [scanned], 1. *)
Lemma second_run_skipped_below_scanned :
  ∃ w1 w2,
    migrate orphan_source 200 false empty_world = Some (Ret (1, 0, 0), w1)
    ∧ migrate orphan_source 200 false w1 = Some (Ret (1, 0, 0), w2).
Proof. do 2 eexists. split; vm_compute; reflexivity. Qed.

Lemma second_run_inserts_nothing_witness :
  (durable append_table
   ∧ Scenarios.run 0 None empty_world = Some (Ret (10, 0, 10), after_first_run))
  ∧ ∃ scanned skipped w2,
      Scenarios.run 0 None after_first_run = Some (Ret (scanned, skipped, 0), w2)
      ∧ tidb_rows w2 = tidb_rows after_first_run
      ∧ scanned = length (Scan.fetched_rows (snapshot_client Scenarios.ten)
                                       "chunk" 0 None 4 10 0)
      ∧ skipped = length (filter (λ r, usable r)
                            (Scan.fetched_rows (snapshot_client Scenarios.ten)
                                          "chunk" 0 None 4 10 0))
      ∧ (Forall (λ r, usable r = true)
                (Scan.fetched_rows (snapshot_client Scenarios.ten) "chunk" 0 None 4 10 0)
         → skipped = scanned).
Proof.
  assert (Hrun : Scenarios.run 0 None empty_world
                 = Some (Ret (10, 0, 10), after_first_run))
    by (vm_compute; reflexivity).
  split; [split; [exact append_table_durable | exact Hrun]|].
  exact (second_run_inserts_nothing (H := decimal_parsers) (snapshot_client Scenarios.ten) append_table
           "chunk" 0 None 4 10 empty_world after_first_run (10, 0, 10)
           append_table_durable Hrun).
Defined.

(** C2, the claim as first stated fails when a fetched row has no id: over
    a row with id 1 and a row without id the run returns [scanned = 2],
    [skipped = 0], [inserted = 1], in normal mode and in dry-run mode. *)
Lemma counters_unbalanced_by_missing_id :
  fst <$> migrate mixed_source 200 false empty_world = Some (Ret (2, 0, 1))
  ∧ fst <$> migrate mixed_source 200 true empty_world = Some (Ret (2, 0, 1))
  ∧ 2 ≠ 0 + 1.
Proof. split_and!; [vm_compute; reflexivity..|lia]. Qed.

Lemma counters_account_for_missing_ids_witness :
  (∃ w', migrate mixed_source 200 true empty_world = Some (Ret (2, 0, 1), w'))
  ∧ 2 = 0 + 1 + length (filter (λ r, ¬ usable r)
                           (Scan.fetched_rows mixed_source "chunk" 0 None 200 5 0)).
Proof.
  eassert (Hrun : migrate mixed_source 200 true empty_world
                  = Some (Ret (2, 0, 1), _)) by (vm_compute; reflexivity).
  split; [eexists; exact Hrun|].
  exact (counters_account_for_missing_ids (H := decimal_parsers) mixed_source append_table "chunk" 0
           None 200 true 5 empty_world _ 2 0 1 Hrun).
Defined.

Lemma counter_conservation_witness :
  (∃ w', migrate mixed_source 1 false empty_world = Some (Ret (2, 0, 1), w'))
  ∧ (0 + 1 ≤ 2)%nat
    ∧ (Forall (λ r, usable r = true)
              (Scan.fetched_rows mixed_source "chunk" 0 None 1 5 0) → 2 = 0 + 1)
    ∧ ((0 + 1 < 2)%nat →
       Exists (λ r, usable r = false)
              (Scan.fetched_rows mixed_source "chunk" 0 None 1 5 0)).
Proof.
  eassert (Hrun : migrate mixed_source 1 false empty_world
                  = Some (Ret (2, 0, 1), _)) by (vm_compute; reflexivity).
  split; [eexists; exact Hrun|].
  exact (counter_conservation (H := decimal_parsers) mixed_source append_table "chunk" 0 None 1 false
           5 empty_world _ 2 0 1 Hrun).
Defined.

(** C4, the claim as first stated fails when an id comes back on a later
    page: with id 1 on two pages of one row, the dry run counts two inserts,
    while the writing run inserts the first and skips the second. *)
Lemma dry_run_counts_repeated_id_twice :
  fst <$> migrate twin_source 1 true empty_world = Some (Ret (2, 0, 2))
  ∧ fst <$> migrate twin_source 1 false empty_world = Some (Ret (2, 1, 1)).
Proof. split; vm_compute; reflexivity. Qed.

Lemma dry_run_non_mutation_witness :
  (durable append_table ∧ adds_only append_table
   ∧ ids_of_rows (H := decimal_parsers)
       (Scan.fetched_rows (snapshot_client Scenarios.ten) "chunk" 0 None 4 10 0)
     = Ret [0; 1; 2; 3; 4; 5; 6; 7; 8; 9]%Z
   ∧ NoDup [0; 1; 2; 3; 4; 5; 6; 7; 8; 9]%Z
   ∧ Scenarios.run 0 None empty_world = Some (Ret (10, 0, 10), after_first_run))
  ∧ ∃ w', migrate_range (H := decimal_parsers) (snapshot_client Scenarios.ten)
            append_table "chunk" 0 None 4 true 10 empty_world
          = Some (Ret (10, 0, 10), w').
Proof.
  assert (Hids : ids_of_rows (H := decimal_parsers)
                   (Scan.fetched_rows (snapshot_client Scenarios.ten) "chunk" 0 None 4 10 0)
                 = Ret [0; 1; 2; 3; 4; 5; 6; 7; 8; 9]%Z)
    by (vm_compute; reflexivity).
  assert (Hnd : NoDup [0; 1; 2; 3; 4; 5; 6; 7; 8; 9]%Z)
    by (apply (bool_decide_unpack _); vm_compute; exact I).
  assert (Hrun : Scenarios.run 0 None empty_world
                 = Some (Ret (10, 0, 10), after_first_run))
    by (vm_compute; reflexivity).
  split; [by split_and!; [apply append_table_durable|apply append_table_adds_only|..]|].
  exact (proj2 (dry_run_non_mutation (H := decimal_parsers) (snapshot_client Scenarios.ten) append_table
                  "chunk" 0 None 4 10 empty_world)
               append_table_durable append_table_adds_only _ Hids Hnd _ _ Hrun).
Defined.

Lemma empty_source_range_witness :
  milvus_query (snapshot_client Scenarios.ten) "chunk" (_milvus_filter 20 None)
               output_fields 4 0
    = Ret []
  ∧ migrate_range (H := decimal_parsers) (snapshot_client Scenarios.ten)
      append_table "chunk" 20 None 4 false 1 Scenarios.half_migrated
    = Some (Ret (0, 0, 0),
            World (tidb_rows Scenarios.half_migrated)
                  (trace Scenarios.half_migrated
                   ++ [MilvusQuery "chunk" (_milvus_filter 20 None)
                                   output_fields 4 0])).
Proof.
  assert (Hf : milvus_query (snapshot_client Scenarios.ten) "chunk"
                 (_milvus_filter 20 None) output_fields 4 0 = Ret [])
    by (vm_compute; reflexivity).
  split; [exact Hf|].
  exact (empty_source_range (H := decimal_parsers) (snapshot_client Scenarios.ten) append_table "chunk"
           20 None 4 false 0 Scenarios.half_migrated Hf).
Defined.

Lemma no_intra_page_dedup_witness :
  (milvus_query twin_source "chunk" (_milvus_filter 0 None) output_fields 2 0
     = Ret [row_with_id 1; row_with_id 1]
   ∧ ids_of_rows (H := decimal_parsers) [row_with_id 1; row_with_id 1]
     = Ret [1; 1]%Z
   ∧ (1%Z ∉ stored_ids (tidb_rows empty_world))
   ∧ ∃ w', page_step (H := decimal_parsers) twin_source append_table "chunk"
             0 None 2 true 0 0 0 0 empty_world
           = (Ret (Continue 2 2 0 2), w'))
  ∧ ∃ batch,
      c_id <$> batch
      = filter (λ i, i ∉ stored_ids (tidb_rows empty_world)) [1; 1]%Z
      ∧ occurrences 1 (c_id <$> batch) = occurrences 1 [1; 1]%Z
      ∧ 2 = 0 + length batch
      ∧ (true = false → batch ≠ [] →
         ∃ tr, trace (World [] [MilvusQuery "chunk" "id >= 0" output_fields 2 0;
                                TidbQuery "id IN (1,1)"])
               = tr ++ [TidbBulkInsert batch]).
Proof.
  assert (Hf : milvus_query twin_source "chunk" (_milvus_filter 0 None)
                 output_fields 2 0
               = Ret [row_with_id 1; row_with_id 1]) by (vm_compute; reflexivity).
  assert (Hids : ids_of_rows (H := decimal_parsers)
                   [row_with_id 1; row_with_id 1] = Ret [1; 1]%Z)
    by (vm_compute; reflexivity).
  assert (Hz : 1%Z ∉ stored_ids (tidb_rows empty_world))
    by (intros Hin; by apply elem_of_nil in Hin).
  assert (Hstep : page_step (H := decimal_parsers) twin_source append_table
                    "chunk" 0 None 2 true 0 0 0 0 empty_world
                  = (Ret (Continue 2 2 0 2),
                     World [] [MilvusQuery "chunk" "id >= 0" output_fields 2 0;
                               TidbQuery "id IN (1,1)"]))
    by (vm_compute; reflexivity).
  split; [split_and!; [exact Hf|exact Hids|exact Hz|eexists; exact Hstep]|].
  exact (no_intra_page_dedup (H := decimal_parsers) twin_source append_table "chunk" 0 None 2 true
           0 0 0 0 2 2 0 2 empty_world _ _ _ 1%Z Hf Hids Hz Hstep).
Defined.

(* ===================================================================== *)
(** * More on the engine                                                  *)
(* ===================================================================== *)

Section EngineMore.
Context `{StrParsers}.
Variables (milvus : MilvusClient) (table : TidbTable).
Variables (milvus_collection : string) (start : Z) (end_ : option Z).
Variable page_size : Z.

Abbreviation run' := (migrate_range milvus table milvus_collection start end_ page_size).
Abbreviation loop' := (migrate_loop milvus table milvus_collection start end_ page_size).
Abbreviation step' := (page_step milvus table milvus_collection start end_ page_size).
Abbreviation rows_of' :=
  (Scan.fetched_rows milvus milvus_collection start end_ page_size).
Abbreviation fetch' := (Scan.fetch milvus milvus_collection start end_ page_size).
Abbreviation fetch_call' := (Scan.fetch_call milvus_collection start end_ page_size).


(** What one pass appends to the table. *)
Lemma page_step_appends o sc sk ins w o' sc' sk' ins' w' :
  appending table →
  step' false o sc sk ins w = (Ret (Continue o' sc' sk' ins'), w') →
  ∃ page ids batch,
    fetch' o = Ret page ∧ page ≠ [] ∧ ids_of_rows page = Ret ids
    ∧ o' = o + length page
    ∧ tidb_rows w' = tidb_rows w ++ batch
    ∧ ins' = ins + length batch
    ∧ c_id <$> batch = filter (λ i, i ∉ stored_ids (tidb_rows w)) ids.
Proof.
  intros Happ
    (page & ids & batch & Hf & Hne & Hids & Hst & -> & _ & -> & Hw')%page_step_continue.
  apply stage_ids in Hst as (ids' & Hids' & Hbatch & _).
  rewrite Hids in Hids'. injection Hids' as <-.
  cbn in Hbatch. rewrite filter_not_probed in Hbatch.
  exists page, ids, batch. split_and!; try done.
  destruct batch as [|c batch].
  - subst w'. cbn. by rewrite app_nil_r.
  - destruct Hw' as [Hsink _]. by apply Happ in Hsink.
Qed.

Lemma loop_appends fuel :
  appending table →
  ∀ o sc sk ins w sc' sk' ins' w',
    loop' false fuel o sc sk ins w = Some (Ret (sc', sk', ins'), w') →
    ∃ added, tidb_rows w' = tidb_rows w ++ added
             ∧ ins' = ins + length added.
Proof.
  intros Happ.
  induction fuel as [|fuel IH]; intros o sc sk ins w sc' sk' ins' w'; [done|].
  cbn [migrate_loop].
  destruct (step' false o sc sk ins w) as [[[|o1 sc1 sk1 ins1]|e] w1] eqn:Hstep;
    [| |by intros [= ?]].
  - intros [= <- <- <- <-]. apply page_step_break in Hstep as [_ ->].
    exists []. cbn. by rewrite app_nil_r, Nat.add_0_r.
  - intros (added & Hrows & ->)%IH.
    apply page_step_appends in Hstep
      as (page & ids & batch & _ & _ & _ & _ & Hw1 & -> & _); [|done].
    exists (batch ++ added). rewrite Hrows, Hw1, <- app_assoc, length_app.
    split; [done|lia].
Qed.

Lemma loop_keeps_distinct fuel :
  appending table →
  ∀ o sc sk ins w c w' ids,
    loop' false fuel o sc sk ins w = Some (Ret c, w') →
    ids_of_rows (rows_of' fuel o) = Ret ids → NoDup ids →
    NoDup (stored_ids (tidb_rows w)) →
    NoDup (stored_ids (tidb_rows w')).
Proof.
  intros Happ.
  induction fuel as [|fuel IH]; intros o sc sk ins w c w' ids; [done|].
  cbn [migrate_loop].
  destruct (step' false o sc sk ins w) as [[[|o1 sc1 sk1 ins1]|e] w1] eqn:Hstep;
    [| |by intros [= ?]].
  - intros [= <- <-] _ _. by apply page_step_break in Hstep as [_ ->].
  - intros Hloop Hids Hnd Hw.
    apply page_step_appends in Hstep
      as (page & ip & batch & Hf & Hne & Hip & -> & Hw1 & _ & Hbatch); [|done].
    rewrite (fetched_rows_page _ _ _ _ _ _ _ _ Hf Hne) in Hids.
    apply ids_of_rows_app_inv in Hids as (ip' & iq & Hip' & Hiq & ->).
    rewrite Hip in Hip'. injection Hip' as <-.
    apply NoDup_app in Hnd as (Hndp & _ & Hndq).
    eapply IH; [exact Hloop|exact Hiq|exact Hndq|].
    unfold stored_ids. rewrite Hw1, fmap_app, Hbatch.
    apply NoDup_app. split_and!; [done| |by apply NoDup_filter].
    intros z Hz [Hnew _]%list_elem_of_filter. by apply Hnew.
Qed.

(** X2. After a writing run that returns, on a destination that keeps
    what it is given, every usable id the run fetched is in the table,
    and so is every id that was there before. *)
Theorem migration_complete (fuel : nat) (w w' : world) (c : nat * nat * nat) :
  durable table →
  run' false fuel w = Some (Ret c, w') →
  ∃ ids, ids_of_rows (rows_of' fuel 0) = Ret ids
    ∧ (∀ z, z ∈ ids → z ∈ stored_ids (tidb_rows w'))
    ∧ (∀ z, z ∈ stored_ids (tidb_rows w) → z ∈ stored_ids (tidb_rows w')).
Proof.
  intros Hdur Hrun. destruct c as [[sc sk] ins].
  pose proof Hrun as (ids & Hids & _)%loop_counters.
  apply loop_stores in Hrun as [Hold Hnew]; [|done].
  exists ids. split_and!; [done| |done]. by apply Hnew.
Qed.

(** X3. On a destination that appends what it accepts, the table after a
    writing run that returns is the table before followed by exactly
    [inserted] new rows: the rows that were there are neither changed nor
    moved, and [inserted] counts rows really written. *)
Theorem inserted_counts_appended_rows (fuel : nat) (w w' : world)
    (scanned skipped inserted : nat) :
  appending table →
  run' false fuel w = Some (Ret (scanned, skipped, inserted), w') →
  ∃ added, tidb_rows w' = tidb_rows w ++ added ∧ length added = inserted.
Proof.
  intros Happ (added & Hrows & Hins)%loop_appends; [|done].
  exists added. split; [done|]. cbn in Hins. lia.
Qed.

(** X4. Migration creates no duplicate: when the ids in the table are
    pairwise distinct and so are the usable ids the run fetches, the ids in
    the table after a writing run that returns are pairwise distinct, on a
    destination that appends what it accepts and checks nothing itself. *)
Theorem migration_creates_no_duplicate (fuel : nat) (w w' : world)
    (c : nat * nat * nat) (ids : list Z) :
  appending table →
  run' false fuel w = Some (Ret c, w') →
  ids_of_rows (rows_of' fuel 0) = Ret ids → NoDup ids →
  NoDup (stored_ids (tidb_rows w)) →
  NoDup (stored_ids (tidb_rows w')).
Proof. intros Happ Hrun. by eapply loop_keeps_distinct. Qed.

(** The calls of one pass. *)
Lemma page_step_calls dry_run o sc sk ins w res w' :
  step' dry_run o sc sk ins w = (res, w') →
  ∃ tr, trace w' = trace w ++ tr
        ∧ Forall (expected_call milvus_collection start end_ page_size dry_run) tr.
Proof.
  rewrite page_step_eq. cbn zeta.
  assert (Hfetch : Forall (expected_call milvus_collection start end_ page_size
                             dry_run) [fetch_call' o])
    by (by repeat constructor).
  assert (Hprobe : ∀ ids,
            Forall (expected_call milvus_collection start end_ page_size dry_run)
                   ([fetch_call' o] ++ probe_calls ids)).
  { intros ids. apply Forall_app; split; [done|].
    destruct ids as [|z ids]; [constructor|].
    repeat constructor. by exists (z :: ids). }
  destruct (fetch' o) as [[|r page]|e];
    [intros [= <- <-]; by exists [fetch_call' o]| |
     intros [= <- <-]; by exists [fetch_call' o]].
  destruct (ids_of_rows _) as [ids|e];
    [|intros [= <- <-]; by exists [fetch_call' o]].
  destruct (stage _ _ _ _) as [[[|c batch] sk']|e];
    [intros [= <- <-]; exists ([fetch_call' o] ++ probe_calls ids);
     cbn [trace]; by rewrite <- app_assoc| |
     intros [= <- <-]; exists ([fetch_call' o] ++ probe_calls ids);
     cbn [trace]; by rewrite <- app_assoc].
  destruct dry_run.
  - intros [= <- <-]. exists ([fetch_call' o] ++ probe_calls ids).
    cbn [trace]. by rewrite <- app_assoc.
  - assert (Hall : Forall (expected_call milvus_collection start end_ page_size
                             false)
                     (([fetch_call' o] ++ probe_calls ids)
                      ++ [TidbBulkInsert (c :: batch)])).
    { apply Forall_app; split; [done|]. by repeat constructor. }
    destruct (bulk_insert_sem _ _ _); intros [= <- <-];
      exists (([fetch_call' o] ++ probe_calls ids) ++ [TidbBulkInsert (c :: batch)]);
      cbn [trace]; by rewrite <- !app_assoc.
Qed.

Lemma loop_calls dry_run fuel :
  ∀ o sc sk ins w res w',
    loop' dry_run fuel o sc sk ins w = Some (res, w') →
    ∃ tr, trace w' = trace w ++ tr
          ∧ Forall (expected_call milvus_collection start end_ page_size dry_run) tr.
Proof.
  induction fuel as [|fuel IH]; intros o sc sk ins w res w'; [done|].
  cbn [migrate_loop].
  destruct (step' dry_run o sc sk ins w) as [[[|o1 sc1 sk1 ins1]|e] w1] eqn:Hstep.
  - intros [= <- <-]. by apply page_step_calls in Hstep.
  - intros (tr & Htr & Hok)%IH.
    apply page_step_calls in Hstep as (tr1 & Htr1 & Hok1).
    exists (tr1 ++ tr). rewrite Htr, Htr1, <- app_assoc.
    split; [done|]. by apply Forall_app.
  - intros [= <- <-]. by apply page_step_calls in Hstep.
Qed.

(** X5. Whatever its outcome, a run only issues fetches on its own
    collection, with the filter of its own range, the seven output fields
    and its page size; it never probes about an empty list of ids, never
    hands an empty batch to the bulk insert, and never inserts in dry-run
    mode. *)
Theorem run_issues_expected_calls (dry_run : bool) (fuel : nat) (w w' : world)
    (res : outcome (nat * nat * nat)) :
  run' dry_run fuel w = Some (res, w') →
  ∃ tr, trace w' = trace w ++ tr
        ∧ Forall (expected_call milvus_collection start end_ page_size dry_run) tr.
Proof. apply loop_calls. Qed.

(** Every row that is staged has been converted. *)
Lemma stage_converts existing page to_insert skipped res :
  stage existing page to_insert skipped = Ret res →
  ∀ r z, r ∈ page → usable r = true →
         py_int (dict_get r "id" PNone) = Ret z → z ∉ existing →
         ∃ c, staged_record r z = Ret c.
Proof.
  revert to_insert skipped.
  induction page as [|r0 page IH]; intros to_insert skipped Hst r z Hr;
    [by apply elem_of_nil in Hr|].
  cbn [stage] in Hst. rewrite rid_is_None in Hst.
  apply elem_of_cons in Hr as [->|Hr].
  - intros Hu Hz Hnew. rewrite Hu, Hz in Hst. cbn in Hst.
    rewrite decide_False in Hst by done.
    destruct (staged_record r0 z) as [c|]; [by exists c|done].
  - destruct (usable r0); cbn [negb] in Hst; [|by eapply IH].
    destruct (py_int _) as [z0|]; [|done]. cbn in Hst.
    destruct (decide (z0 ∈ existing)); [by eapply IH|].
    destruct (staged_record r0 z0); [|done]. by eapply IH.
Qed.

(** X6. A row that is new to the destination and whose embedding cannot be
    converted makes the pass over its page raise, in dry-run mode as in
    normal mode, before any bulk insert: no row of the page is written. *)
Theorem bad_embedding_aborts_page (dry_run : bool) (o sc sk ins : nat)
    (w : world) (page : list row) (r : row) (z : Z) (e0 : exn) :
  milvus_query milvus milvus_collection (_milvus_filter start end_)
               output_fields page_size o = Ret page →
  r ∈ page → usable r = true →
  py_int (dict_get r "id" PNone) = Ret z →
  z ∉ stored_ids (tidb_rows w) →
  _coerce_embedding (dict_get r "embedding" PNone) = Raise e0 →
  ∃ e w', step' dry_run o sc sk ins w = (Raise e, w')
          ∧ tidb_rows w' = tidb_rows w
          ∧ ∃ tr, trace w' = trace w ++ tr ∧ Forall read_only tr.
Proof.
  intros Hf Hr Hu Hz Hnew Hemb.
  assert (Hfetch : Forall read_only [fetch_call' o]) by (by repeat constructor).
  rewrite page_step_eq. cbn zeta. unfold Scan.fetch. rewrite Hf.
  destruct page as [|r0 page]; [by apply elem_of_nil in Hr|].
  destruct (ids_of_rows _) as [ids|e] eqn:Hids.
  - destruct (stage _ _ _ _) as [res|e] eqn:Hst.
    + destruct (stage_converts _ _ _ _ _ Hst r z Hr Hu Hz) as [c Hc].
      { by intros [_ ?]%elem_of_probe_set. }
      unfold staged_record in Hc. rewrite Hemb in Hc.
      destruct (py_int (py_or _ _)); by cbn in Hc.
    + exists e, (World (tidb_rows w) ((trace w ++ [fetch_call' o]) ++ probe_calls ids)).
      split_and!; [done..|].
      exists ([fetch_call' o] ++ probe_calls ids). rewrite <- app_assoc.
      split; [done|]. apply Forall_app; split; [done|].
      destruct ids; by repeat constructor.
  - exists e, (World (tidb_rows w) (trace w ++ [fetch_call' o])).
    split_and!; [done..|]. by exists [fetch_call' o].
Qed.

End EngineMore.

Section SnapshotScan.
Context `{StrParsers}.
Variables (rows : list row) (table : TidbTable).
Variables (milvus_collection : string) (start : Z) (end_ : option Z).
Variables (page_size : Z) (dry_run : bool).

Abbreviation admitted := (snapshot_in_range rows start end_).

(** A page and what follows it make up what was left. *)
Lemma take_then_drop {A} (n : nat) (l : list A) :
  take n l ++ drop (length (take n l)) l = l.
Proof.
  destruct (decide (n ≤ length l)%nat) as [Hle|Hgt].
  - rewrite length_take, Nat.min_l by done. apply take_drop.
  - rewrite take_ge by lia. rewrite drop_all. apply app_nil_r.
Qed.

Lemma snapshot_fetched_rows fuel :
  (0 < page_size)%Z →
  ∀ o, (length admitted - o < fuel)%nat →
       Scan.fetched_rows (snapshot_client rows) milvus_collection start end_
                         page_size fuel o
       = drop o admitted.
Proof.
  intros Hpos. induction fuel as [|fuel IH]; intros o Hfuel; [lia|].
  cbn [Scan.fetched_rows]. rewrite snapshot_fetch.
  rewrite (proj2 (Z.ltb_ge page_size 0)) by lia.
  destruct (take (Z.to_nat page_size) (drop o admitted)) as [|r page] eqn:Hpage.
  - destruct (Z.to_nat page_size) as [|n] eqn:Hn; [lia|].
    by destruct (drop o admitted).
  - rewrite IH.
    + rewrite <- Hpage, <- drop_drop. apply take_then_drop.
    + assert (o < length admitted)%nat.
      { destruct (decide (o < length admitted)%nat) as [|Hge]; [done|].
        rewrite drop_ge in Hpage by lia. by rewrite take_nil in Hpage. }
      cbn [length]. lia.
Qed.

(** X8. Over a source that answers a fetch with the rows its filter admits,
    from [offset] on and at most [limit] of them, a run with a page size of
    one or more ends within one fetch more than the source has rows, and
    what it has fetched by then is every admitted row, once and in the
    order of the source: when it returns, [scanned] is their number. *)
Theorem snapshot_scan_exhaustive (w : world) :
  (0 < page_size)%Z →
  is_Some (migrate_range (snapshot_client rows) table milvus_collection start
                         end_ page_size dry_run (S (length rows)) w)
  ∧ Scan.fetched_rows (snapshot_client rows) milvus_collection start end_
                      page_size (S (length rows)) 0
    = admitted
  ∧ ∀ scanned skipped inserted w',
      migrate_range (snapshot_client rows) table milvus_collection start end_
                    page_size dry_run (S (length rows)) w
      = Some (Ret (scanned, skipped, inserted), w') →
      scanned = length admitted.
Proof.
  intros Hpos.
  assert (Hlen : (length admitted ≤ length rows)%nat)
    by apply (length_filter _ rows).
  assert (Hrows : Scan.fetched_rows (snapshot_client rows) milvus_collection
                    start end_ page_size (S (length rows)) 0 = admitted).
  { rewrite snapshot_fetched_rows by (done || lia). apply drop_0. }
  split_and!; [apply snapshot_run_terminates|done|].
  intros scanned skipped inserted w' (ids & _ & Hsc & _)%loop_counters.
  rewrite Hrows in Hsc. cbn in Hsc. lia.
Qed.
End SnapshotScan.

Lemma append_table_appending : appending append_table.
Proof. by intros batch rows rows' [= <-]. Qed.

Lemma pk_table_appending : appending pk_table.
Proof. intros batch rows rows'. cbn. case_decide; [|done]. by intros [= <-]. Qed.

Lemma migration_complete_witness :
  (durable append_table
   ∧ Scenarios.run 0 None empty_world = Some (Ret (10, 0, 10), after_first_run))
  ∧ ∃ ids,
      ids_of_rows (H := decimal_parsers)
        (Scan.fetched_rows (snapshot_client Scenarios.ten) "chunk" 0 None 4 10 0)
      = Ret ids
      ∧ (∀ z, z ∈ ids → z ∈ stored_ids (tidb_rows after_first_run))
      ∧ (∀ z, z ∈ stored_ids (tidb_rows empty_world) →
              z ∈ stored_ids (tidb_rows after_first_run)).
Proof.
  assert (Hrun : Scenarios.run 0 None empty_world
                 = Some (Ret (10, 0, 10), after_first_run))
    by (vm_compute; reflexivity).
  split; [split; [exact append_table_durable | exact Hrun]|].
  exact (migration_complete (H := decimal_parsers) (snapshot_client Scenarios.ten)
           append_table "chunk" 0 None 4 10 empty_world after_first_run
           (10, 0, 10) append_table_durable Hrun).
Defined.

Lemma inserted_counts_appended_rows_witness :
  (appending append_table
   ∧ Scenarios.run 0 None Scenarios.half_migrated
     = Some (Ret (10, 5, 5), after_top_up))
  ∧ ∃ added,
      tidb_rows after_top_up = tidb_rows Scenarios.half_migrated ++ added
      ∧ length added = 5.
Proof.
  assert (Hrun : Scenarios.run 0 None Scenarios.half_migrated
                 = Some (Ret (10, 5, 5), after_top_up))
    by (vm_compute; reflexivity).
  split; [split; [exact append_table_appending | exact Hrun]|].
  exact (inserted_counts_appended_rows (H := decimal_parsers)
           (snapshot_client Scenarios.ten) append_table "chunk" 0 None 4 10
           Scenarios.half_migrated after_top_up 10 5 5 append_table_appending
           Hrun).
Defined.

Lemma migration_creates_no_duplicate_witness :
  (appending append_table
   ∧ Scenarios.run 0 None Scenarios.half_migrated
     = Some (Ret (10, 5, 5), after_top_up)
   ∧ ids_of_rows (H := decimal_parsers)
       (Scan.fetched_rows (snapshot_client Scenarios.ten) "chunk" 0 None 4 10 0)
     = Ret [0; 1; 2; 3; 4; 5; 6; 7; 8; 9]%Z
   ∧ NoDup [0; 1; 2; 3; 4; 5; 6; 7; 8; 9]%Z
   ∧ NoDup (stored_ids (tidb_rows Scenarios.half_migrated)))
  ∧ NoDup (stored_ids (tidb_rows after_top_up)).
Proof.
  assert (Hrun : Scenarios.run 0 None Scenarios.half_migrated
                 = Some (Ret (10, 5, 5), after_top_up))
    by (vm_compute; reflexivity).
  assert (Hids : ids_of_rows (H := decimal_parsers)
                   (Scan.fetched_rows (snapshot_client Scenarios.ten) "chunk" 0
                                      None 4 10 0)
                 = Ret [0; 1; 2; 3; 4; 5; 6; 7; 8; 9]%Z)
    by (vm_compute; reflexivity).
  assert (Hnd : NoDup [0; 1; 2; 3; 4; 5; 6; 7; 8; 9]%Z)
    by (apply (bool_decide_unpack _); vm_compute; exact I).
  assert (Hw : NoDup (stored_ids (tidb_rows Scenarios.half_migrated)))
    by (apply (bool_decide_unpack _); vm_compute; exact I).
  split; [by split_and!; [apply append_table_appending|..]|].
  exact (migration_creates_no_duplicate (H := decimal_parsers)
           (snapshot_client Scenarios.ten) append_table "chunk" 0 None 4 10
           Scenarios.half_migrated after_top_up (10, 5, 5) _
           append_table_appending Hrun Hids Hnd Hw).
Defined.

Lemma run_issues_expected_calls_witness :
  Scenarios.run 0 None Scenarios.half_migrated
  = Some (Ret (10, 5, 5), after_top_up)
  ∧ ∃ tr, trace after_top_up = trace Scenarios.half_migrated ++ tr
          ∧ Forall (expected_call "chunk" 0 None 4 false) tr.
Proof.
  assert (Hrun : Scenarios.run 0 None Scenarios.half_migrated
                 = Some (Ret (10, 5, 5), after_top_up))
    by (vm_compute; reflexivity).
  split; [exact Hrun|].
  exact (run_issues_expected_calls (H := decimal_parsers)
           (snapshot_client Scenarios.ten) append_table "chunk" 0 None 4 false 10
           Scenarios.half_migrated after_top_up _ Hrun).
Defined.

Lemma bad_embedding_aborts_page_witness :
  (milvus_query bad_embedding_source "chunk" (_milvus_filter 0 None)
                output_fields 200 0
   = Ret [row_with_id 1; bad_embedding_row]
   ∧ bad_embedding_row ∈ [row_with_id 1; bad_embedding_row]
   ∧ usable bad_embedding_row = true
   ∧ py_int (H := decimal_parsers) (dict_get bad_embedding_row "id" PNone)
     = Ret 2%Z
   ∧ (2%Z ∉ stored_ids (tidb_rows empty_world))
   ∧ _coerce_embedding (H := decimal_parsers)
       (dict_get bad_embedding_row "embedding" PNone) = Raise TypeError)
  ∧ ∃ e w',
      page_step (H := decimal_parsers) bad_embedding_source append_table "chunk"
                0 None 200 true 0 0 0 0 empty_world = (Raise e, w')
      ∧ tidb_rows w' = tidb_rows empty_world
      ∧ ∃ tr, trace w' = trace empty_world ++ tr ∧ Forall read_only tr.
Proof.
  assert (Hf : milvus_query bad_embedding_source "chunk" (_milvus_filter 0 None)
                 output_fields 200 0
               = Ret [row_with_id 1; bad_embedding_row])
    by (vm_compute; reflexivity).
  assert (Hr : bad_embedding_row ∈ [row_with_id 1; bad_embedding_row])
    by (right; left).
  assert (Hu : usable bad_embedding_row = true) by (vm_compute; reflexivity).
  assert (Hz : py_int (H := decimal_parsers)
                 (dict_get bad_embedding_row "id" PNone) = Ret 2%Z)
    by (vm_compute; reflexivity).
  assert (Hnew : 2%Z ∉ stored_ids (tidb_rows empty_world))
    by (intros Hin; by apply elem_of_nil in Hin).
  assert (Hemb : _coerce_embedding (H := decimal_parsers)
                   (dict_get bad_embedding_row "embedding" PNone)
                 = Raise TypeError)
    by (vm_compute; reflexivity).
  split; [by split_and!|].
  exact (bad_embedding_aborts_page (H := decimal_parsers) bad_embedding_source
           append_table "chunk" 0 None 200 true 0 0 0 0 empty_world _ _ _ _
           Hf Hr Hu Hz Hnew Hemb).
Defined.


Lemma snapshot_scan_exhaustive_witness :
  (0 < 4)%Z
  ∧ is_Some (migrate_range (H := decimal_parsers) (snapshot_client Scenarios.ten)
               append_table "chunk" 5 (Some 8%Z) 4 false
               (S (length Scenarios.ten)) empty_world)
    ∧ Scan.fetched_rows (snapshot_client Scenarios.ten) "chunk" 5 (Some 8%Z) 4
                        (S (length Scenarios.ten)) 0
      = snapshot_in_range Scenarios.ten 5 (Some 8%Z)
    ∧ ∀ scanned skipped inserted w',
        migrate_range (H := decimal_parsers) (snapshot_client Scenarios.ten)
          append_table "chunk" 5 (Some 8%Z) 4 false (S (length Scenarios.ten))
          empty_world
        = Some (Ret (scanned, skipped, inserted), w') →
        scanned = length (snapshot_in_range Scenarios.ten 5 (Some 8%Z)).
Proof.
  split; [lia|].
  apply (snapshot_scan_exhaustive (H := decimal_parsers)). lia.
Defined.

(* ===================================================================== *)
(** * The start-up code                                                   *)
(* ===================================================================== *)

Module StartupFacts.
Import Startup.

Lemma lookup_load_env environ dotenv k :
  _load_env environ dotenv !! k = env_value environ dotenv k.
Proof.
  unfold _load_env, env_value. rewrite lookup_union.
  destruct (environ !! k), (dotenv !! k); done.
Qed.

Lemma blank_false v : blank v = false ↔ ∃ s, v = Some s ∧ s ≠ "".
Proof.
  destruct v as [s|]; cbn.
  - rewrite String.eqb_neq. split; [by exists s|by intros (? & [= ->] & ?)].
  - split; [done|by intros (? & ? & ?)].
Qed.

Lemma blank_true v : blank v = true ↔ v = None ∨ v = Some "".
Proof.
  destruct v as [s|]; cbn.
  - rewrite String.eqb_eq. split; [intros ->; by right|by intros [|[= ->]]].
  - split; [by left|done].
Qed.

Section Clients.
Context `{StrParsers}.
Variable dep : Deployment.
Variables environ dotenv : gmap string string.

Abbreviation value := (env_value environ dotenv).

Lemma milvus_client_missing (calls : list api_call) :
  blank (value "MILVUS_HOST") || blank (value "MILVUS_GRPC_PORT") = true →
  _milvus_client dep environ dotenv calls
  = (Failed (Builtin (ClickException
       "Missing MILVUS_HOST / MILVUS_GRPC_PORT in env or .env")), calls).
Proof.
  intros Hb. unfold _milvus_client. cbn zeta.
  by rewrite !lookup_load_env, Hb.
Qed.

Lemma milvus_client_connects (calls : list api_call) (host port : string) :
  value "MILVUS_HOST" = Some host → host ≠ "" →
  value "MILVUS_GRPC_PORT" = Some port → port ≠ "" →
  _milvus_client dep environ dotenv calls
  = (of_outcome (milvus_at dep (MilvusConn ("http://" +:+ host +:+ ":" +:+ port)
                                           "root:Milvus")),
     calls ++ [MilvusConnect (MilvusConn ("http://" +:+ host +:+ ":" +:+ port)
                                         "root:Milvus")]).
Proof.
  intros Hh Hhe Hp Hpe. unfold _milvus_client. cbn zeta.
  rewrite !lookup_load_env, Hh, Hp.
  rewrite (proj2 (blank_false (Some host))) by (by exists host).
  rewrite (proj2 (blank_false (Some port))) by (by exists port).
  done.
Qed.

Lemma tidb_client_missing (enable_ssl : bool) (calls : list api_call) :
  blank (value "DB_HOST") || blank (value "DB_PORT")
  || blank (value "DB_USERNAME") || blank (value "DB_DATABASE") = true →
  _tidb_client dep environ dotenv enable_ssl calls
  = (Failed (Builtin (ClickException
       "Missing one of DB_HOST / DB_PORT / DB_USERNAME / DB_DATABASE in env or .env")),
     calls).
Proof.
  intros Hb. unfold _tidb_client. cbn zeta.
  by rewrite !lookup_load_env, Hb.
Qed.

Lemma tidb_client_reads_port (enable_ssl : bool) (calls : list api_call)
    (host port username database : string) :
  value "DB_HOST" = Some host → host ≠ "" →
  value "DB_PORT" = Some port → port ≠ "" →
  value "DB_USERNAME" = Some username → username ≠ "" →
  value "DB_DATABASE" = Some database → database ≠ "" →
  _tidb_client dep environ dotenv enable_ssl calls
  = match int_of_str port with
    | Raise e => (Failed (Builtin e), calls)
    | Ret port_int =>
        (of_outcome (tidb_at dep (TidbConn host port_int username
                                    (default "" (value "DB_PASSWORD")) database
                                    enable_ssl true)),
         calls ++ [TidbConnect (TidbConn host port_int username
                                  (default "" (value "DB_PASSWORD")) database
                                  enable_ssl true)])
    end.
Proof.
  intros Hh Hhe Hp Hpe Hu Hue Hd Hde. unfold _tidb_client. cbn zeta.
  rewrite !lookup_load_env, Hh, Hp, Hu, Hd.
  rewrite (proj2 (blank_false (Some host))) by (by exists host).
  rewrite (proj2 (blank_false (Some port))) by (by exists port).
  rewrite (proj2 (blank_false (Some username))) by (by exists username).
  rewrite (proj2 (blank_false (Some database))) by (by exists database).
  cbn [default from_option orb id].
  unfold mbind, T_bind, quiet, call.
  by destruct (int_of_str port).
Qed.

(** X9. [_milvus_client] connects, once and to [http://host:port] with
    the fixed token, exactly when [MILVUS_HOST] and [MILVUS_GRPC_PORT] both
    have a non-empty value, the process environment coming before the
    [.env] file; otherwise it raises its [ClickException] and contacts
    nobody. *)
Theorem milvus_client_needs_host_and_port (calls : list api_call) :
  ((value "MILVUS_HOST" = None ∨ value "MILVUS_HOST" = Some ""
    ∨ value "MILVUS_GRPC_PORT" = None ∨ value "MILVUS_GRPC_PORT" = Some "")
   ∧ _milvus_client dep environ dotenv calls
     = (Failed (Builtin (ClickException
          "Missing MILVUS_HOST / MILVUS_GRPC_PORT in env or .env")), calls))
  ∨ (∃ host port,
       value "MILVUS_HOST" = Some host ∧ host ≠ ""
       ∧ value "MILVUS_GRPC_PORT" = Some port ∧ port ≠ ""
       ∧ let conn := MilvusConn ("http://" +:+ host +:+ ":" +:+ port)
                                "root:Milvus" in
         _milvus_client dep environ dotenv calls
         = (of_outcome (milvus_at dep conn), calls ++ [MilvusConnect conn])).
Proof.
  destruct (blank (value "MILVUS_HOST")) eqn:Hh.
  { left. split; [apply blank_true in Hh; tauto|].
    apply milvus_client_missing. by rewrite Hh. }
  destruct (blank (value "MILVUS_GRPC_PORT")) eqn:Hp.
  { left. split; [apply blank_true in Hp; tauto|].
    apply milvus_client_missing. by rewrite Hh, Hp. }
  right. apply blank_false in Hh as (host & Hh & ?).
  apply blank_false in Hp as (port & Hp & ?).
  exists host, port. split_and!; try done.
  by apply milvus_client_connects.
Qed.

(** X10. [_tidb_client] asks for [DB_HOST], [DB_PORT], [DB_USERNAME] and
    [DB_DATABASE]: when one has no value or the empty one it raises its
    [ClickException], before it reads the port as a number and without
    contacting anybody. [DB_PASSWORD] is not asked for: without it the
    password is empty. With the four, it connects once, with
    [ensure_db] set, unless [int(port)] raises. *)
Theorem tidb_client_needs_four_variables (enable_ssl : bool)
    (calls : list api_call) :
  ((∃ k, k ∈ ["DB_HOST"; "DB_PORT"; "DB_USERNAME"; "DB_DATABASE"]
         ∧ (value k = None ∨ value k = Some ""))
   ∧ _tidb_client dep environ dotenv enable_ssl calls
     = (Failed (Builtin (ClickException
          "Missing one of DB_HOST / DB_PORT / DB_USERNAME / DB_DATABASE in env or .env")),
        calls))
  ∨ (∃ host port username database,
       value "DB_HOST" = Some host ∧ host ≠ ""
       ∧ value "DB_PORT" = Some port ∧ port ≠ ""
       ∧ value "DB_USERNAME" = Some username ∧ username ≠ ""
       ∧ value "DB_DATABASE" = Some database ∧ database ≠ ""
       ∧ match int_of_str port with
         | Raise e =>
             _tidb_client dep environ dotenv enable_ssl calls
             = (Failed (Builtin e), calls)
         | Ret port_int =>
             let conn := TidbConn host port_int username
                                  (default "" (value "DB_PASSWORD")) database
                                  enable_ssl true in
             _tidb_client dep environ dotenv enable_ssl calls
             = (of_outcome (tidb_at dep conn), calls ++ [TidbConnect conn])
         end).
Proof.
  destruct (blank (value "DB_HOST")) eqn:Hh.
  { left. split; [|apply tidb_client_missing; by rewrite Hh].
    exists "DB_HOST". split; [repeat constructor|by apply blank_true]. }
  destruct (blank (value "DB_PORT")) eqn:Hp.
  { left. split; [|apply tidb_client_missing; by rewrite Hh, Hp].
    exists "DB_PORT". split; [repeat constructor|by apply blank_true]. }
  destruct (blank (value "DB_USERNAME")) eqn:Hu.
  { left. split; [|apply tidb_client_missing; by rewrite Hh, Hp, Hu].
    exists "DB_USERNAME". split; [repeat constructor|by apply blank_true]. }
  destruct (blank (value "DB_DATABASE")) eqn:Hd.
  { left. split; [|apply tidb_client_missing; by rewrite Hh, Hp, Hu, Hd].
    exists "DB_DATABASE". split; [repeat constructor|by apply blank_true]. }
  right.
  apply blank_false in Hh as (host & Hh & ?).
  apply blank_false in Hp as (port & Hp & ?).
  apply blank_false in Hu as (username & Hu & ?).
  apply blank_false in Hd as (database & Hd & ?).
  exists host, port, username, database. split_and!; try done.
  rewrite (tidb_client_reads_port enable_ssl calls host port username database)
    by done.
  by destruct (int_of_str port).
Qed.
End Clients.

Section Schema.
Context `{StrParsers}.

Lemma jiter_fields (fs : list jval) : jiter (jor (JList fs) (JList [])) = Done fs.
Proof. by destruct fs. Qed.

Lemma other_field_name (name : string) (f : jval) :
  other_field name f →
  ∃ n, jget f "name" JNone = Done n ∧ is_str name n = false.
Proof.
  intros (items & -> & Hname). cbn [jget].
  exists (default JNone (assoc "name" items)). split; [done|].
  destruct (assoc "name" items) as [[]|]; try done.
  cbn. apply String.eqb_neq. by intros ->.
Qed.

Lemma first_named_none (name : string) (fs : list jval) :
  Forall (other_field name) fs → first_named name fs = Done JNone.
Proof.
  induction 1 as [|f fs Hf Hfs IH]; [done|].
  cbn [first_named]. apply other_field_name in Hf as (n & -> & Hn).
  cbn. by rewrite Hn.
Qed.

Lemma first_named_found (name : string) (before after : list jval)
    (items : list (string * jval)) :
  Forall (other_field name) before →
  assoc "name" items = Some (JStr name) →
  first_named name (before ++ JDict items :: after) = Done (JDict items).
Proof.
  intros Hbefore Hname.
  induction Hbefore as [|f fs Hf Hfs IH]; cbn [app first_named].
  - cbn [jget]. rewrite Hname. cbn -[String.eqb].
    by rewrite String.eqb_refl.
  - apply other_field_name in Hf as (n & -> & Hn). cbn. by rewrite Hn.
Qed.

Lemma named_field_truthy (name : string) (items : list (string * jval)) :
  assoc "name" items = Some (JStr name) →
  jor (JDict items) (JDict []) = JDict items.
Proof. by destruct items. Qed.

(** X11. The width is 1536 whenever the description gives none: when it
    has no [fields] entry, or one that is [None] or empty; when no field is
    named [embedding]; when the first field of that name has no [params]
    entry, or has parameters without [dim]. *)
Theorem embedding_dim_defaults_to_1536 (desc : list (string * jval)) :
  ((∀ v, assoc "fields" desc = Some v → jtruthy v = false) →
   embedding_dim (JDict desc) = Done 1536%Z)
  ∧ (∀ fs, assoc "fields" desc = Some (JList fs) →
           Forall (other_field "embedding") fs →
           embedding_dim (JDict desc) = Done 1536%Z)
  ∧ (∀ before field after,
       assoc "fields" desc = Some (JList (before ++ JDict field :: after)) →
       Forall (other_field "embedding") before →
       assoc "name" field = Some (JStr "embedding") →
       assoc "params" field = None
       ∨ (∃ params, assoc "params" field = Some (JDict params)
                    ∧ assoc "dim" params = None) →
       embedding_dim (JDict desc) = Done 1536%Z).
Proof.
  split_and!.
  - intros Hfalsy. unfold embedding_dim. cbn [jget mbind attempt_bind].
    destruct (assoc "fields" desc) as [v|]; cbn [default from_option id]; [|done].
    unfold jor. by rewrite (Hfalsy v eq_refl).
  - intros fs Hfs Hother. unfold embedding_dim. cbn [jget mbind attempt_bind].
    rewrite Hfs. cbn [default from_option id].
    rewrite jiter_fields. cbn [mbind attempt_bind].
    by rewrite first_named_none.
  - intros before field after Hfs Hother Hname Hparams.
    unfold embedding_dim. cbn [jget mbind attempt_bind].
    rewrite Hfs. cbn [default from_option id].
    rewrite jiter_fields. cbn [mbind attempt_bind].
    rewrite first_named_found by done. cbn [mbind attempt_bind].
    rewrite (named_field_truthy "embedding") by done. cbn [jget].
    destruct Hparams as [-> | (params & -> & Hdim)]; [done|].
    cbn. by rewrite Hdim.
Qed.

(** X12. The width is the [dim] parameter of the first field named
    [embedding], read with [int()], whatever comes after that field in the
    description, which is not looked at. *)
Theorem embedding_dim_reads_first_embedding_field
    (desc : list (string * jval)) (before after : list jval)
    (field params : list (string * jval)) (dim : jval) :
  assoc "fields" desc = Some (JList (before ++ JDict field :: after)) →
  Forall (other_field "embedding") before →
  assoc "name" field = Some (JStr "embedding") →
  assoc "params" field = Some (JDict params) →
  assoc "dim" params = Some dim →
  embedding_dim (JDict desc) = jint dim.
Proof.
  intros Hfs Hother Hname Hparams Hdim.
  unfold embedding_dim. cbn [jget mbind attempt_bind].
  rewrite Hfs. cbn [default from_option id].
  rewrite jiter_fields. cbn [mbind attempt_bind].
  rewrite first_named_found by done. cbn [mbind attempt_bind].
  rewrite (named_field_truthy "embedding") by done. cbn [jget].
  rewrite Hparams. cbn. by rewrite Hdim.
Qed.

(** X13. The defaults do not cover a value that is there and has the wrong
    shape: a field listed before the embedding field that is not a
    dictionary, and an embedding field whose [params] is [None] or anything
    else than a dictionary, make the width raise [AttributeError]. *)
Theorem embedding_dim_attribute_errors (desc : list (string * jval)) :
  (∀ before f after,
     assoc "fields" desc = Some (JList (before ++ f :: after)) →
     Forall (other_field "embedding") before →
     (∀ items, f ≠ JDict items) →
     embedding_dim (JDict desc) = Failed (AttributeError "get"))
  ∧ (∀ before field after params,
       assoc "fields" desc = Some (JList (before ++ JDict field :: after)) →
       Forall (other_field "embedding") before →
       assoc "name" field = Some (JStr "embedding") →
       assoc "params" field = Some params →
       (∀ items, params ≠ JDict items) →
       embedding_dim (JDict desc) = Failed (AttributeError "get")).
Proof.
  split.
  - intros before f after Hfs Hother Hf.
    unfold embedding_dim. cbn [jget mbind attempt_bind].
    rewrite Hfs. cbn [default from_option id].
    rewrite jiter_fields. cbn [mbind attempt_bind].
    assert (Hfirst : first_named "embedding" (before ++ f :: after)
                     = Failed (AttributeError "get")).
    { clear Hfs. induction Hother as [|g gs Hg Hgs IH]; cbn [app first_named].
      - destruct f; try reflexivity. by destruct (Hf items).
      - apply other_field_name in Hg as (n & -> & Hn). cbn. by rewrite Hn. }
    by rewrite Hfirst.
  - intros before field after params Hfs Hother Hname Hparams Hshape.
    unfold embedding_dim. cbn [jget mbind attempt_bind].
    rewrite Hfs. cbn [default from_option id].
    rewrite jiter_fields. cbn [mbind attempt_bind].
    rewrite first_named_found by done. cbn [mbind attempt_bind].
    rewrite (named_field_truthy "embedding") by done. cbn [jget].
    rewrite Hparams. cbn.
    destruct params; try done. by destruct (Hshape items).
Qed.
End Schema.

Section Resolve.
Context `{StrParsers}.
Variable dep : Deployment.
Variables environ dotenv : gmap string string.
Variables (milvus_collection tidb_table : string) (start : Z) (end_ : option Z).
Variables (page_size : Z) (enable_ssl dry_run : bool).

Abbreviation value' := (env_value environ dotenv).
Abbreviation migrate :=
  (Startup.migrate_range dep environ dotenv milvus_collection tidb_table start
                         end_ page_size enable_ssl dry_run).

(** X14. A missing variable stops [migrate_range] before the first store
    is contacted that needs it: without the Milvus variables nothing is
    contacted at all, whatever the database variables say; without the
    database variables the Milvus client is built and nothing else. The
    destination table and the calls of the loop are as before. *)
Theorem missing_variables_stop_the_run (fuel : nat) (calls : list api_call)
    (w : world) :
  (blank (value' "MILVUS_HOST") || blank (value' "MILVUS_GRPC_PORT") = true →
   migrate fuel calls w
   = Some (Failed (Builtin (ClickException
             "Missing MILVUS_HOST / MILVUS_GRPC_PORT in env or .env")),
           calls, w))
  ∧ (∀ milvus calls1,
       _milvus_client dep environ dotenv calls = (Done milvus, calls1) →
       blank (value' "DB_HOST") || blank (value' "DB_PORT")
       || blank (value' "DB_USERNAME") || blank (value' "DB_DATABASE") = true →
       migrate fuel calls w
       = Some (Failed (Builtin (ClickException
                 "Missing one of DB_HOST / DB_PORT / DB_USERNAME / DB_DATABASE in env or .env")),
               calls1, w)).
Proof.
  split.
  - intros Hb. unfold Startup.migrate_range, resolve, mbind, T_bind.
    by rewrite milvus_client_missing.
  - intros milvus calls1 Hm Hb.
    unfold Startup.migrate_range, resolve, mbind, T_bind.
    by rewrite Hm, tidb_client_missing.
Qed.

(** X15. When the source collection does not exist, [migrate_range] raises
    [Milvus collection not found] once both clients are connected and the
    collection has been asked for: it does not load or describe the
    collection, asks nothing about the destination table, fetches nothing. *)
Theorem missing_collection_stops_the_run (fuel : nat)
    (calls calls1 calls2 : list api_call) (w : world)
    (milvus : MilvusService) (tidb : TidbService) :
  _milvus_client dep environ dotenv calls = (Done milvus, calls1) →
  _tidb_client dep environ dotenv enable_ssl calls1 = (Done tidb, calls2) →
  has_collection milvus milvus_collection = Ret false →
  migrate fuel calls w
  = Some (Failed (Builtin (ClickException
            ("Milvus collection not found: " +:+ milvus_collection))),
          calls2 ++ [HasCollection milvus_collection], w).
Proof.
  intros Hm Ht Hc.
  unfold Startup.migrate_range, resolve, mbind, T_bind, call.
  by rewrite Hm, Ht, Hc.
Qed.

End Resolve.

(** The process environment comes first, the [.env] file fills in, and the
    password may be missing. *)
Example clients_of_bare_environ :
  _milvus_client (sample_deployment [] []) bare_environ port_dotenv []
  = (Done (sample_milvus []), [MilvusConnect sample_milvus_conn])
  ∧ _tidb_client (H := decimal_parsers) (sample_deployment [] []) bare_environ
                 port_dotenv true []
    = (Done (sample_tidb []), [TidbConnect sample_tidb_conn]).
Proof. split; reflexivity. Qed.

Lemma embedding_dim_reads_first_embedding_field_witness :
  (assoc "fields" sample_items
   = Some (JList ([id_field] ++ JDict embedding_field :: [JStr "not a field"]))
   ∧ Forall (other_field "embedding") [id_field]
   ∧ assoc "name" embedding_field = Some (JStr "embedding")
   ∧ assoc "params" embedding_field = Some (JDict embedding_params)
   ∧ assoc "dim" embedding_params = Some (JInt 8))
  ∧ embedding_dim (H := decimal_parsers) (JDict sample_items)
    = jint (H := decimal_parsers) (JInt 8).
Proof.
  assert (Hother : Forall (other_field "embedding") [id_field]).
  { repeat constructor. eexists. split; [reflexivity|]. by vm_compute. }
  split; [by split_and!|].
  exact (embedding_dim_reads_first_embedding_field (H := decimal_parsers)
           sample_items [id_field] [JStr "not a field"] embedding_field
           embedding_params (JInt 8) eq_refl Hother eq_refl eq_refl eq_refl).
Defined.

Lemma missing_variables_stop_the_run_witness :
  (blank (env_value ∅ ∅ "MILVUS_HOST") || blank (env_value ∅ ∅ "MILVUS_GRPC_PORT")
   = true
   ∧ _milvus_client (sample_deployment Scenarios.ten []) milvus_only_environ ∅ []
     = (Done (sample_milvus Scenarios.ten), [MilvusConnect sample_milvus_conn])
   ∧ blank (env_value milvus_only_environ ∅ "DB_HOST")
     || blank (env_value milvus_only_environ ∅ "DB_PORT")
     || blank (env_value milvus_only_environ ∅ "DB_USERNAME")
     || blank (env_value milvus_only_environ ∅ "DB_DATABASE") = true)
  ∧ Startup.migrate_range (H := decimal_parsers)
      (sample_deployment Scenarios.ten []) ∅ ∅ "chunk" "chunks" 0 None 4 true
      false 10 [] empty_world
    = Some (Failed (Builtin (ClickException
              "Missing MILVUS_HOST / MILVUS_GRPC_PORT in env or .env")),
            [], empty_world)
  ∧ Startup.migrate_range (H := decimal_parsers)
      (sample_deployment Scenarios.ten []) milvus_only_environ ∅ "chunk"
      "chunks" 0 None 4 true false 10 [] empty_world
    = Some (Failed (Builtin (ClickException
              "Missing one of DB_HOST / DB_PORT / DB_USERNAME / DB_DATABASE in env or .env")),
            [MilvusConnect sample_milvus_conn], empty_world).
Proof.
  assert (Hm : blank (env_value ∅ ∅ "MILVUS_HOST")
               || blank (env_value ∅ ∅ "MILVUS_GRPC_PORT") = true)
    by reflexivity.
  assert (Hc : _milvus_client (sample_deployment Scenarios.ten [])
                 milvus_only_environ ∅ []
               = (Done (sample_milvus Scenarios.ten),
                  [MilvusConnect sample_milvus_conn]))
    by reflexivity.
  assert (Hd : blank (env_value milvus_only_environ ∅ "DB_HOST")
               || blank (env_value milvus_only_environ ∅ "DB_PORT")
               || blank (env_value milvus_only_environ ∅ "DB_USERNAME")
               || blank (env_value milvus_only_environ ∅ "DB_DATABASE") = true)
    by reflexivity.
  split; [by split_and!|]. split.
  - exact (proj1 (missing_variables_stop_the_run (H := decimal_parsers)
                    (sample_deployment Scenarios.ten []) ∅ ∅ "chunk" "chunks" 0
                    None 4 true false 10 [] empty_world) Hm).
  - exact (proj2 (missing_variables_stop_the_run (H := decimal_parsers)
                    (sample_deployment Scenarios.ten []) milvus_only_environ ∅
                    "chunk" "chunks" 0 None 4 true false 10 [] empty_world)
                 _ _ Hc Hd).
Defined.

Lemma missing_collection_stops_the_run_witness :
  (_milvus_client (sample_deployment Scenarios.ten []) bare_environ port_dotenv []
   = (Done (sample_milvus Scenarios.ten), [MilvusConnect sample_milvus_conn])
   ∧ _tidb_client (H := decimal_parsers) (sample_deployment Scenarios.ten [])
       bare_environ port_dotenv true [MilvusConnect sample_milvus_conn]
     = (Done (sample_tidb []),
        [MilvusConnect sample_milvus_conn; TidbConnect sample_tidb_conn])
   ∧ has_collection (sample_milvus Scenarios.ten) "papers" = Ret false)
  ∧ Startup.migrate_range (H := decimal_parsers)
      (sample_deployment Scenarios.ten []) bare_environ port_dotenv "papers"
      "chunks" 0 None 4 true false 10 [] empty_world
    = Some (Failed (Builtin (ClickException
              ("Milvus collection not found: " +:+ "papers"))),
            [MilvusConnect sample_milvus_conn; TidbConnect sample_tidb_conn]
            ++ [HasCollection "papers"], empty_world).
Proof.
  assert (Hm : _milvus_client (sample_deployment Scenarios.ten []) bare_environ
                 port_dotenv []
               = (Done (sample_milvus Scenarios.ten),
                  [MilvusConnect sample_milvus_conn]))
    by reflexivity.
  assert (Ht : _tidb_client (H := decimal_parsers)
                 (sample_deployment Scenarios.ten []) bare_environ port_dotenv
                 true [MilvusConnect sample_milvus_conn]
               = (Done (sample_tidb []),
                  [MilvusConnect sample_milvus_conn;
                   TidbConnect sample_tidb_conn]))
    by reflexivity.
  assert (Hc : has_collection (sample_milvus Scenarios.ten) "papers" = Ret false)
    by reflexivity.
  split; [by split_and!|].
  exact (missing_collection_stops_the_run (H := decimal_parsers)
           (sample_deployment Scenarios.ten []) bare_environ port_dotenv
           "papers" "chunks" 0 None 4 true false 10 [] _ _ empty_world _ _
           Hm Ht Hc).
Defined.


Lemma embedding_dim_defaults_to_1536_witness :
  (assoc "fields" [("fields", JList [id_field])] = Some (JList [id_field])
   ∧ Forall (other_field "embedding") [id_field])
  ∧ embedding_dim (H := decimal_parsers) (JDict [("fields", JList [id_field])])
    = Done 1536%Z.
Proof.
  assert (Hother : Forall (other_field "embedding") [id_field]).
  { repeat constructor. eexists. split; [reflexivity|]. by vm_compute. }
  split; [by split|].
  exact (proj1 (proj2 (embedding_dim_defaults_to_1536 (H := decimal_parsers)
                         [("fields", JList [id_field])]))
               [id_field] eq_refl Hother).
Defined.

Lemma embedding_dim_attribute_errors_witness :
  (assoc "fields" [("fields", JList [JDict [("name", JStr "embedding");
                                            ("params", JNone)]])]
   = Some (JList ([] ++ JDict [("name", JStr "embedding"); ("params", JNone)]
                  :: []))
   ∧ Forall (other_field "embedding") []
   ∧ assoc "name" [("name", JStr "embedding"); ("params", JNone)]
     = Some (JStr "embedding")
   ∧ assoc "params" [("name", JStr "embedding"); ("params", JNone)]
     = Some JNone
   ∧ ∀ items, JNone ≠ JDict items)
  ∧ embedding_dim (H := decimal_parsers)
      (JDict [("fields", JList [JDict [("name", JStr "embedding");
                                       ("params", JNone)]])])
    = Failed (AttributeError "get").
Proof.
  assert (Hnone : ∀ items, JNone ≠ JDict items) by (intros items; discriminate).
  split; [by split_and!|].
  exact (proj2 (embedding_dim_attribute_errors (H := decimal_parsers)
                  [("fields", JList [JDict [("name", JStr "embedding");
                                            ("params", JNone)]])])
               [] [("name", JStr "embedding"); ("params", JNone)] [] JNone
               eq_refl (Forall_nil_2 _) eq_refl eq_refl Hnone).
Defined.

(** The same start-up on a deployment where the table exists: it is opened
    and not created, and the run goes on to the loop. *)
Example start_up_then_loop :
  Startup.migrate_range (H := decimal_parsers)
    (sample_deployment Scenarios.ten ["chunks"]) bare_environ port_dotenv
    "chunk" "chunks" 0 None 4 true true 10 [] Scenarios.half_migrated
  = Some (Done (10%nat, 5%nat, 5%nat),
          [MilvusConnect sample_milvus_conn; TidbConnect sample_tidb_conn;
           HasCollection "chunk"; LoadCollection "chunk";
           DescribeCollection "chunk"; HasTable "chunks"; OpenTable "chunks"],
          World (tidb_rows Scenarios.half_migrated)
                (trace after_top_up_dry)).
Proof. vm_compute. reflexivity. Qed.
End StartupFacts.

(* ===================================================================== *)
(** * The mock rows and their insertion                                   *)
(* ===================================================================== *)

Module MockFacts.
Import Startup Mock.
Local Open Scope Z_scope.

Section Generator.
Context `{StrParsers}.
Variable now_iso : string.
Variable seed_of : string → Z.
Variable uniform : Z → nat → spec_float.

Local Abbreviation chunk_at := (mock_chunk now_iso seed_of uniform).
Local Abbreviation rows_of := (iter_mock_chunks now_iso seed_of uniform).

Lemma doc_chunks_eq doc_i chunk_is next_id :
  doc_chunks now_iso seed_of uniform doc_i chunk_is next_id
  = (imap (λ j chunk_i, chunk_at (next_id + Z.of_nat j) doc_i chunk_i) chunk_is,
     next_id + Z.of_nat (length chunk_is)).
Proof.
revert next_id. induction chunk_is as [|c cs IH]; intros s.
- cbn. by rewrite Z.add_0_r.
- cbn [doc_chunks imap length]. rewrite IH. f_equal.
  + rewrite Z.add_0_r. f_equal. apply imap_ext. intros j x _. cbn.
    f_equal. lia.
  + lia.
Qed.

Lemma docs_chunks_length doc_is chunks_per_doc next_id :
  length (docs_chunks now_iso seed_of uniform doc_is chunks_per_doc next_id)
  = (length doc_is * Z.to_nat chunks_per_doc)%nat.
Proof.
revert next_id. induction doc_is as [|d ds IH]; intros s; [done|].
cbn [docs_chunks]. rewrite doc_chunks_eq, length_app, IH, length_imap, length_seq.
by cbn.
Qed.

Lemma docs_chunks_lookup first count chunks_per_doc next_id k :
  (k < count * Z.to_nat chunks_per_doc)%nat →
  docs_chunks now_iso seed_of uniform (seq first count) chunks_per_doc next_id !! k
  = Some (chunk_at (next_id + Z.of_nat k)
                   (first + k / Z.to_nat chunks_per_doc)
                   (k mod Z.to_nat chunks_per_doc)).
Proof.
set (c := Z.to_nat chunks_per_doc).
revert first next_id k. induction count as [|m IH]; intros a s k Hk; [lia|].
cbn [seq docs_chunks]. rewrite doc_chunks_eq, length_seq. fold c.
destruct (decide (k < c)%nat) as [Hlt|Hge].
- rewrite lookup_app_l by by rewrite length_imap, length_seq.
  rewrite list_lookup_imap, lookup_seq_lt by done. cbn.
  rewrite Nat.div_small, Nat.mod_small by done. do 2 f_equal. lia.
- rewrite lookup_app_r by (rewrite length_imap, length_seq; lia).
  rewrite length_imap, length_seq.
  rewrite IH by (cbn in Hk; lia).
  assert (Hc : c ≠ 0%nat) by lia.
  assert (Hdiv : (k / c = (k - c) / c + 1)%nat).
  { rewrite <- Nat.div_add by done. f_equal. lia. }
  assert (Hmod : (k mod c = (k - c) mod c)%nat).
  { rewrite <- (Nat.Div0.mod_add (k - c) 1 c). f_equal. lia. }
  rewrite Hdiv, Hmod. f_equal. f_equal; lia.
Qed.

Lemma mock_chunk_id next_id doc_i chunk_i :
  chunk_at next_id doc_i chunk_i !! "id" = Some (PInt next_id).
Proof. done. Qed.

Lemma ids_of_rows_indexed (rows : list row) (id_of : nat → Z) :
  (∀ k r, rows !! k = Some r → r !! "id" = Some (PInt (id_of k))) →
  ids_of_rows rows = Ret (id_of <$> seq 0 (length rows)).
Proof.
revert id_of. induction rows as [|r rows IH]; intros g Hg; [done|].
rewrite ids_of_rows_cons.
pose proof (Hg 0%nat r eq_refl) as Hr.
unfold usable, has_value, dict_get. rewrite Hr. cbn.
rewrite (IH (g ∘ S)) by (intros k r' Hk; by apply (Hg (S k))).
cbn. by rewrite <- fmap_S_seq, <- list_fmap_compose.
Qed.

(** X17. [iter_mock_chunks] yields [num_docs * chunks_per_doc] rows (none
    when either count is zero or negative), and the [k]-th of them is the
    chunk [k mod chunks_per_doc] of the document [k / chunks_per_doc],
    with the id [start_id + k]. *)
Theorem mock_rows_closed_form (start_id num_docs chunks_per_doc : Z) :
  length (iter_mock_chunks now_iso seed_of uniform start_id num_docs
                           chunks_per_doc)
  = (Z.to_nat num_docs * Z.to_nat chunks_per_doc)%nat
  ∧ ∀ k, (k < Z.to_nat num_docs * Z.to_nat chunks_per_doc)%nat →
      iter_mock_chunks now_iso seed_of uniform start_id num_docs
                       chunks_per_doc !! k
      = Some (mock_chunk now_iso seed_of uniform (start_id + Z.of_nat k)
                         (k / Z.to_nat chunks_per_doc)
                         (k mod Z.to_nat chunks_per_doc)).
Proof.
unfold iter_mock_chunks. split.
- by rewrite docs_chunks_length, length_seq.
- intros k Hk. by rewrite docs_chunks_lookup.
Qed.

(** X18. The ids that the migration reads off the mock rows
    ([ids_of_rows], the comprehension of line 155 of
    [migrate_milvus_to_tidb.py]) are [start_id], [start_id + 1], ... in
    this order, one for every row: every mock row has a usable id and no
    two share one. *)
Theorem mock_ids_consecutive (start_id num_docs chunks_per_doc : Z) :
  let rows := rows_of start_id num_docs chunks_per_doc in
  let ids := (λ k, start_id + Z.of_nat k) <$> seq 0 (length rows) in
  ids_of_rows rows = Ret ids
  ∧ NoDup ids
  ∧ Forall (λ r, usable r = true) rows.
Proof.
intros rows ids.
assert (Hrows : ∀ k r, rows !! k = Some r →
                  r !! "id" = Some (PInt (start_id + Z.of_nat k))).
{ intros k r Hk. pose proof (lookup_lt_Some _ _ _ Hk) as Hlt.
  unfold rows, iter_mock_chunks in Hk, Hlt.
  rewrite docs_chunks_length, length_seq in Hlt.
  rewrite docs_chunks_lookup in Hk by done. by injection Hk as <-. }
split_and!.
- by apply ids_of_rows_indexed.
- apply NoDup_fmap_2; [intros a b; lia | apply NoDup_seq].
- apply Forall_lookup. intros k r Hk. unfold usable, has_value.
  by rewrite (Hrows k r Hk).
Qed.

Lemma comprehension_floats (l : list spec_float) :
  comprehension py_float (PFloat <$> l) = Ret l.
Proof. induction l as [|f l IH]; [done|]. cbn. by rewrite IH. Qed.

Lemma fake_embedding_floats text dim :
  fake_embedding seed_of uniform text dim
  = PFloat <$> (uniform (seed_of text) <$> seq 0 (Z.to_nat dim)).
Proof. unfold fake_embedding. by rewrite <- list_fmap_compose. Qed.

(** A row of seven values of the kinds the table stores is staged into
    the record that reads back as the row. *)
Lemma staged_row_round_trip (rid idx : Z) (text doc src created : pyval)
    (floats : list spec_float) :
  let r : row :=
    {[ "id" := PInt rid; "chunk_text" := text;
       "embedding" := PList (PFloat <$> floats); "doc_id" := doc;
       "chunk_index" := PInt idx; "source" := src; "created_at" := created ]} in
  ∃ c, staged_record r rid = Ret c ∧ row_of_chunk c = r.
Proof.
intros r. unfold staged_record.
assert (Hidx : dict_get r "chunk_index" (PInt 0) = PInt idx) by done.
assert (Hemb : dict_get r "embedding" PNone = PList (PFloat <$> floats)) by done.
assert (Hor : py_int (py_or (PInt idx) (PInt 0)) = Ret idx).
{ unfold py_or. cbn. by destruct (Z.eqb_spec idx 0) as [->|]. }
rewrite Hidx, Hemb, Hor. cbn [mbind outcome_bind _coerce_embedding].
rewrite comprehension_floats. cbn [mbind outcome_bind].
eexists. split; [done|].
apply map_eq. intros k.
destruct (decide ("id" = k)) as [<-|]; [done|].
destruct (decide ("chunk_text" = k)) as [<-|]; [done|].
destruct (decide ("doc_id" = k)) as [<-|]; [done|].
destruct (decide ("chunk_index" = k)) as [<-|]; [done|].
destruct (decide ("source" = k)) as [<-|]; [done|].
destruct (decide ("created_at" = k)) as [<-|]; [done|].
destruct (decide ("embedding" = k)) as [<-|]; [done|].
unfold row_of_chunk, r.
by rewrite !lookup_insert_ne, !lookup_singleton_ne by done.
Qed.

(** X19. The migration stages a mock row as it is: the staging of lines
    160-178 of [migrate_milvus_to_tidb.py] reads the id the generator
    wrote, raises nothing, and the record it builds holds the seven
    values of the row (the row that [table.query] would hand back for it
    is the mock row). *)
Theorem mock_row_staged_unchanged (next_id : Z) (doc_i chunk_i : nat) :
  let r := chunk_at next_id doc_i chunk_i in
  py_int (dict_get r "id" PNone) = Ret next_id
  ∧ ∃ c, staged_record r next_id = Ret c ∧ row_of_chunk c = r.
Proof.
intros r. split; [done|].
unfold r, mock_chunk. rewrite fake_embedding_floats.
apply staged_row_round_trip.
Qed.

(** X20. Every mock row carries exactly the seven fields that the schema
    of lines 56-66 declares, each with a value of the declared kind; its
    embedding has the declared [embedding_dimensions] = 1536 components. *)
Theorem mock_rows_fit_schema (next_id : Z) (doc_i chunk_i : nat) :
  let r := chunk_at next_id doc_i chunk_i in
  dom r = list_to_set (field_name <$> fields schema)
  ∧ Forall (λ f, ∃ v, r !! field_name f = Some v ∧ kind_fits (field_type f) v)
           (fields schema).
Proof.
intros r. split.
- unfold r, mock_chunk. rewrite !dom_insert_L, dom_singleton_L. cbn. set_solver.
- repeat constructor; eexists; (split; [done|]); try done.
  cbn. unfold fake_embedding. split.
  + by rewrite length_fmap, length_seq.
  + apply Forall_fmap, Forall_forall. intros k _. by eexists.
Qed.

End Generator.

Lemma inserted_batches_app calls calls' :
  inserted_batches (calls ++ calls')
  = inserted_batches calls ++ inserted_batches calls'.
Proof. apply omap_app. Qed.

Lemma inserted_batches_inserts name (batches : list (list row)) :
  inserted_batches (AdmInsert name <$> batches) = batches.
Proof.
unfold inserted_batches. induction batches as [|b bs IH]; [done|].
cbn. by f_equal.
Qed.

Section Insertion.
Context `{StrParsers}.
Variable now_iso : string.
Variable seed_of : string → Z.
Variable uniform : Z → nat → spec_float.
Variable adm : MilvusAdmin.
Variable collection_name : string.

Local Abbreviation rows_of := (iter_mock_chunks now_iso seed_of uniform).
Local Abbreviation run :=
  (insert_mock_chunks now_iso seed_of uniform adm collection_name).

Local Abbreviation confirms_in_full :=
  (Mock.confirms_in_full adm collection_name).

Lemma insert_batch_calls batch tr out tr' :
  insert_batch adm collection_name batch tr = (out, tr') →
  tr' = tr ++ [AdmInsert collection_name batch].
Proof.
unfold insert_batch, mbind, A_bind, ask, still.
destruct (adm_insert adm collection_name batch); cbn; by intros [= _ <-].
Qed.

Lemma insert_batch_count batch tr n tr' :
  confirms_in_full →
  insert_batch adm collection_name batch tr = (Done n, tr') →
  n = Z.of_nat (length batch).
Proof.
intros Hfull. unfold insert_batch, mbind, A_bind, ask, still.
destruct (adm_insert adm collection_name batch) as [result|e] eqn:Hins; cbn;
  [|done].
rewrite (Hfull _ _ Hins). by intros [= <- _].
Qed.

Lemma ensure_collection_calls recreate tr out tr' :
  ensure_collection adm collection_name recreate tr = (out, tr') →
  ∃ setup, tr' = tr ++ setup
    ∧ inserted_batches setup = []
    ∧ (recreate = false → Forall keeps_collections setup
                          ∨ adm_has_collection adm collection_name = Ret false
                            ∧ Forall (λ c, ∀ name, c ≠ AdmDropCollection name) setup)
    ∧ (∀ u, out = Done u →
         ∃ there, adm_has_collection adm collection_name = Ret there
                  ∧ setup = setup_calls collection_name there recreate).
Proof.
unfold ensure_collection, mbind, A_bind, mret, A_ret, ask, setup_calls.
destruct (adm_has_collection adm collection_name) as [[|]|e]; cbn;
  destruct recreate; cbn;
  repeat match goal with
  | |- context [of_outcome ?o] => destruct o; cbn
  end;
  intros [= <- <-]; rewrite <- ?(assoc_L (++)); eexists; (split; [done|]);
  (split; [done|]); split; try done; try (intros _; right; split; [done|]);
  try (intros _; left); repeat constructor; try done;
  try (intros u [=]; eexists; by split);
  try (intros u _; eexists; by split).
Qed.

Section Loop.
Variable batch_size : Z.

Local Abbreviation send := (send_rows adm collection_name batch_size).

Lemma send_rows_calls rows batch inserted_total tr out tr' :
  (length batch < full_batch batch_size)%nat →
  send rows batch inserted_total tr = (out, tr') →
  ∃ batches rest,
    tr' = tr ++ (AdmInsert collection_name <$> batches)
    ∧ batch ++ rows = concat batches ++ rest
    ∧ Forall (λ b, length b = full_batch batch_size) batches
    ∧ (∀ b t, out = Done (b, t) →
         rest = b ∧ (length b < full_batch batch_size)%nat).
Proof.
revert batch inserted_total tr.
induction rows as [|row rows IH]; intros batch total tr Hlen.
- cbn. intros [= <- <-]. exists [], batch. cbn.
  rewrite !app_nil_r. split_and!; try done.
  by intros b t [= <- _].
- cbn [send_rows]. destruct (Z.ltb_spec (Z.of_nat (length (batch ++ [row]))) batch_size)
    as [Hlt|Hge].
  + intros Hrun. apply IH in Hrun as (batches & rest & -> & Heq & Hfull & Hdone).
    * exists batches, rest. by rewrite <- Heq, <- (assoc_L (++)).
    * unfold full_batch. lia.
  + unfold mbind, A_bind.
    destruct (insert_batch adm collection_name (batch ++ [row]) tr)
      as [[n|e] tr1] eqn:Hins; apply insert_batch_calls in Hins as ->.
    * intros Hrun. apply IH in Hrun as (batches & rest & -> & Heq & Hfull & Hdone);
        [|unfold full_batch; cbn; lia].
      exists ((batch ++ [row]) :: batches), rest. cbn in Heq. split_and!.
      -- by rewrite <- (assoc_L (++)).
      -- cbn. by rewrite <- !(assoc_L (++)), Heq.
      -- constructor; [|done]. rewrite length_app in *. unfold full_batch in *.
         cbn in *. lia.
      -- done.
    * intros [= <- <-]. exists [batch ++ [row]], rows. cbn. split_and!.
      -- done.
      -- by rewrite app_nil_r, <- (assoc_L (++)).
      -- repeat constructor. rewrite length_app in *. unfold full_batch in *.
         cbn in *. lia.
      -- done.
Qed.

Lemma send_rows_total rows batch inserted_total tr b t tr' :
  confirms_in_full →
  send rows batch inserted_total tr = (Done (b, t), tr') →
  (t + Z.of_nat (length b)
   = inserted_total + Z.of_nat (length batch) + Z.of_nat (length rows))%Z.
Proof.
intros Hfull. revert batch inserted_total tr.
induction rows as [|row rows IH]; intros batch total tr.
- cbn. intros [= <- <- _]. lia.
- cbn [send_rows]. destruct (Z.of_nat (length (batch ++ [row])) <? batch_size)%Z.
  + intros Hrun. apply IH in Hrun. rewrite length_app in Hrun. cbn in *. lia.
  + unfold mbind, A_bind.
    destruct (insert_batch adm collection_name (batch ++ [row]) tr)
      as [[n|e] tr1] eqn:Hins; [|done].
    apply insert_batch_count in Hins as ->; [|done].
    intros Hrun. apply IH in Hrun. rewrite length_app in Hrun. cbn in *. lia.
Qed.

(** What a run has done when it stops, whatever the way it stops. *)
Lemma run_calls start_id num_docs chunks_per_doc recreate out calls :
  run start_id num_docs chunks_per_doc batch_size recreate [] = (out, calls) →
  ∃ setup full last,
    calls = setup ++ (AdmInsert collection_name <$> (full ++ last))
    ∧ inserted_batches setup = []
    ∧ (recreate = false → Forall keeps_collections setup
                          ∨ adm_has_collection adm collection_name = Ret false
                            ∧ Forall (λ c, ∀ name, c ≠ AdmDropCollection name) setup)
    ∧ Forall (λ b, length b = full_batch batch_size) full
    ∧ (last = [] ∨ ∃ b, last = [b] ∧ (0 < length b < full_batch batch_size)%nat)
    ∧ (∀ total, out = Done total →
         concat (full ++ last) = rows_of start_id num_docs chunks_per_doc
         ∧ ∃ there, adm_has_collection adm collection_name = Ret there
                    ∧ setup = setup_calls collection_name there recreate).
Proof.
unfold insert_mock_chunks, mbind at 1, A_bind at 1.
destruct (ensure_collection adm collection_name recreate [])
  as [[[]|e] tr1] eqn:Hens;
  apply ensure_collection_calls in Hens as (setup & -> & Hnone & Hkeep & Hsetup);
  cbn [app]; cycle 1.
{ intros [= <- <-]. exists setup, [], []. cbn. rewrite app_nil_r.
  split_and!; try done. by left. }
unfold mbind, A_bind.
destruct (send_rows _ _ _ _ _ _ _) as [[[batch total]|e] tr2] eqn:Hsend;
  apply send_rows_calls in Hsend
    as (full & rest & -> & Heq & Hfull & Hdone);
  try (unfold full_batch; cbn; lia); cycle 1.
{ intros [= <- <-]. exists setup, full, []. rewrite app_nil_r.
  split_and!; try done. by left. }
destruct (Hdone _ _ eq_refl) as [-> Hlen]. cbn [app] in Heq.
destruct batch as [|row batch].
- intros [= <- <-]. exists setup, full, []. rewrite !app_nil_r in *.
  split_and!; try done; [by left|]. intros total' _. split; [done|].
  by apply (Hsetup ()).
- destruct (insert_batch _ _ _ _) as [out1 tr3] eqn:Hins.
  apply insert_batch_calls in Hins as ->.
  intros Hout. exists setup, full, [row :: batch].
  assert (calls = setup ++ (AdmInsert collection_name <$> full ++ [row :: batch]))
    as ->.
  { rewrite fmap_app, (assoc_L (++)). cbn. by destruct out1; injection Hout as <- <-. }
  split_and!; try done.
  + right. eexists. split; [done|]. cbn in *. lia.
  + intros total' _. rewrite concat_app. cbn. rewrite app_nil_r.
    split; [done|]. by apply (Hsetup ()).
Qed.

(** X21. A run of [insert_mock_chunks] that returns has handed every
    generated row to [insert] exactly once and in the order of
    generation: the batches it sent, one after the other, are the rows of
    [iter_mock_chunks]. No batch is empty and all go to the collection
    named. *)
Theorem batches_partition_rows start_id num_docs chunks_per_doc recreate
    total calls :
  run start_id num_docs chunks_per_doc batch_size recreate [] = (Done total, calls) →
  concat (inserted_batches calls) = rows_of start_id num_docs chunks_per_doc
  ∧ Forall (λ b, b ≠ []) (inserted_batches calls)
  ∧ Forall (λ c, ∀ name data, c = AdmInsert name data → name = collection_name)
           calls.
Proof.
intros Hrun.
apply run_calls in Hrun
  as (setup & full & last & -> & Hnone & _ & Hfull & Hlast & Hdone).
destruct (Hdone _ eq_refl) as (Hrows & there & _ & ->).
rewrite inserted_batches_app, inserted_batches_inserts, Hnone. cbn [app].
split_and!; [done| |].
- apply Forall_app. split.
  + eapply Forall_impl; [exact Hfull|]. intros b Hb ->. unfold full_batch in Hb.
    cbn in Hb. lia.
  + destruct Hlast as [->|(b & -> & Hb)]; [done|]. repeat constructor.
    intros ->. cbn in Hb. lia.
- apply Forall_app. split.
  + unfold setup_calls. destruct there, recreate; repeat constructor; by intros.
  + apply Forall_fmap, Forall_forall. intros b _ name data. by intros [= <- _].
Qed.

(** X22. The batches of a run that returns: all but possibly the last
    have exactly [batch_size] rows (one row when [batch_size] is zero or
    negative), and a last shorter batch, if there is one, has at least
    one row. *)
Theorem batch_sizes start_id num_docs chunks_per_doc recreate total calls :
  run start_id num_docs chunks_per_doc batch_size recreate [] = (Done total, calls) →
  ∃ full last,
    inserted_batches calls = full ++ last
    ∧ Forall (λ b, length b = Z.to_nat (Z.max 1 batch_size)) full
    ∧ (last = []
       ∨ ∃ b, last = [b] ∧ (0 < length b < Z.to_nat (Z.max 1 batch_size))%nat).
Proof.
intros Hrun.
apply run_calls in Hrun
  as (setup & full & last & -> & Hnone & _ & Hfull & Hlast & _).
exists full, last.
by rewrite inserted_batches_app, inserted_batches_inserts, Hnone.
Qed.

(** X23. When the server confirms every batch in full (its answer
    carries no [insert_count], or the number of rows of the batch, or is
    no dictionary), the number that [insert_mock_chunks] returns is the
    number of generated rows, [num_docs * chunks_per_doc], with a count
    that is negative taken for zero. *)
Theorem inserted_total_counts_rows start_id num_docs chunks_per_doc recreate
    total calls :
  confirms_in_full →
  run start_id num_docs chunks_per_doc batch_size recreate [] = (Done total, calls) →
  total = (Z.max 0 num_docs * Z.max 0 chunks_per_doc)%Z.
Proof.
intros Hfull. unfold insert_mock_chunks, mbind at 1, A_bind at 1.
destruct (ensure_collection adm collection_name recreate []) as [[[]|e] tr1];
  [|done].
unfold mbind, A_bind.
destruct (send_rows _ _ _ _ _ _ _) as [[[batch t]|e] tr2] eqn:Hsend; [|done].
apply send_rows_total in Hsend; [|done].
unfold iter_mock_chunks in Hsend.
rewrite docs_chunks_length, length_seq, Nat2Z.inj_mul in Hsend.
replace (Z.of_nat (Z.to_nat num_docs)) with (Z.max 0 num_docs) in Hsend by lia.
replace (Z.of_nat (Z.to_nat chunks_per_doc)) with (Z.max 0 chunks_per_doc)
  in Hsend by lia.
set (product := (Z.max 0 num_docs * Z.max 0 chunks_per_doc)%Z) in *.
clearbody product. cbn [length] in Hsend.
destruct batch as [|row batch].
- intros [= <- _]. cbn [length] in Hsend. lia.
- destruct (insert_batch _ _ _ _) as [[n|e] tr3] eqn:Hins; [|done].
  apply insert_batch_count in Hins as ->; [|done].
  intros [= <- _]. cbn [length] in *. lia.
Qed.

(** X24. Without [recreate], a run drops no collection, however it ends;
    and when the collection is there already, it creates none either: it
    only tests for the collection and inserts. *)
Theorem existing_collection_kept start_id num_docs chunks_per_doc out calls :
  run start_id num_docs chunks_per_doc batch_size false [] = (out, calls) →
  Forall (λ c, ∀ name, c ≠ AdmDropCollection name) calls
  ∧ (adm_has_collection adm collection_name = Ret true →
     Forall keeps_collections calls).
Proof.
intros Hrun.
apply run_calls in Hrun
  as (setup & full & last & -> & _ & Hkeep & _ & _ & _).
assert (Hins : Forall keeps_collections
                 (AdmInsert collection_name <$> full ++ last)).
{ apply Forall_fmap, Forall_forall. by intros. }
destruct (Hkeep eq_refl) as [Hsetup|[Hno Hsetup]].
- split.
  + apply Forall_app. split; (eapply Forall_impl; [eassumption|]);
      by intros [] ? ?.
  + intros _. by apply Forall_app.
- split.
  + apply Forall_app. split; [done|].
    eapply Forall_impl; [exact Hins|]. by intros [] ? ?.
  + by rewrite Hno.
Qed.

(** X25. In a run that returns, the collection is settled before the
    first row is sent: the calls are the test for the collection, then
    nothing more when it is there and [recreate] is off, the drop and the
    creation when it is there and [recreate] is on, the creation alone
    when it is not there; only then the inserts. The creation is always
    with the schema and the index of the module. *)
Theorem collection_settled_before_inserts start_id num_docs chunks_per_doc
    recreate total calls :
  run start_id num_docs chunks_per_doc batch_size recreate [] = (Done total, calls) →
  ∃ there,
    adm_has_collection adm collection_name = Ret there
    ∧ calls = setup_calls collection_name there recreate
              ++ (AdmInsert collection_name <$> inserted_batches calls).
Proof.
intros Hrun.
apply run_calls in Hrun
  as (setup & full & last & -> & Hnone & _ & _ & _ & Hdone).
destruct (Hdone _ eq_refl) as (_ & there & Hthere & ->).
exists there. split; [done|].
by rewrite inserted_batches_app, inserted_batches_inserts, Hnone.
Qed.

End Loop.
End Insertion.
Lemma mock_rows_closed_form_witness :
  (4 < Z.to_nat 2 * Z.to_nat 3)%nat
  ∧ iter_mock_chunks sample_now sample_seed sample_uniform 1 2 3 !! 4%nat
    = Some (mock_chunk sample_now sample_seed sample_uniform (1 + Z.of_nat 4)
                       (4 / Z.to_nat 3) (4 mod Z.to_nat 3)).
Proof.
  assert (Hlt : (4 < Z.to_nat 2 * Z.to_nat 3)%nat) by (vm_compute; lia).
  split; [exact Hlt|].
  exact (proj2 (mock_rows_closed_form sample_now sample_seed sample_uniform
                  1 2 3) 4%nat Hlt).
Defined.

Lemma sample_run_returns : sample_run = (Done 6%Z, sample_run.2).
Proof. by vm_compute. Qed.

Lemma batches_partition_rows_witness :
  sample_run = (Done 6%Z, sample_run.2)
  ∧ concat (inserted_batches sample_run.2)
    = iter_mock_chunks sample_now sample_seed sample_uniform 1 2 3
  ∧ Forall (λ b, b ≠ []) (inserted_batches sample_run.2)
  ∧ Forall (λ c, ∀ name data, c = AdmInsert name data → name = "chunk")
           sample_run.2.
Proof.
  split; [exact sample_run_returns|].
  exact (batches_partition_rows (H := decimal_parsers) sample_now sample_seed
           sample_uniform (counting_admin []) "chunk" 4 1 2 3 false 6
           sample_run.2 sample_run_returns).
Defined.

Lemma batch_sizes_witness :
  sample_run = (Done 6%Z, sample_run.2)
  ∧ ∃ full last,
      inserted_batches sample_run.2 = full ++ last
      ∧ Forall (λ b, length b = Z.to_nat (Z.max 1 4)) full
      ∧ (last = []
         ∨ ∃ b, last = [b] ∧ (0 < length b < Z.to_nat (Z.max 1 4))%nat).
Proof.
  split; [exact sample_run_returns|].
  exact (batch_sizes (H := decimal_parsers) sample_now sample_seed
           sample_uniform (counting_admin []) "chunk" 4 1 2 3 false 6
           sample_run.2 sample_run_returns).
Defined.

Lemma counting_admin_confirms existing name :
  confirms_in_full (H := decimal_parsers) (counting_admin existing) name.
Proof. by intros data result [= <-]. Qed.

Lemma inserted_total_counts_rows_witness :
  (confirms_in_full (H := decimal_parsers) (counting_admin []) "chunk"
   ∧ sample_run = (Done 6%Z, sample_run.2))
  ∧ 6%Z = (Z.max 0 2 * Z.max 0 3)%Z.
Proof.
  split; [split; [apply counting_admin_confirms | exact sample_run_returns]|].
  exact (inserted_total_counts_rows (H := decimal_parsers) sample_now
           sample_seed sample_uniform (counting_admin []) "chunk" 4 1 2 3 false
           6 sample_run.2 (counting_admin_confirms [] "chunk")
           sample_run_returns).
Defined.

Lemma sample_rerun_returns : sample_rerun = (Done 6%Z, sample_rerun.2).
Proof. by vm_compute. Qed.

Lemma existing_collection_kept_witness :
  sample_rerun = (Done 6%Z, sample_rerun.2)
  ∧ Forall (λ c, ∀ name, c ≠ AdmDropCollection name) sample_rerun.2
  ∧ (adm_has_collection (counting_admin ["chunk"]) "chunk" = Ret true →
     Forall keeps_collections sample_rerun.2).
Proof.
  split; [exact sample_rerun_returns|].
  exact (existing_collection_kept (H := decimal_parsers) sample_now sample_seed
           sample_uniform (counting_admin ["chunk"]) "chunk" 4 1 2 3 (Done 6%Z)
           sample_rerun.2 sample_rerun_returns).
Defined.

Lemma collection_settled_before_inserts_witness :
  sample_run = (Done 6%Z, sample_run.2)
  ∧ ∃ there,
      adm_has_collection (counting_admin []) "chunk" = Ret there
      ∧ sample_run.2
        = setup_calls "chunk" there false
          ++ (AdmInsert "chunk" <$> inserted_batches sample_run.2).
Proof.
  split; [exact sample_run_returns|].
  exact (collection_settled_before_inserts (H := decimal_parsers) sample_now
           sample_seed sample_uniform (counting_admin []) "chunk" 4 1 2 3 false
           6 sample_run.2 sample_run_returns).
Defined.

(** The sample run, call by call: the collection is tested for and
    created, then the six rows go out as a batch of four and one of two. *)
Example sample_run_calls :
  sample_run.1 = Done 6%Z
  ∧ (λ c, match c with
          | AdmInsert name data => (name, length data)
          | AdmHasCollection name => ("has " +:+ name, 0%nat)
          | AdmDropCollection name => ("drop " +:+ name, 0%nat)
          | AdmCreateCollection name _ _ => ("create " +:+ name, 0%nat)
          end) <$> sample_run.2
    = [("has chunk", 0%nat); ("create chunk", 0%nat); ("chunk", 4%nat);
       ("chunk", 2%nat)].
Proof. by vm_compute. Qed.

End MockFacts.

(* ===================================================================== *)
(** * The sample of [inspect_milvus.py]                                   *)
(* ===================================================================== *)

Module InspectFacts.
Import Inspect.

Lemma summarize_hides r l : summarize r !! "embedding" ≠ Some (PList l).
Proof.
unfold summarize. destruct (r !! "embedding") as [[]|] eqn:Hemb;
  rewrite ?Hemb; try done.
by rewrite lookup_delete_eq.
Qed.

Lemma summarize_list r emb :
  r !! "embedding" = Some (PList emb) →
  summarize r !! "embedding" = None
  ∧ summarize r !! "embedding_dim" = Some (PInt (Z.of_nat (length emb)))
  ∧ summarize r !! "embedding_preview" = Some (PList (take 5 emb)).
Proof.
intros Hemb. unfold summarize. rewrite Hemb. split_and!.
- by rewrite lookup_delete_eq.
- by rewrite lookup_delete_ne, lookup_insert_ne, lookup_insert_eq.
- by rewrite lookup_delete_ne, lookup_insert_eq.
Qed.

Lemma summarize_other r k : k ∉ summary_keys → summarize r !! k = r !! k.
Proof.
intros Hk. unfold summarize. destruct (r !! "embedding") as [[]|]; try done.
unfold summary_keys in Hk. rewrite !not_elem_of_cons in Hk.
destruct Hk as (? & ? & ? & _).
by rewrite lookup_delete_ne, !lookup_insert_ne.
Qed.

(** X26. With [include_embedding], the sample that [_query_sample]
    returns has one row for every row of the answer and carries no
    embedding in full: no row holds a list under [embedding]; where the
    answer had one, the row gives its length as [embedding_dim] and its
    first five components as [embedding_preview]; every other key of the
    row is as it was answered. *)
Theorem sample_summarizes_embeddings (client : SampleClient)
    (collection : string) (limit : Z) (calls : list sample_call)
    (out : list row) (calls' : list sample_call) :
  _query_sample client collection limit true calls = (Ret out, calls') →
  ∃ answer,
    sample_query client collection "id >= 0"
      ["id"; "chunk_text"; "doc_id"; "chunk_index"; "source"; "created_at";
       "embedding"] limit = Ret answer
    ∧ length out = length answer
    ∧ ∀ i a r, answer !! i = Some a → out !! i = Some r →
        (∀ l, r !! "embedding" ≠ Some (PList l))
        ∧ (∀ emb, normalize a !! "embedding" = Some (PList emb) →
             r !! "embedding" = None
             ∧ r !! "embedding_dim" = Some (PInt (Z.of_nat (length emb)))
             ∧ r !! "embedding_preview" = Some (PList (take 5 emb)))
        ∧ (∀ k, k ∉ summary_keys → r !! k = normalize a !! k).
Proof.
unfold _query_sample, mbind, Q_bind, request, mret, Q_ret.
destruct (sample_load_collection client collection) as [[]|]; [|done].
cbn [app].
destruct (sample_query client collection _ _ limit) as [answer|] eqn:Hq; [|done].
intros [= <- _]. exists answer. split_and!; [done|by rewrite !length_fmap|].
intros i a r Ha. rewrite <- list_fmap_compose, list_lookup_fmap, Ha.
intros [= <-]. cbn. split_and!.
- apply summarize_hides.
- apply summarize_list.
- apply summarize_other.
Qed.

Lemma sample_summarizes_embeddings_witness :
  _query_sample (fixed_client sample_answer) "chunk" 5 true []
  = (Ret (summarize <$> (normalize <$> sample_answer)),
     [SampleLoad "chunk";
      SampleQuery "chunk" "id >= 0"
        ["id"; "chunk_text"; "doc_id"; "chunk_index"; "source"; "created_at";
         "embedding"] 5])
  ∧ ∃ answer,
      sample_query (fixed_client sample_answer) "chunk" "id >= 0"
        ["id"; "chunk_text"; "doc_id"; "chunk_index"; "source"; "created_at";
         "embedding"] 5 = Ret answer
      ∧ length (summarize <$> (normalize <$> sample_answer)) = length answer
      ∧ ∀ i a r, answer !! i = Some a →
          (summarize <$> (normalize <$> sample_answer)) !! i = Some r →
          (∀ l, r !! "embedding" ≠ Some (PList l))
          ∧ (∀ emb, normalize a !! "embedding" = Some (PList emb) →
               r !! "embedding" = None
               ∧ r !! "embedding_dim" = Some (PInt (Z.of_nat (length emb)))
               ∧ r !! "embedding_preview" = Some (PList (take 5 emb)))
          ∧ (∀ k, k ∉ summary_keys → r !! k = normalize a !! k).
Proof.
  split; [reflexivity|].
  exact (sample_summarizes_embeddings (fixed_client sample_answer) "chunk" 5 []
           _ _ eq_refl).
Defined.

(** The sample answer, summarized: six components become five, the row
    without a list and the row that is no mapping stay as normalized. *)
Example sample_answer_summarized :
  (_query_sample (fixed_client sample_answer) "chunk" 5 true []).1
  = Ret [ {[ "id" := PInt 1; "embedding_dim" := PInt 6;
             "embedding_preview" :=
               PList [PInt 1; PInt 2; PInt 3; PInt 4; PInt 5] ]};
          {[ "id" := PInt 2; "embedding" := PNone ]};
          {[ "_raw" := PStr "<row 3>" ]} ].
Proof. reflexivity. Qed.

End InspectFacts.
